(** * Installment-payment reconciliation engine of ADC-PRO

    A shallow embedding of the parts of the back office that split an order
    total into installments ([recalculateInstallments]), verify the Stripe
    webhook signature ([verifyStripeSignature]), apply gateway payment events
    to an order ([POST] of the Stripe and Mercado Pago webhooks) and record or
    reverse payments by hand ([recordInstallmentPayment], [reversePayment]).
    Beside them: the other admin operations on a schedule
    ([updateInstallmentDueDate], [updateInstallmentAmount], the schedule block
    of [updateOrderDetails]), [calculateCommission],
    [sanitizeCustomerForFirestore], the two retrieve endpoints with the
    payment check of the order confirmation page that calls them, and the
    order metadata that the checkout endpoints hand to the gateways.

    Conventions of the embedding:
    - a JavaScript [number] holding money is a binary64 [float]; a number that
      the code only uses as an integer (installment numbers, counts, cents,
      HTTP status codes, the clock in milliseconds) is a [Z].  Integers below
      2^53 are exact in binary64; the cent arithmetic of the schedule builder
      is done on integers for a total below 2^53 cents and in binary64, as
      the loop is written, for every other total;
    - a JavaScript string is a [string] whose characters are code units
      0..255 (an HTTP header value is such a byte string); [Buffer.from(s,
      'utf8')] encodes a unit above 127 on two bytes;
    - a Firestore document is a record; [updateDoc] merges a patch of optional
      fields into the stored record and fails on a missing document;
    - a function that may throw returns a [JS.result]. *)

From Stdlib Require Import ZArith Floats Uint63 Ascii String Lia.
From stdpp Require Import gmap strings list pretty.

Set Warnings "-inexact-float".
Open Scope Z_scope.

(** ** JavaScript primitives used by the sources *)

Module JS.

(** A computation that returns or throws. *)
Inductive result (A : Type) : Type :=
| Ok (a : A)
| Throw (err : string).
Arguments Ok {A} a.
Arguments Throw {A} err.

Definition isNaN (x : float) : bool := negb (x =? x)%float.

(** Truthiness of a number: everything but [0], [-0] and [NaN]. *)
Definition truthy (x : float) : bool := negb (isNaN x) && negb (x =? 0)%float.

(** [x || 0] on a number. *)
Definition or0 (x : float) : float := if truthy x then x else 0%float.

(** [a >= b]: false as soon as one side is [NaN]. *)
Definition geb (a b : float) : bool := (b <=? a)%float.

(** [Math.max(0, x)]: [NaN] is contagious, and [+0] wins over [-0]. *)
Definition max0 (x : float) : float :=
  if isNaN x then x else if (0 <? x)%float then x else 0%float.

(** [Math.round(x)] of a finite [x], as an exact integer: the nearest
    integer, a tie going up.  [None] stands for [NaN] and the infinities,
    which [Math.round] returns unchanged. *)
Definition Math_round (x : float) : option Z :=
  match Prim2SF x with
  | S754_zero _ => Some 0
  | S754_finite s m e =>
      let v := if s then Z.neg m else Z.pos m in
      Some (if 0 <=? e then v * 2 ^ e else (2 * v + 2 ^ (- e)) / 2 ^ (1 - e))
  | S754_infinity _ | S754_nan => None
  end.

(** The number an integer denotes: the integer itself up to 2^53 in
    magnitude, the nearest binary64 number (ties to even) beyond. *)
Definition of_Z (z : Z) : float := SF2Prim (binary_normalize prec emax z 0 false).

(** [Math.floor(x)]: a number without fraction, an infinity and [NaN] are
    returned unchanged; a number strictly between 0 and 1 gives [+0]. *)
Definition Math_floor (x : float) : float :=
  match Prim2SF x with
  | S754_finite s m e =>
      if 0 <=? e then x
      else
        let v := if s then Z.neg m else Z.pos m in
        let r := v / 2 ^ (- e) in
        if r =? 0 then 0%float else of_Z r
  | _ => x
  end.

(** [a % b]: the remainder of the truncated division, computed exactly; it
    has the sign of [a]. *)
Definition rem (a b : float) : float :=
  match Prim2SF a, Prim2SF b with
  | S754_nan, _ | _, S754_nan | S754_infinity _, _ | _, S754_zero _ => nan
  | S754_zero _, _ | S754_finite _ _ _, S754_infinity _ => a
  | S754_finite sa ma ea, S754_finite _ mb eb =>
      let e := Z.min ea eb in
      let r := (Z.pos ma * 2 ^ (ea - e)) mod (Z.pos mb * 2 ^ (eb - e)) in
      if r =? 0 then (if sa then (-0)%float else 0%float)
      else SF2Prim (binary_normalize prec emax (if sa then - r else r) e false)
  end.

(** The integer an integer-valued finite number denotes; [None] for an
    infinity and [NaN]. *)
Definition to_Z (x : float) : option Z :=
  match Prim2SF x with
  | S754_zero _ => Some 0
  | S754_finite s m e =>
      let v := if s then Z.neg m else Z.pos m in
      Some (if 0 <=? e then v * 2 ^ e else v / 2 ^ (- e))
  | S754_infinity _ | S754_nan => None
  end.

(** The decimal digits [s], their count [k] and the magnitude [n] of the
    shortest numeral [s * 10^(n - k)] that reads as the number of value
    [value]: the first [k] from [k0] on for which a multiple of [10^(n - k)]
    next to [value] reads as that number, the nearer of the two when both
    do.  [digits] is the count of digits of [value]. *)
Fixpoint shortestNumeral (fuel : nat) (k0 : Z) (value digits : Z) : Z * Z * Z :=
  match fuel with
  | O => (value, digits, digits)
  | S fuel' =>
      let p := 10 ^ (digits - k0) in
      let lo := value / p in
      let hi := lo + 1 in
      let reads c := Leibniz.eqb (of_Z (c * p)) (of_Z value) in
      let nearer_lo :=
        (value - lo * p <? hi * p - value)
        || ((value - lo * p =? hi * p - value) && Z.even lo) in
      let found c :=
        if c =? 10 ^ k0 then (1, 1, digits + 1) else (c, k0, digits) in
      if reads lo && (negb (reads hi) || nearer_lo) then found lo
      else if reads hi then found hi
      else shortestNumeral fuel' (k0 + 1) value digits
  end.

Fixpoint zeros (count : nat) : string :=
  match count with
  | O => EmptyString
  | S k => String "0" (zeros k)
  end.

(** [String(n)] of the number an integer denotes.  Up to 2^53 in magnitude
    the result is the decimal numeral of the integer.  Beyond, it is the
    shortest numeral that reads as the number: followed by zeros below 10^21
    ([18446744073709552000] for 2^64), in exponent notation from 10^21 on
    ([1e+21], [1.1805916207174113e+21]). *)
Definition String_of_Z (z : Z) : string :=
  if Z.abs z <=? 2 ^ 53 then pretty z
  else
    match to_Z (of_Z (Z.abs z)) with
    | None => if z <? 0 then "-Infinity" else "Infinity"
    | Some value =>
        let digits := Z.of_nat (String.length (pretty value)) in
        let '(s, k, n) := shortestNumeral 17 1 value digits in
        let numeral := pretty s in
        (if z <? 0 then "-" else "")
        +:+ (if n <=? 21 then numeral +:+ zeros (Z.to_nat (n - k))
             else
               (match numeral with
                | String d EmptyString => numeral
                | String d rest => String d ("." +:+ rest)
                | EmptyString => numeral
                end)
               +:+ "e+" +:+ pretty (n - 1))
    end.

(** [s || d] on a string. *)
Definition orS (s d : string) : string := if String.eqb s "" then d else s.

(** [o || d] on a possibly missing string ([undefined] and [''] are falsy). *)
Definition orOpt (o : option string) (d : string) : string :=
  match o with Some s => orS s d | None => d end.

End JS.

(** ** Data model *)

(** The three literals of [Order['paymentStatus']]; an installment only ever
    receives ['Pago'] or ['Pendente']. *)
Inductive Status : Type := Pago | Pendente | Falhou.

Definition Status_eqb (a b : Status) : bool :=
  match a, b with
  | Pago, Pago | Pendente, Pendente | Falhou, Falhou => true
  | _, _ => false
  end.

Record Payment : Type := mkPayment {
  pay_id : string;
  pay_amount : float;
  pay_date : string;
  pay_method : string;
  pay_receivedBy : string
}.

Record Installment : Type := mkInstallment {
  inst_id : string;
  installmentNumber : Z;
  inst_amount : float;
  dueDate : string;
  inst_status : Status;
  paidAmount : float;
  paymentDate : option string;
  payments : list Payment
}.

(** Modelled from the spec: the [Order] type of [lib/types] is not among the
    sources; the fields are those of the data model (section 3) that the
    reconciliation code reads or writes, [customerName] and [orderStatus]
    standing for the fields no payment path touches. *)
Record Order : Type := mkOrder {
  order_id : string;
  customerName : string;
  orderStatus : string;
  total : float;
  paymentMethod : string;
  paymentStatus : option Status;
  paymentProvider : option string;
  paymentSessionId : option string;
  installments : Z;
  installmentDetails : list Installment
}.

(** The argument of [updateDoc]: the fields present in the patch object. *)
Record Patch : Type := mkPatch {
  patch_installmentDetails : option (list Installment);
  patch_paymentStatus : option Status;
  patch_paymentProvider : option string;
  patch_paymentSessionId : option string
}.

Definition applyPatch (p : Patch) (o : Order) : Order :=
  {| order_id := order_id o;
     customerName := customerName o;
     orderStatus := orderStatus o;
     total := total o;
     paymentMethod := paymentMethod o;
     paymentStatus := from_option Some (paymentStatus o) (patch_paymentStatus p);
     paymentProvider := from_option Some (paymentProvider o) (patch_paymentProvider p);
     paymentSessionId := from_option Some (paymentSessionId o) (patch_paymentSessionId p);
     installments := installments o;
     installmentDetails := default (installmentDetails o) (patch_installmentDetails p) |}.

(** The [orders] collection, and one [updateDoc(doc(db, 'orders', id), patch)]
    call.  Updating a document that does not exist is rejected by the store
    (the handlers swallow the rejection), so the collection is unchanged. *)
Definition updateDoc (db : gmap string Order) (id : string) (p : Patch) : gmap string Order :=
  match db !! id with
  | Some o => <[id := applyPatch p o]> db
  | None => db
  end.

(** What a handler asks of the store: at most one [updateDoc] call. *)
Definition Write : Type := option (string * Patch).

Definition commit (db : gmap string Order) (w : Write) : gmap string Order :=
  match w with
  | Some (id, p) => updateDoc db id p
  | None => db
  end.

(** ** Schedule builder ([AdminContext.tsx], [recalculateInstallments]) *)

Section Schedule.

(** [addMonths(new Date(firstDueDate), i).toISOString()] of date-fns:
    [None] when the date is invalid (the first due date is no date, or the
    month lies outside the range of [Date]), where [toISOString] throws a
    [RangeError]. *)
Variable addMonthsISO : string -> Z -> option string.

(** The cent value of each loop iteration [i = 0 .. count - 1]: the base
    value, plus one cent while the remainder lasts. *)
Fixpoint installmentCents (base remainder : Z) (count : nat) : list Z :=
  match count with
  | O => []
  | S k =>
      if 0 <? remainder
      then (base + 1) :: installmentCents base (remainder - 1) k
      else base :: installmentCents base remainder k
  end.

(** The same iterations on numbers, as the loop is written:
    [installmentValueCents++] and [remainderInCents--] round like any other
    sum. *)
Fixpoint installmentValues (base remainder : float) (count : nat) : list float :=
  match count with
  | O => []
  | S k =>
      if (0 <? remainder)%float
      then (base + 1)%float :: installmentValues base (remainder - 1)%float k
      else base :: installmentValues base remainder k
  end.

(** The amounts of the loop for a given [totalInCents], in binary64. *)
Definition amountsOfCents (totalInCents : float) (installmentsCount : Z) : list float :=
  let baseInstallmentValueInCents :=
    JS.Math_floor (totalInCents / JS.of_Z installmentsCount)%float in
  let remainderInCents := JS.rem totalInCents (JS.of_Z installmentsCount) in
  map (fun v => (v / 100)%float)
      (installmentValues baseInstallmentValueInCents remainderInCents
                         (Z.to_nat installmentsCount)).

(** The amounts of the schedule.  For a total of 1 to 2^53 - 1 cents every
    value the loop computes is an integer that binary64 holds exactly, and
    [Math.floor] of the rounded quotient is the integer quotient, so the
    loop is run on integers; for any other total (zero of either sign, 2^53
    cents or more, an infinity, [NaN]) it is run in binary64 on the number
    [Math.round] returns. *)
Definition installmentAmounts (total : float) (installmentsCount : Z) : list float :=
  let product := (total * 100)%float in
  match JS.Math_round product with
  | Some totalInCents =>
      if (0 <? totalInCents) && (totalInCents <? 2 ^ 53) then
        let baseInstallmentValueInCents := totalInCents / installmentsCount in
        let remainderInCents := Z.rem totalInCents installmentsCount in
        map (fun c => (JS.of_Z c / 100)%float)
            (installmentCents baseInstallmentValueInCents remainderInCents
                              (Z.to_nat installmentsCount))
      else
        amountsOfCents (if totalInCents =? 0 then (product * 0)%float
                        else JS.of_Z totalInCents)
                       installmentsCount
  | None => amountsOfCents product installmentsCount
  end.

Definition newInstallment (orderId dueDate' : string) (i : Z) (amount : float)
  : Installment :=
  {| inst_id := "inst-" +:+ orderId +:+ "-" +:+ JS.String_of_Z (i + 1);
     installmentNumber := i + 1;
     inst_amount := amount;
     dueDate := dueDate';
     inst_status := Pendente;
     paidAmount := 0%float;
     paymentDate := None;
     payments := [] |}.

(** The [push] of iteration [i] and of those after it: the due date is
    computed in every iteration, and the first invalid one ends the loop
    with the [RangeError]. *)
Fixpoint pushInstallments (orderId firstDueDate : string) (i : Z) (amounts : list float)
  : JS.result (list Installment) :=
  match amounts with
  | [] => JS.Ok []
  | amount :: rest =>
      match addMonthsISO firstDueDate i with
      | None => JS.Throw "RangeError"
      | Some due =>
          match pushInstallments orderId firstDueDate (i + 1) rest with
          | JS.Ok pushed => JS.Ok (newInstallment orderId due i amount :: pushed)
          | JS.Throw err => JS.Throw err
          end
      end
  end.

Definition recalculateInstallments
    (total : float) (installmentsCount : Z) (orderId firstDueDate : string)
  : JS.result (list Installment) :=
  if (installmentsCount <=? 0) || (total <? 0)%float then JS.Ok []
  else pushInstallments orderId firstDueDate 0 (installmentAmounts total installmentsCount).

End Schedule.

(** ** Normalized payment event and the reconciler shared by the two webhooks

    [src/app/api/stripe/webhook/route.ts] and the Mercado Pago webhook carry
    the same reconciliation code; they differ in the provider name, in the
    prefix of the locally generated payment identifier and in the session
    stamp of the order-level branch. *)

Inductive Provider : Type := Stripe | MercadoPago.

Definition providerName (prov : Provider) : string :=
  match prov with Stripe => "Stripe" | MercadoPago => "MercadoPago" end.

Definition localIdPrefix (prov : Provider) : string :=
  match prov with Stripe => "stripe-" | MercadoPago => "mercadopago-" end.

(** The values both handlers compute from the gateway payload before they
    touch the order: [orderId], [paidAmount], [nextPaymentStatus],
    [sessionId] / [paymentIdStr], [paymentDate] and the result of
    [Number.parseInt] on the installment number ([None] for [NaN]). *)
Record PaymentEvent : Type := mkEvent {
  ev_orderId : string;
  ev_amount : float;
  ev_status : Status;
  ev_externalPaymentId : string;
  ev_timestamp : string;
  ev_installmentNumber : option Z
}.

Definition paymentStatusFromStripe (paymentStatus : string) : Status :=
  if String.eqb paymentStatus "paid" then Pago
  else if String.eqb paymentStatus "unpaid" then Pendente
  else Pendente.

Definition paymentStatusFromMercadoPago (status : string) : Status :=
  if String.eqb status "approved" then Pago
  else if String.eqb status "rejected" || String.eqb status "cancelled" then Falhou
  else if String.eqb status "refunded" || String.eqb status "charged_back" then Falhou
  else Pendente.

(** [Number.isFinite(installmentNumber) && installmentNumber > 0] *)
Definition isInstallmentPayment (ev : PaymentEvent) : bool :=
  match ev_installmentNumber ev with
  | Some n => 0 <? n
  | None => false
  end.

(** [sessionId && existingPayments.some((p) => String(p?.id || '') === sessionId)] *)
Definition alreadyRecorded (externalId : string) (inst : Installment) : bool :=
  negb (String.eqb externalId "")
  && existsb (fun p => String.eqb (pay_id p) externalId) (payments inst).

(** The callback of [installmentDetails.map]: the installment it returns, and
    whether it set [didUpdate]. *)
Definition creditInstallment (prov : Provider) (now : Z) (ev : PaymentEvent)
    (installmentNumber' : Z) (inst : Installment) : Installment * bool :=
  if negb (installmentNumber inst =? installmentNumber') then (inst, false)
  else if alreadyRecorded (ev_externalPaymentId ev) inst then (inst, false)
  else
    let currentPaid := JS.or0 (paidAmount inst) in
    let newPaidAmount := (currentPaid + ev_amount ev)%float in
    let isPaid := JS.geb (newPaidAmount + 0.01)%float (JS.or0 (inst_amount inst)) in
    ({| inst_id := inst_id inst;
        installmentNumber := installmentNumber inst;
        inst_amount := inst_amount inst;
        dueDate := dueDate inst;
        inst_status := if isPaid then Pago else Pendente;
        paidAmount := newPaidAmount;
        paymentDate :=
          if isPaid then Some (JS.orOpt (paymentDate inst) (ev_timestamp ev))
          else paymentDate inst;
        payments :=
          payments inst ++
          [ {| pay_id := JS.orS (ev_externalPaymentId ev)
                                (localIdPrefix prov +:+ JS.String_of_Z now);
               pay_amount := ev_amount ev;
               pay_date := ev_timestamp ev;
               pay_method := providerName prov;
               pay_receivedBy := "Sistema" |} ] |},
     true).

(** [nextInstallments.length > 0 && nextInstallments.every((i) => i?.status === 'Pago')] *)
Definition allPaid (nextInstallments : list Installment) : bool :=
  (0 <? Z.of_nat (length nextInstallments))
  && forallb (fun i => Status_eqb (inst_status i) Pago) nextInstallments.

(** The body of [if (shouldUpdate && orderId) { ... }] (Stripe) and of
    [if (orderId) { ... }] (Mercado Pago): the [updateDoc] call it makes, if
    any.  [now] is [Date.now()]. *)
Definition reconcile (prov : Provider) (now : Z) (ev : PaymentEvent)
    (db : gmap string Order) : Write :=
  if String.eqb (ev_orderId ev) "" then None
  else if isInstallmentPayment ev && Status_eqb (ev_status ev) Pago then
    let installmentDetails' :=
      match db !! ev_orderId ev with
      | Some orderData => installmentDetails orderData
      | None => []
      end in
    let mapped :=
      map (creditInstallment prov now ev (default 0 (ev_installmentNumber ev)))
          installmentDetails' in
    let nextInstallments := map fst mapped in
    let didUpdate := existsb snd mapped in
    if didUpdate then
      Some (ev_orderId ev,
            {| patch_installmentDetails := Some nextInstallments;
               patch_paymentStatus := if allPaid nextInstallments then Some Pago else None;
               patch_paymentProvider := None;
               patch_paymentSessionId := None |})
    else None
  else
    Some (ev_orderId ev,
          {| patch_installmentDetails := None;
             patch_paymentStatus := Some (ev_status ev);
             patch_paymentProvider := Some (providerName prov);
             patch_paymentSessionId :=
               match prov with
               | Stripe =>
                   if String.eqb (ev_externalPaymentId ev) "" then None
                   else Some (ev_externalPaymentId ev)
               | MercadoPago => None
               end |}).

(** One delivery of an event: the handler runs and the store applies its write. *)
Definition deliver (prov : Provider) (now : Z) (ev : PaymentEvent)
    (db : gmap string Order) : gmap string Order :=
  commit db (reconcile prov now ev db).

(** ** Manual payments ([AdminContext.tsx]) *)

(** [Omit<Payment, 'receivedBy'>] *)
Record PaymentData : Type := mkPaymentData {
  pd_id : string;
  pd_amount : float;
  pd_date : string;
  pd_method : string
}.

(** The callback of [(order.installmentDetails || []).map] in
    [recordInstallmentPayment]. *)
Definition recordOnInstallment (installmentNumber' : Z) (paymentWithUser : Payment)
    (inst : Installment) : Installment :=
  if installmentNumber inst =? installmentNumber' then
    let currentPaidAmount := JS.or0 (paidAmount inst) in
    let paymentAmount := JS.or0 (pay_amount paymentWithUser) in
    let newPaidAmount := (currentPaidAmount + paymentAmount)%float in
    let isPaid := (abs (newPaidAmount - inst_amount inst) <? 0.01)%float in
    let newStatus := if isPaid then Pago else Pendente in
    {| inst_id := inst_id inst;
       installmentNumber := installmentNumber inst;
       inst_amount := inst_amount inst;
       dueDate := dueDate inst;
       inst_status := newStatus;
       paidAmount := newPaidAmount;
       paymentDate := paymentDate inst;
       payments := payments inst ++ [paymentWithUser] |}
  else inst.

(** [user] is [user?.name]. *)
Definition recordInstallmentPayment (orders : list Order) (orderId : string)
    (installmentNumber' : Z) (paymentData : PaymentData) (user : option string) : Write :=
  match find (fun o => String.eqb (order_id o) orderId) orders with
  | None => None
  | Some order =>
      let paymentWithUser :=
        {| pay_id := pd_id paymentData;
           pay_amount := pd_amount paymentData;
           pay_date := pd_date paymentData;
           pay_method := pd_method paymentData;
           pay_receivedBy := JS.orOpt user "Sistema" |} in
      let updatedInstallments :=
        map (recordOnInstallment installmentNumber' paymentWithUser)
            (installmentDetails order) in
      Some (orderId,
            {| patch_installmentDetails := Some updatedInstallments;
               patch_paymentStatus := None;
               patch_paymentProvider := None;
               patch_paymentSessionId := None |})
  end.

(** The callback of [(order.installmentDetails || []).map] in [reversePayment]. *)
Definition reverseOnInstallment (installmentNumber' : Z) (paymentId : string)
    (inst : Installment) : Installment :=
  if installmentNumber inst =? installmentNumber' then
    match find (fun p => String.eqb (pay_id p) paymentId) (payments inst) with
    | None => inst
    | Some paymentToReverse =>
        let reversedPaymentAmount := pay_amount paymentToReverse in
        let newPayments :=
          filter (fun p => pay_id p <> paymentId) (payments inst) in
        let newPaidAmount := (JS.or0 (paidAmount inst) - reversedPaymentAmount)%float in
        let newStatus := if JS.geb newPaidAmount (inst_amount inst) then Pago else Pendente in
        {| inst_id := inst_id inst;
           installmentNumber := installmentNumber inst;
           inst_amount := inst_amount inst;
           dueDate := dueDate inst;
           inst_status := newStatus;
           paidAmount := newPaidAmount;
           paymentDate := paymentDate inst;
           payments := newPayments |}
    end
  else inst.

Definition reversePayment (orders : list Order) (orderId : string)
    (installmentNumber' : Z) (paymentId : string) : Write :=
  match find (fun o => String.eqb (order_id o) orderId) orders with
  | None => None
  | Some order =>
      let updatedInstallments :=
        map (reverseOnInstallment installmentNumber' paymentId)
            (installmentDetails order) in
      Some (orderId,
            {| patch_installmentDetails := Some updatedInstallments;
               patch_paymentStatus := None;
               patch_paymentProvider := None;
               patch_paymentSessionId := None |})
  end.

(** ** Strings and buffers *)

Module Str.

(** ECMAScript white space among the code units 0..255: TAB, LF, VT, FF,
    CR, SPACE and NBSP. *)
Definition isWhiteSpace (c : ascii) : bool :=
  let n := Z.of_N (N_of_ascii c) in
  ((9 <=? n) && (n <=? 13)) || (n =? 32) || (n =? 160).

Fixpoint trimStart (s : string) : string :=
  match s with
  | String c r => if isWhiteSpace c then trimStart r else s
  | EmptyString => EmptyString
  end.

(** Drops trailing white space: a character is kept when it is not white
    space or when something is kept after it. *)
Fixpoint trimEnd (s : string) : string :=
  match s with
  | String c r =>
      match trimEnd r with
      | EmptyString => if isWhiteSpace c then EmptyString else String c EmptyString
      | r' => String c r'
      end
  | EmptyString => EmptyString
  end.

(** [s.trim()] *)
Definition trim (s : string) : string := trimEnd (trimStart s).

(** [s.split(sep)] for a one-character separator: never empty, [''] gives
    [['']]. *)
Fixpoint split (sep : ascii) (s : string) : list string :=
  match s with
  | EmptyString => [EmptyString]
  | String c r =>
      if Ascii.eqb c sep then EmptyString :: split sep r
      else match split sep r with
           | p :: ps => String c p :: ps
           | [] => [String c EmptyString]
           end
  end.

(** [s.startsWith(p)] *)
Definition startsWith (p s : string) : bool := String.prefix p s.

(** [s.slice(n)] for [0 <= n] *)
Fixpoint slice (n : nat) (s : string) : string :=
  match n, s with
  | O, _ => s
  | S k, String _ r => slice k r
  | S _, EmptyString => EmptyString
  end.

(** [Boolean(s)] *)
Definition nonEmpty (s : string) : bool := negb (String.eqb s "").

(** [Buffer.from(s, 'utf8')]: one byte below 128, two bytes from 128 to 255. *)
Definition utf8Char (c : ascii) : list Byte.byte :=
  let n := N_of_ascii c in
  if (n <? 128)%N then [byte_of_ascii c]
  else [byte_of_ascii (ascii_of_N (N.lor 192 (N.shiftr n 6)));
        byte_of_ascii (ascii_of_N (N.lor 128 (N.land n 63)))].

Fixpoint utf8 (s : string) : list Byte.byte :=
  match s with
  | EmptyString => []
  | String c r => utf8Char c ++ utf8 r
  end.

Fixpoint bytes_eqb (a b : list Byte.byte) : bool :=
  match a, b with
  | [], [] => true
  | x :: a', y :: b' => Byte.eqb x y && bytes_eqb a' b'
  | _, _ => false
  end.

Definition hexDigit (n : Z) : ascii :=
  ascii_of_N (Z.to_N (if n <? 10 then 48 + n else 87 + n)).

(** Two lowercase hexadecimal digits per byte. *)
Fixpoint hex (bs : list Z) : string :=
  match bs with
  | [] => EmptyString
  | b :: r => String (hexDigit (b / 16)) (String (hexDigit (b mod 16)) (hex r))
  end.

End Str.

(** ** SHA-256 and HMAC (FIPS 180-4, RFC 2104), as Node's [crypto] computes them

    Words are integers below 2^32 with the wrap-around written out; a byte
    inside the hash is an integer below 256. *)

Module SHA256.

Definition w32 (x : Z) : Z := Z.land x 4294967295.
Definition add32 (a b : Z) : Z := w32 (a + b).
Definition rotr (n x : Z) : Z := w32 (Z.lor (Z.shiftr x n) (Z.shiftl x (32 - n))).
Definition shr (n x : Z) : Z := Z.shiftr x n.
Definition xor3 (a b c : Z) : Z := Z.lxor a (Z.lxor b c).

Definition Ch (x y z : Z) : Z := Z.lxor (Z.land x y) (Z.land (w32 (Z.lnot x)) z).
Definition Maj (x y z : Z) : Z := xor3 (Z.land x y) (Z.land x z) (Z.land y z).
Definition bigSigma0 (x : Z) : Z := xor3 (rotr 2 x) (rotr 13 x) (rotr 22 x).
Definition bigSigma1 (x : Z) : Z := xor3 (rotr 6 x) (rotr 11 x) (rotr 25 x).
Definition smallSigma0 (x : Z) : Z := xor3 (rotr 7 x) (rotr 18 x) (shr 3 x).
Definition smallSigma1 (x : Z) : Z := xor3 (rotr 17 x) (rotr 19 x) (shr 10 x).

(** The constants are derived as FIPS 180-4 defines them: the first 32
    bits of the fractional parts of the cube roots (round constants) and of
    the square roots (initial hash value) of the first primes. *)
Definition isPrime (p : Z) : bool :=
  (1 <? p) && forallb (fun d => negb (p mod Z.of_nat d =? 0)) (seq 2 (Z.to_nat p - 2)).

Definition primesUpTo (bound : nat) : list Z :=
  List.filter isPrime (map Z.of_nat (seq 2 (bound - 1))).

(** The largest [r + d] with [d] below [2 ^ bits] and [(r + d) ^ k <= n]. *)
Fixpoint iroot (k : Z) (bits : nat) (n r : Z) : Z :=
  match bits with
  | O => r
  | S b =>
      let r' := r + 2 ^ Z.of_nat b in
      iroot k b n (if r' ^ k <=? n then r' else r)
  end.

(** The first 32 bits of the fractional part of the [k]-th root of [p]. *)
Definition fracRoot32 (k p : Z) : Z := w32 (iroot k 40 (p * 2 ^ (32 * k)) 0).

Definition K : list Z := map (fracRoot32 3) (primesUpTo 311).

Record state : Type := mkState { ha : Z; hb : Z; hc : Z; hd : Z; he : Z; hf : Z; hg : Z; hh : Z }.

Definition H0 : state :=
  match map (fracRoot32 2) (primesUpTo 19) with
  | [a; b; c; d; e; f; g; h] => mkState a b c d e f g h
  | _ => mkState 0 0 0 0 0 0 0 0
  end.

(** Big-endian bytes of an integer, [n] of them. *)
Fixpoint bigEndian (n : nat) (x : Z) : list Z :=
  match n with
  | O => []
  | S k => Z.land (Z.shiftr x (8 * Z.of_nat k)) 255 :: bigEndian k x
  end.

(** The message, the byte 0x80, zero bytes up to 56 modulo 64 and the bit
    length on eight bytes. *)
Definition pad (msg : list Z) : list Z :=
  let len := Z.of_nat (length msg) in
  let zeros := Z.to_nat ((55 - len) mod 64) in
  msg ++ [128] ++ replicate zeros 0 ++ bigEndian 8 (8 * len).

Fixpoint wordsOf (n : nat) (bs : list Z) : list Z :=
  match n, bs with
  | S k, b0 :: b1 :: b2 :: b3 :: r =>
      (Z.lor (Z.shiftl b0 24) (Z.lor (Z.shiftl b1 16) (Z.lor (Z.shiftl b2 8) b3)))
        :: wordsOf k r
  | _, _ => []
  end.

(** Extends the sixteen words of a block to the message schedule, one word
    per step. *)
Fixpoint schedule (steps : nat) (w : list Z) : list Z :=
  match steps with
  | O => w
  | S k =>
      let t := length w in
      let at' i := nth (t - i) w 0 in
      schedule k
        (w ++ [add32 (add32 (smallSigma1 (at' 2%nat)) (at' 7%nat))
                     (add32 (smallSigma0 (at' 15%nat)) (at' 16%nat))])
  end.

Definition round (s : state) (kw : Z * Z) : state :=
  let t1 := add32 (add32 (add32 (hh s) (bigSigma1 (he s))) (Ch (he s) (hf s) (hg s)))
                  (add32 (fst kw) (snd kw)) in
  let t2 := add32 (bigSigma0 (ha s)) (Maj (ha s) (hb s) (hc s)) in
  mkState (add32 t1 t2) (ha s) (hb s) (hc s) (add32 (hd s) t1) (he s) (hf s) (hg s).

Definition compress (h : state) (block : list Z) : state :=
  let w := schedule 48 (wordsOf 16 block) in
  let s := fold_left round (combine K w) h in
  mkState (add32 (ha h) (ha s)) (add32 (hb h) (hb s)) (add32 (hc h) (hc s))
          (add32 (hd h) (hd s)) (add32 (he h) (he s)) (add32 (hf h) (hf s))
          (add32 (hg h) (hg s)) (add32 (hh h) (hh s)).

Fixpoint blocks (n : nat) (h : state) (bs : list Z) : state :=
  match n with
  | O => h
  | S k => blocks k (compress h (take 64 bs)) (drop 64 bs)
  end.

(** The 32 bytes of the digest. *)
Definition digest (msg : list Z) : list Z :=
  let p := pad msg in
  let h := blocks (length p / 64)%nat H0 p in
  concat (map (bigEndian 4) [ha h; hb h; hc h; hd h; he h; hf h; hg h; hh h]).

(** HMAC with a 64-byte block: a longer key is hashed first, a shorter one
    is padded with zero bytes. *)
Definition hmac (key msg : list Z) : list Z :=
  let k0 := if (64 <? length key)%nat then digest key else key in
  let k := k0 ++ replicate (64 - length k0)%nat 0 in
  let ipad := map (fun b => Z.lxor b 54) k in
  let opad := map (fun b => Z.lxor b 92) k in
  digest (opad ++ digest (ipad ++ msg)).

End SHA256.

Definition byteZ (b : Byte.byte) : Z := Z.of_N (Byte.to_N b).

(** [createHmac('sha256', key).update(data, 'utf8').digest('hex')] *)
Definition createHmacSha256Hex (key data : string) : string :=
  Str.hex (SHA256.hmac (map byteZ (Str.utf8 key)) (map byteZ (Str.utf8 data))).

(** ** Signature verifier ([src/app/api/stripe/webhook/route.ts]) *)

(** [Array.prototype.some] with a callback that may throw: the elements are
    tried in order up to the first [true]; an exception ends the call. *)
Fixpoint some {A : Type} (f : A -> JS.result bool) (l : list A) : JS.result bool :=
  match l with
  | [] => JS.Ok false
  | x :: r =>
      match f x with
      | JS.Ok true => JS.Ok true
      | JS.Ok false => some f r
      | JS.Throw e => JS.Throw e
      end
  end.

(** [crypto.timingSafeEqual]: a [RangeError] on buffers of different byte
    lengths. *)
Definition timingSafeEqual (a b : list Byte.byte) : JS.result bool :=
  if (length a =? length b)%nat then JS.Ok (Str.bytes_eqb a b)
  else JS.Throw "ERR_CRYPTO_TIMING_SAFE_EQUAL_LENGTH".

Definition safeEqualsHex (a b : string) : JS.result bool :=
  let aBuf := Str.utf8 a in
  let bBuf := Str.utf8 b in
  if negb (length aBuf =? length bBuf)%nat then JS.Ok false
  else timingSafeEqual aBuf bBuf.

(** [signatureHeader.split(',').map((p) => p.trim()).filter(Boolean)] *)
Definition headerParts (signatureHeader : string) : list string :=
  List.filter Str.nonEmpty (map Str.trim (Str.split "," signatureHeader)).

(** [parts.find((p) => p.startsWith('t='))?.slice(2) || ''] *)
Definition headerTimestamp (signatureHeader : string) : string :=
  match find (Str.startsWith "t=") (headerParts signatureHeader) with
  | Some p => JS.orS (Str.slice 2 p) ""
  | None => ""
  end.

(** [parts.filter((p) => p.startsWith('v1=')).map((p) => p.slice(3))] *)
Definition headerSignatures (signatureHeader : string) : list string :=
  map (Str.slice 3) (List.filter (Str.startsWith "v1=") (headerParts signatureHeader)).

Definition verifyStripeSignature (payload signatureHeader webhookSecret : string)
  : JS.result bool :=
  let timestamp := headerTimestamp signatureHeader in
  let signatures := headerSignatures signatureHeader in
  if String.eqb timestamp "" || (length signatures =? 0)%nat then JS.Ok false
  else
    let signedPayload := timestamp +:+ "." +:+ payload in
    let expected := createHmacSha256Hex webhookSecret signedPayload in
    some (fun sig => safeEqualsHex sig expected) signatures.

(** ** The HTTP handlers *)

(** A value that a gateway sends where a handler expects an amount.  The
    handlers read it as [Number(v || 0)] without testing its type. *)
Inductive AmountValue : Type :=
| AmountMissing
    (** [undefined], [null], [false] or [''] *)
| AmountNumber (x : float)
    (** a number *)
| AmountOther (numberOf : float)
    (** another value, which is truthy, with what [Number] makes of it:
        [12.5] for ['12.5'], [NaN] for ['abc'] or an object *).

(** [Number(v || 0)] *)
Definition numberOrZero (v : AmountValue) : float :=
  match v with
  | AmountMissing => 0%float
  | AmountNumber x => JS.or0 x
  | AmountOther numberOf => numberOf
  end.

(** The fields of the gateway's [payment] object that the Mercado Pago
    handlers read.  [mp_external_reference], [mp_date_approved] and
    [mp_date_created] are [Some] when the field is a string, as the code
    tests; [mp_message], [mp_error], [mp_status] and [mp_id] are [Some] when
    the field is truthy and hold [String] of it ([payment.id] 0 gives
    [None]); [mp_installmentNumber] is the result of [Number.parseInt] on
    [metadata.installmentNumber] ([None] for [NaN]). *)
Record MPPayment : Type := mkMPPayment {
  mp_message : option string;
  mp_error : option string;
  mp_external_reference : option string;
  mp_status : option string;
  mp_installmentNumber : option Z;
  mp_transaction_amount : AmountValue;
  mp_date_approved : option string;
  mp_date_created : option string;
  mp_id : option string
}.

(** The gateway's answer to [fetch]: the HTTP status and the parsed body
    ([None] when [mpRes.json()] fails). *)
Record GatewayResponse : Type := mkGatewayResponse {
  gw_status : Z;
  gw_json : option MPPayment
}.

(** [mpRes.ok] *)
Definition gw_ok (r : GatewayResponse) : bool :=
  (200 <=? gw_status r) && (gw_status r <=? 299).

Inductive Body : Type :=
| Received
| Error (message : string)
| PaymentInfo (data : MPPayment).

Record Response : Type := mkResponse {
  res_status : Z;
  res_body : Body
}.

Definition a_tilde : string := String (ascii_of_N 227) EmptyString.
Definition a_acute : string := String (ascii_of_N 225) EmptyString.
Definition e_acute : string := String (ascii_of_N 233) EmptyString.

Definition msgStripeSecretMissing : string :=
  "STRIPE_WEBHOOK_SECRET n" +:+ a_tilde +:+ "o configurada.".
Definition msgInvalidSignature : string :=
  "Assinatura inv" +:+ a_acute +:+ "lida.".
Definition msgAccessTokenMissing : string :=
  "MERCADOPAGO_ACCESS_TOKEN n" +:+ a_tilde +:+ "o configurada.".
Definition msgPaymentIdMissing : string := "payment_id ausente.".
Definition msgPaymentIdRequired : string :=
  "payment_id " +:+ e_acute +:+ " obrigat" +:+ String (ascii_of_N 243) "rio.".
Definition msgLookupFailed : string := "Erro ao consultar pagamento no Mercado Pago.".

(** [eventType === 'checkout.session.completed' || ...] *)
Definition shouldUpdate (eventType : string) : bool :=
  String.eqb eventType "checkout.session.completed"
  || String.eqb eventType "checkout.session.async_payment_succeeded"
  || String.eqb eventType "checkout.session.async_payment_failed".

(** The fields of [event.data.object] that the Stripe handler reads.
    [cs_id], [cs_metadata_orderId] and [cs_client_reference_id] are [Some]
    when the field is a string, as the code tests; [cs_payment_status] is
    [Some] when the field is truthy and holds [String] of it;
    [cs_installmentNumber] is the result of [Number.parseInt] on
    [metadata.installmentNumber] ([None] for [NaN]); [cs_created] is [Some]
    when [created] is a finite number. *)
Record StripeSession : Type := mkStripeSession {
  cs_id : option string;
  cs_metadata_orderId : option string;
  cs_client_reference_id : option string;
  cs_payment_status : option string;
  cs_installmentNumber : option Z;
  cs_amount_total : AmountValue;
  cs_created : option float
}.

(** Lines 78 to 111 of the Stripe webhook: the normalized event of a
    session.  [paymentDate] is the payment date of lines 112 to 115. *)
Definition stripeEvent (eventType : string) (session : option StripeSession)
    (paymentDate : string) : PaymentEvent :=
  {| ev_orderId :=
       JS.orS (JS.orOpt (session ≫= cs_metadata_orderId) "")
              (JS.orOpt (session ≫= cs_client_reference_id) "");
     ev_amount :=
       JS.max0 ((match session with
                 | Some object => numberOrZero (cs_amount_total object)
                 | None => 0
                 end) / 100)%float;
     ev_status :=
       if String.eqb eventType "checkout.session.async_payment_failed" then Falhou
       else paymentStatusFromStripe (JS.orOpt (session ≫= cs_payment_status) "");
     ev_externalPaymentId := JS.orOpt (session ≫= cs_id) "";
     ev_timestamp := paymentDate;
     ev_installmentNumber := session ≫= cs_installmentNumber |}.

Section StripeWebhook.

(** [JSON.parse(rawBody)] as far as the handler reads it: [None] when the
    body is no JSON text, where [JSON.parse] throws a [SyntaxError];
    otherwise [String(event?.type || '')] and [event?.data?.object] ([None]
    when there is none). *)
Variable JSON_parse : string -> option (string * option StripeSession).

(** [new Date(ms).toISOString()]: [None] when [ms] lies outside the range of
    [Date], where [toISOString] throws a [RangeError]. *)
Variable dateISO : float -> option string.

(** Lines 112 to 115: the payment date of the installment branch.  [nowISO]
    is [new Date().toISOString()]. *)
Definition stripePaymentDate (session : option StripeSession) (nowISO : string)
  : option string :=
  match session ≫= cs_created with
  | Some created => dateISO (created * 1000)%float
  | None => Some nowISO
  end.

(** [POST] of the Stripe webhook.  [signature] is the [stripe-signature]
    header.  The payment date is computed in the installment branch only,
    after the order was read and before anything is written; the order-level
    branch does not use a date. *)
Definition stripePOST (webhookSecret : option string) (rawBody : string)
    (signature : option string) (nowISO : string) (now : Z) (db : gmap string Order)
  : JS.result (Response * Write) :=
  match webhookSecret with
  | None | Some EmptyString =>
      JS.Ok (mkResponse 500 (Error msgStripeSecretMissing), None)
  | Some secret =>
      match verifyStripeSignature rawBody (JS.orOpt signature "") secret with
      | JS.Throw e => JS.Throw e
      | JS.Ok false => JS.Ok (mkResponse 400 (Error msgInvalidSignature), None)
      | JS.Ok true =>
          match JSON_parse rawBody with
          | None => JS.Throw "SyntaxError"
          | Some (eventType, session) =>
              let event := stripeEvent eventType session nowISO in
              if negb (shouldUpdate eventType) then JS.Ok (mkResponse 200 Received, None)
              else if negb (String.eqb (ev_orderId event) "")
                      && isInstallmentPayment event && Status_eqb (ev_status event) Pago
              then
                match stripePaymentDate session nowISO with
                | None => JS.Throw "RangeError"
                | Some paymentDate =>
                    JS.Ok (mkResponse 200 Received,
                           reconcile Stripe now (stripeEvent eventType session paymentDate) db)
                end
              else JS.Ok (mkResponse 200 Received, reconcile Stripe now event db)
          end
      end
  end.

End StripeWebhook.

(** Lines 75 to 105 of the Mercado Pago webhook: the normalized event of a
    [payment] object.  [nowISO] is [new Date().toISOString()]. *)
Definition mercadopagoEvent (payment : option MPPayment) (nowISO : string) : PaymentEvent :=
  {| ev_orderId := JS.orOpt (payment ≫= mp_external_reference) "";
     ev_amount :=
       JS.max0 (match payment with
                | Some object => numberOrZero (mp_transaction_amount object)
                | None => 0%float
                end);
     ev_status := paymentStatusFromMercadoPago (JS.orOpt (payment ≫= mp_status) "");
     ev_externalPaymentId := Str.trim (JS.orOpt (payment ≫= mp_id) "");
     ev_timestamp :=
       match payment ≫= mp_date_approved with
       | Some d => d
       | None => match payment ≫= mp_date_created with
                 | Some d => d
                 | None => nowISO
                 end
       end;
     ev_installmentNumber := payment ≫= mp_installmentNumber |}.

(** [POST] of the Mercado Pago webhook.  [paymentId] is the identifier read
    from the body or the query string, [mpRes] the gateway's answer to the
    payment lookup. *)
Definition mercadopagoPOST (accessToken : option string) (paymentId : string)
    (mpRes : GatewayResponse) (now : Z) (nowISO : string) (db : gmap string Order)
  : Response * Write :=
  if String.eqb (JS.orOpt accessToken "") "" then
    (mkResponse 500 (Error msgAccessTokenMissing), None)
  else if String.eqb paymentId "" then
    (mkResponse 400 (Error msgPaymentIdMissing), None)
  else
    let payment := gw_json mpRes in
    if negb (gw_ok mpRes) then
      (mkResponse 500 (Error (JS.orOpt (payment ≫= mp_message) msgLookupFailed)), None)
    else
      (mkResponse 200 Received,
       reconcile MercadoPago now (mercadopagoEvent payment nowISO) db).

(** [GET] of the retrieve-payment endpoint.  [payment_id] is
    [searchParams.get('payment_id')]. *)
Definition retrievePaymentGET (accessToken : option string) (payment_id : option string)
    (mpRes : GatewayResponse) : JS.result Response :=
  if String.eqb (JS.orOpt accessToken "") "" then
    JS.Ok (mkResponse 500 (Error msgAccessTokenMissing))
  else if String.eqb (Str.trim (JS.orOpt payment_id "")) "" then
    JS.Ok (mkResponse 400 (Error msgPaymentIdRequired))
  else
    let data := gw_json mpRes in
    if negb (gw_ok mpRes) then
      JS.Ok (mkResponse (gw_status mpRes)
               (Error (JS.orS (JS.orOpt (data ≫= mp_message) (JS.orOpt (data ≫= mp_error) ""))
                              msgLookupFailed)))
    else
      match data with
      | Some d => JS.Ok (mkResponse 200 (PaymentInfo d))
      | None => JS.Throw "TypeError"
      end.

(** ** Further admin operations ([AdminContext.tsx]) *)

(** The callback of [map] in [updateInstallmentDueDate];
    [newDueDate] is [newDueDate.toISOString()]. *)
Definition dueDateOnInstallment (installmentNumber' : Z) (newDueDate : string)
    (inst : Installment) : Installment :=
  if installmentNumber inst =? installmentNumber' then
    {| inst_id := inst_id inst;
       installmentNumber := installmentNumber inst;
       inst_amount := inst_amount inst;
       dueDate := newDueDate;
       inst_status := inst_status inst;
       paidAmount := paidAmount inst;
       paymentDate := paymentDate inst;
       payments := payments inst |}
  else inst.

Definition updateInstallmentDueDate (orders : list Order) (orderId : string)
    (installmentNumber' : Z) (newDueDate : string) : Write :=
  match find (fun o => String.eqb (order_id o) orderId) orders with
  | None => None
  | Some order =>
      let updatedInstallments :=
        map (dueDateOnInstallment installmentNumber' newDueDate) (installmentDetails order) in
      Some (orderId,
            {| patch_installmentDetails := Some updatedInstallments;
               patch_paymentStatus := None;
               patch_paymentProvider := None;
               patch_paymentSessionId := None |})
  end.

(** An item of [order.items]; the item type of [lib/types] is not among the
    sources, the fields are those the totals and the commission read. *)
Record OrderItem : Type := mkOrderItem {
  item_id : string;
  item_price : float;
  item_quantity : float
}.

(** Modelled from the spec: the fields of [Order] that
    [updateInstallmentAmount] and [updateOrderDetails] read beside the
    schedule; an optional field is [None] when it is [undefined]. *)
Record FinancedOrder : Type := mkFinancedOrder {
  fo_id : string;
  fo_date : string;
  fo_items : list OrderItem;
  fo_discount : option float;
  fo_downPayment : option float;
  fo_installments : Z;
  fo_installmentDetails : option (list Installment)
}.

(** [items.reduce((acc, item) => acc + item.price * item.quantity, 0)] *)
Definition subtotalOf (items : list OrderItem) : float :=
  fold_left (fun acc item => (acc + item_price item * item_quantity item)%float) items 0%float.

(** [o || 0] on a possibly missing number. *)
Definition optOr0 (o : option float) : float :=
  match o with Some x => JS.or0 x | None => 0%float end.

(** The callback of [map] in [updateInstallmentAmount]. *)
Definition amountOnInstallment (installmentNumber' : Z) (newAmount : float)
    (inst : Installment) : Installment :=
  if installmentNumber inst =? installmentNumber' then
    {| inst_id := inst_id inst;
       installmentNumber := installmentNumber inst;
       inst_amount := newAmount;
       dueDate := dueDate inst;
       inst_status := inst_status inst;
       paidAmount := paidAmount inst;
       paymentDate := paymentDate inst;
       payments := payments inst |}
  else inst.

(** [dataToUpdate] of [updateInstallmentAmount]. *)
Record AmountUpdate : Type := mkAmountUpdate {
  au_installmentDetails : list Installment;
  au_total : float;
  au_discount : float
}.

Definition updateInstallmentAmount (orders : list FinancedOrder) (orderId : string)
    (installmentNumber' : Z) (newAmount : float) : option (string * AmountUpdate) :=
  match find (fun o => String.eqb (fo_id o) orderId) orders with
  | None => None
  | Some order =>
      match fo_installmentDetails order with
      | None => None
      | Some details =>
          let updatedInstallments := map (amountOnInstallment installmentNumber' newAmount) details in
          let newTotalFinanced :=
            fold_left (fun sum inst => (sum + inst_amount inst)%float) updatedInstallments 0%float in
          let subtotal := subtotalOf (fo_items order) in
          let newDiscount :=
            (subtotal - (newTotalFinanced + optOr0 (fo_downPayment order)))%float in
          Some (orderId,
                {| au_installmentDetails := updatedInstallments;
                   au_total := newTotalFinanced;
                   au_discount := newDiscount |})
      end
  end.

(** The fields of [details] that the schedule block of [updateOrderDetails]
    reads. *)
Record OrderDetailsChange : Type := mkOrderDetailsChange {
  ch_items : option (list OrderItem);
  ch_installments : option Z;
  ch_discount : option float;
  ch_downPayment : option float;
  ch_resetDownPayment : bool
}.

(** The fields the schedule block adds to [detailsToUpdate]. *)
Record ScheduleUpdate : Type := mkScheduleUpdate {
  su_total : float;
  su_discount : float;
  su_installments : Z;
  su_installmentValue : float;
  su_installmentDetails : list Installment;
  su_downPayment : float
}.

Section OrderDetails.

Variable addMonthsISO : string -> Z -> option string.

(** The schedule block of [updateOrderDetails]: from [itemsToUse] to the
    assignment of [detailsToUpdate]; [None] when the block is skipped.  A
    [RangeError] of [recalculateInstallments] leaves the function before
    anything is written. *)
Definition updateOrderDetailsSchedule (order : FinancedOrder) (details : OrderDetailsChange)
  : JS.result (option ScheduleUpdate) :=
  let itemsToUse := default (fo_items order) (ch_items details) in
  let subtotal := subtotalOf itemsToUse in
  let hasInstallmentsChanged :=
    match ch_installments details with
    | Some k => negb (k =? 0) && negb (k =? fo_installments order)
    | None => false
    end in
  let hasDiscountChanged :=
    match ch_discount details, fo_discount order with
    | Some d, Some d' => negb (d =? d')%float
    | Some _, None => true
    | None, _ => false
    end in
  let hasDownPayment :=
    match ch_downPayment details with
    | Some d => (0 <? d)%float
    | None => false
    end in
  let currentDownPayment :=
    if ch_resetDownPayment details then 0%float
    else if hasDownPayment
         then (optOr0 (fo_downPayment order) + default 0%float (ch_downPayment details))%float
         else optOr0 (fo_downPayment order) in
  if hasInstallmentsChanged || hasDiscountChanged || hasDownPayment
     || ch_resetDownPayment details
  then
    let currentDiscount :=
      if hasDiscountChanged then default 0%float (ch_discount details)
      else optOr0 (fo_discount order) in
    let totalAfterDiscountAndEntry := (subtotal - currentDiscount - currentDownPayment)%float in
    let currentInstallments :=
      if hasInstallmentsChanged then default 0 (ch_installments details)
      else fo_installments order in
    match recalculateInstallments addMonthsISO totalAfterDiscountAndEntry currentInstallments
            (fo_id order) (fo_date order) with
    | JS.Throw err => JS.Throw err
    | JS.Ok newInstallmentDetails =>
        JS.Ok (Some {| su_total := totalAfterDiscountAndEntry;
                       su_discount := currentDiscount;
                       su_installments := currentInstallments;
                       su_installmentValue :=
                         match newInstallmentDetails with
                         | first :: _ => JS.or0 (inst_amount first)
                         | [] => 0%float
                         end;
                       su_installmentDetails := newInstallmentDetails;
                       su_downPayment := currentDownPayment |})
    end
  else JS.Ok None.

End OrderDetails.

(** A value of a customer record. *)
Inductive JSValue : Type :=
| VUndefined
| VNull
| VString (s : string)
| VNumber (x : float)
| VBool (b : bool).

Definition isUndefined (v : JSValue) : bool :=
  match v with VUndefined => true | _ => false end.

(** [sanitizeCustomerForFirestore]: the entries whose value is not
    [undefined], without [password] when it is the empty string. *)
Definition sanitizeCustomerForFirestore (customer : gmap string JSValue)
  : gmap string JSValue :=
  let obj := filter (fun kv => isUndefined kv.2 = false) customer in
  match obj !! "password" with
  | None | Some (VString EmptyString) => delete "password" obj
  | Some _ => obj
  end.

(** ** Poll on the order confirmation page ([order-confirmation/[id]/page.tsx]) *)

(** The status the page derives from a Mercado Pago payment. *)
Definition pollStatusFromMercadoPago (status : string) : Status :=
  if String.eqb status "approved" then Pago
  else if String.eqb status "rejected" || String.eqb status "cancelled" then Falhou
  else Pendente.

(** The status the page derives from a Stripe session. *)
Definition pollStatusFromStripe (payment_status : string) : Status :=
  if String.eqb payment_status "paid" then Pago else Pendente.

(** The fields of the retrieve-session answer that the page reads. *)
Record RetrievedSession : Type := mkRetrievedSession {
  rs_metadata_orderId : option string;
  rs_client_reference_id : option string;
  rs_payment_status : option string;
  rs_id : option string
}.

(** The fields of the retrieve-payment answer that the page reads. *)
Record RetrievedPayment : Type := mkRetrievedPayment {
  rp_external_reference : option string;
  rp_status : option string
}.

(** The answer of one of the two retrieve endpoints: [res.ok] and the parsed
    body ([None] when [res.json()] fails). *)
Record ApiResult (A : Type) : Type := mkApiResult {
  api_ok : bool;
  api_data : option A
}.
Arguments api_ok {A} _.
Arguments api_data {A} _.

Inductive CheckState : Type := CheckIdle | CheckChecking | CheckDone | CheckError.

(** What [await updateDoc(orderRef, patch)] does inside the [try] of [run]:
    the store takes the patch when it holds the order's document and its
    rules allow the write ([allowed]), and the check goes on to the done
    state; otherwise the promise is rejected, nothing is written, and the
    [catch] ends the check in the error state. *)
Definition pollWrite (db : gmap string Order) (allowed : bool) (id : string) (patch : Patch)
  : CheckState * Write :=
  if allowed && bool_decide (is_Some (db !! id))
  then (CheckDone, Some (id, patch))
  else (CheckError, None).

(** The payment check of the page: [None] when the effect returns before
    [run], otherwise the state [run] ends in and the write the store took.
    [provider] is the trimmed and lower-cased query parameter,
    [stripeSessionId] and [mpPaymentId] are the trimmed ones; [db] is the
    [orders] collection. *)
Definition pollPayment (provider stripeSessionId mpPaymentId : string) (order : Order)
    (paymentCheckState : CheckState)
    (stripeRes : ApiResult RetrievedSession) (mpRes : ApiResult RetrievedPayment)
    (db : gmap string Order) (allowed : bool)
  : option (CheckState * Write) :=
  if String.eqb (order_id order) "" then None
  else if String.eqb provider "" then None
  else if match paymentStatus order with Some Pago => true | _ => false end then None
  else if match paymentCheckState with CheckChecking => true | _ => false end then None
  else if String.eqb provider "stripe" && negb (String.eqb stripeSessionId "") then
    if negb (api_ok stripeRes) then Some (CheckError, None)
    else
      let data := api_data stripeRes in
      let orderId :=
        JS.orS (JS.orOpt (data ≫= rs_metadata_orderId) "")
               (JS.orOpt (data ≫= rs_client_reference_id) "") in
      if negb (String.eqb orderId "") && negb (String.eqb orderId (order_id order))
      then Some (CheckError, None)
      else
        Some (pollWrite db allowed (order_id order)
                {| patch_installmentDetails := None;
                   patch_paymentStatus :=
                     Some (pollStatusFromStripe (JS.orOpt (data ≫= rs_payment_status) ""));
                   patch_paymentProvider := Some "Stripe";
                   patch_paymentSessionId :=
                     Some (JS.orOpt (data ≫= rs_id) stripeSessionId) |})
  else if String.eqb provider "mercadopago" && negb (String.eqb mpPaymentId "") then
    if negb (api_ok mpRes) then Some (CheckError, None)
    else
      let data := api_data mpRes in
      let orderId := JS.orOpt (data ≫= rp_external_reference) "" in
      if negb (String.eqb orderId "") && negb (String.eqb orderId (order_id order))
      then Some (CheckError, None)
      else
        Some (pollWrite db allowed (order_id order)
                {| patch_installmentDetails := None;
                   patch_paymentStatus :=
                     Some (pollStatusFromMercadoPago (JS.orOpt (data ≫= rp_status) ""));
                   patch_paymentProvider := Some "MercadoPago";
                   patch_paymentSessionId := None |})
  else Some (CheckDone, None).

(** ** Retrieve-session endpoint and the answers the page reads *)

(** The fields of the Stripe API answer that [GET] of the retrieve-session
    endpoint and, behind it, the page read; a field is [Some] when it is
    present and a string. *)
Record StripeAnswer : Type := mkStripeAnswer {
  sa_error_message : option string;
  sa_id : option string;
  sa_payment_status : option string;
  sa_client_reference_id : option string;
  sa_metadata_orderId : option string
}.

(** Stripe's answer to [fetch]. *)
Record StripeGatewayResponse : Type := mkStripeGatewayResponse {
  sgw_status : Z;
  sgw_json : option StripeAnswer
}.

(** [stripeRes.ok] *)
Definition sgw_ok (r : StripeGatewayResponse) : bool :=
  (200 <=? sgw_status r) && (sgw_status r <=? 299).

Inductive SessionBody : Type :=
| SessionError (message : string)
| SessionInfo (data : StripeAnswer).

Record SessionResponse : Type := mkSessionResponse {
  sres_status : Z;
  sres_body : SessionBody
}.

Definition msgStripeKeyMissing : string :=
  "STRIPE_SECRET_KEY n" +:+ a_tilde +:+ "o configurada.".
Definition msgSessionIdRequired : string :=
  "session_id " +:+ e_acute +:+ " obrigat" +:+ String (ascii_of_N 243) "rio.".
Definition msgSessionLookupFailed : string :=
  "Erro ao consultar sess" +:+ a_tilde +:+ "o no Stripe.".

(** [GET] of the retrieve-session endpoint.  [session_id] is
    [searchParams.get('session_id')]. *)
Definition retrieveSessionGET (secretKey : option string) (session_id : option string)
    (stripeRes : StripeGatewayResponse) : JS.result SessionResponse :=
  if String.eqb (JS.orOpt secretKey "") "" then
    JS.Ok (mkSessionResponse 500 (SessionError msgStripeKeyMissing))
  else if String.eqb (Str.trim (JS.orOpt session_id "")) "" then
    JS.Ok (mkSessionResponse 400 (SessionError msgSessionIdRequired))
  else
    let data := sgw_json stripeRes in
    if negb (sgw_ok stripeRes) then
      JS.Ok (mkSessionResponse (sgw_status stripeRes)
               (SessionError (JS.orOpt (data ≫= sa_error_message) msgSessionLookupFailed)))
    else
      match data with
      | Some d => JS.Ok (mkSessionResponse 200 (SessionInfo d))
      | None => JS.Throw "TypeError"
      end.

(** [res.ok] of a response with the given status. *)
Definition statusOk (status : Z) : bool := (200 <=? status) && (status <=? 299).

(** What [fetch] and [res.json()] give the page for an answer of the
    retrieve-session endpoint; a handler that throws is answered by the
    framework with a status 500 that has no JSON body. *)
Definition sessionResult (r : JS.result SessionResponse) : ApiResult RetrievedSession :=
  match r with
  | JS.Ok res =>
      {| api_ok := statusOk (sres_status res);
         api_data :=
           Some match sres_body res with
                | SessionInfo d =>
                    {| rs_metadata_orderId := sa_metadata_orderId d;
                       rs_client_reference_id := sa_client_reference_id d;
                       rs_payment_status := sa_payment_status d;
                       rs_id := sa_id d |}
                | SessionError _ =>
                    {| rs_metadata_orderId := None; rs_client_reference_id := None;
                       rs_payment_status := None; rs_id := None |}
                end |}
  | JS.Throw _ => {| api_ok := false; api_data := None |}
  end.

(** The same for an answer of the retrieve-payment endpoint. *)
Definition paymentResult (r : JS.result Response) : ApiResult RetrievedPayment :=
  match r with
  | JS.Ok res =>
      {| api_ok := statusOk (res_status res);
         api_data :=
           Some match res_body res with
                | PaymentInfo d =>
                    {| rp_external_reference := mp_external_reference d;
                       rp_status := mp_status d |}
                | _ => {| rp_external_reference := None; rp_status := None |}
                end |}
  | JS.Throw _ => {| api_ok := false; api_data := None |}
  end.

(** The page's check with the two endpoints behind it: the answers the page
    reads are those the endpoints build from the gateways' answers. *)
Definition pollThroughEndpoints (provider stripeSessionId mpPaymentId : string)
    (order : Order) (paymentCheckState : CheckState)
    (secretKey accessToken : option string)
    (stripeRes : StripeGatewayResponse) (mpRes : GatewayResponse)
    (db : gmap string Order) (allowed : bool)
  : option (CheckState * Write) :=
  pollPayment provider stripeSessionId mpPaymentId order paymentCheckState
    (sessionResult (retrieveSessionGET secretKey (Some stripeSessionId) stripeRes))
    (paymentResult (retrievePaymentGET accessToken (Some mpPaymentId) mpRes))
    db allowed.

(** ** Checkout metadata and its way back through the webhooks *)

(** The value of a decimal digit. *)
Definition digitValue (c : ascii) : option Z :=
  let n := Z.of_N (N_of_ascii c) in
  if (48 <=? n) && (n <=? 57) then Some (n - 48) else None.

(** The longest prefix of decimal digits, read from the left onto [acc];
    [None] when no digit was seen. *)
Fixpoint parseDigits (s : string) (acc : Z) (seen : bool) : option Z :=
  match s with
  | String c r =>
      match digitValue c with
      | Some d => parseDigits r (10 * acc + d) true
      | None => if seen then Some acc else None
      end
  | EmptyString => if seen then Some acc else None
  end.

(** The number a decimal numeral of value [v] reads as: [v] itself up to
    2^53 in magnitude, the value of the nearest number beyond; [None] when
    that is an infinity. *)
Definition integerNumber (v : Z) : option Z :=
  if Z.abs v <=? 2 ^ 53 then Some v else JS.to_Z (JS.of_Z v).

(** [Number.parseInt(s, 10)]: leading white space is skipped, a sign is
    read, then the longest prefix of digits.  [None] stands for [NaN] and
    for an infinity, which [Number.isFinite] refuses alike. *)
Definition parseInt10 (s : string) : option Z :=
  match Str.trimStart s with
  | String "-" r => parseDigits r 0 false ≫= fun v => integerNumber (- v)
  | String "+" r => parseDigits r 0 false ≫= integerNumber
  | t => parseDigits t 0 false ≫= integerNumber
  end.

(** The parameters of the Stripe session that depend on the order:
    [client_reference_id], [metadata[orderId]] and
    [metadata[installmentNumber]], which is set for a finite number only. *)
Record CheckoutParams : Type := mkCheckoutParams {
  cp_client_reference_id : string;
  cp_metadata_orderId : string;
  cp_metadata_installmentNumber : option string
}.

(** Lines 26 to 33 of [POST] of create-checkout-session, for an
    [installmentNumber] that is an integer of magnitude up to 2^53, or is
    missing. *)
Definition checkoutParams (orderId : string) (installmentNumber : option Z) : CheckoutParams :=
  {| cp_client_reference_id := orderId;
     cp_metadata_orderId := orderId;
     cp_metadata_installmentNumber := JS.String_of_Z <$> installmentNumber |}.

(** Lines 101 and 102 of the Stripe webhook: the installment number of a
    session whose metadata entry is [raw]. *)
Definition stripeInstallmentNumber (raw : option string) : option Z :=
  parseInt10 (default "" raw).

(** The session of [event.data.object] for a checkout created with the given
    parameters: Stripe returns the reference and the metadata it was given. *)
Definition sessionOfCheckout (p : CheckoutParams) (id payment_status : option string)
    (amount_total : AmountValue) (created : option float) : StripeSession :=
  {| cs_id := id;
     cs_metadata_orderId := Some (cp_metadata_orderId p);
     cs_client_reference_id := Some (cp_client_reference_id p);
     cs_payment_status := payment_status;
     cs_installmentNumber := stripeInstallmentNumber (cp_metadata_installmentNumber p);
     cs_amount_total := amount_total;
     cs_created := created |}.

(** Lines 82 to 88 of the Mercado Pago webhook for a payment whose
    [metadata.installmentNumber] is the number the preference was created
    with, an integer of magnitude up to 2^53, or is missing. *)
Definition mercadopagoInstallmentNumber (metadata : option Z) : option Z :=
  parseInt10 (Str.trim (JS.orOpt (JS.String_of_Z <$> metadata) "")).

(** ** Commission ([AdminContext.tsx], [calculateCommission]) *)

(** A catalog product; the [Product] type of [lib/types] is not among the
    sources, the fields are those [calculateCommission] reads.
    [prod_commissionValue] is [Some] when
    [typeof product.commissionValue === 'number']. *)
Record Product : Type := mkProduct {
  prod_id : string;
  prod_commissionType : option string;
  prod_commissionValue : option float
}.

(** The fields of an order that the commission reads; [so_commission] is
    [Some] when [typeof order.commission === 'number']. *)
Record SoldOrder : Type := mkSoldOrder {
  so_isCommissionManual : bool;
  so_commission : option float;
  so_sellerId : option string;
  so_items : list OrderItem
}.

Definition fallbackPercentage : float := 5%float.

(** The callback of [order.items.reduce] in [calculateCommission]. *)
Definition commissionStep (allProducts : list Product) (totalCommission : float)
    (item : OrderItem) : float :=
  let product := find (fun p => String.eqb (prod_id p) (item_id item)) allProducts in
  let explicitValue :=
    match product ≫= prod_commissionValue with
    | Some v => if JS.isNaN v then None else Some v
    | None => None
    end in
  let commissionType :=
    match explicitValue with
    | Some _ => JS.orOpt (product ≫= prod_commissionType) "percentage"
    | None => "percentage"
    end in
  let commissionValue := default fallbackPercentage explicitValue in
  if String.eqb commissionType "fixed" then
    (totalCommission + commissionValue * item_quantity item)%float
  else if String.eqb commissionType "percentage" then
    let itemTotal := (item_price item * item_quantity item)%float in
    (totalCommission + itemTotal * (commissionValue / 100))%float
  else totalCommission.

Definition calculateCommission (order : SoldOrder) (allProducts : list Product) : float :=
  match so_isCommissionManual order, so_commission order with
  | true, Some commission => commission
  | _, _ =>
      if String.eqb (JS.orOpt (so_sellerId order) "") "" then 0%float
      else fold_left (commissionStep allProducts) (so_items order) 0%float
  end.

(** ** Auxiliary definitions and sample data for the statements below *)

Definition sumZ (l : list Z) : Z := foldr Z.add 0 l.


(** Sample data: order [o1] with a single installment of 50.00. *)
Definition sampleInstallment : Installment :=
  {| inst_id := "inst-o1-1"; installmentNumber := 1; inst_amount := 50%float;
     dueDate := "2026-01-10T00:00:00.000Z"; inst_status := Pendente;
     paidAmount := 0%float; paymentDate := None; payments := [] |}.

Definition sampleOrder : Order :=
  {| order_id := "o1"; customerName := "Maria"; orderStatus := "Processando";
     total := 50%float; paymentMethod := "Stripe"; paymentStatus := Some Pendente;
     paymentProvider := None; paymentSessionId := None; installments := 1;
     installmentDetails := [sampleInstallment] |}.

Definition sampleDb : gmap string Order := {[ "o1" := sampleOrder ]}.

(** A paid event for installment 1 of [o1], of 25.00. *)
Definition sampleEvent (externalId : string) : PaymentEvent :=
  {| ev_orderId := "o1"; ev_amount := 25%float; ev_status := Pago;
     ev_externalPaymentId := externalId;
     ev_timestamp := "2026-01-05T12:00:00.000Z"; ev_installmentNumber := Some 1 |}.

(** The status of the first installment of an order of the store. *)
Definition firstStatus (db : gmap string Order) (id : string) : option Status :=
  db !! id ≫= fun o => inst_status <$> head (installmentDetails o).

(** A payment recorded by hand on the only installment of [o1]. *)
Definition samplePaymentData (amount : float) : PaymentData :=
  {| pd_id := "pay-1"; pd_amount := amount; pd_date := "2026-01-05T12:00:00.000Z";
     pd_method := "Dinheiro" |}.

(** The event that settles the only installment of [o1]. *)
Definition settlingEvent : PaymentEvent :=
  {| ev_orderId := "o1"; ev_amount := 50%float; ev_status := Pago;
     ev_externalPaymentId := "cs_test_9";
     ev_timestamp := "2026-01-05T12:00:00.000Z"; ev_installmentNumber := Some 1 |}.

Definition settlingPatch : Patch :=
  {| patch_installmentDetails :=
       Some [ (creditInstallment Stripe 1000 settlingEvent 1 sampleInstallment).1 ];
     patch_paymentStatus := Some Pago;
     patch_paymentProvider := None;
     patch_paymentSessionId := None |}.

Definition manualPayment (id : string) (amount : float) : Payment :=
  {| pay_id := id; pay_amount := amount; pay_date := "2026-01-05T12:00:00.000Z";
     pay_method := "Dinheiro"; pay_receivedBy := "Ana" |}.

(** A paid event of 60.00 for the 50.00 installment. *)
Definition overpayingEvent : PaymentEvent :=
  {| ev_orderId := "o1"; ev_amount := 60%float; ev_status := Pago;
     ev_externalPaymentId := "cs_test_60";
     ev_timestamp := "2026-01-05T12:00:00.000Z"; ev_installmentNumber := Some 1 |}.

(** The 50.00 installment of [o1], paid in full by two payments of 25.00. *)
Definition paidInstallment : Installment :=
  {| inst_id := "inst-o1-1"; installmentNumber := 1; inst_amount := 50%float;
     dueDate := "2026-01-10T00:00:00.000Z"; inst_status := Pago;
     paidAmount := 50%float; paymentDate := Some "2026-01-06T09:00:00.000Z";
     payments := [manualPayment "pay-1" 25; manualPayment "pay-2" 25] |}.

Definition paidOrder : Order :=
  {| order_id := "o1"; customerName := "Maria"; orderStatus := "Processando";
     total := 50%float; paymentMethod := "Crediario"; paymentStatus := Some Pago;
     paymentProvider := None; paymentSessionId := None; installments := 1;
     installmentDetails := [paidInstallment] |}.

(** The patch of the order-level branch. *)
Definition stampPatch (prov : Provider) (ev : PaymentEvent) : Patch :=
  {| patch_installmentDetails := None;
     patch_paymentStatus := Some (ev_status ev);
     patch_paymentProvider := Some (providerName prov);
     patch_paymentSessionId :=
       match prov with
       | Stripe =>
           if String.eqb (ev_externalPaymentId ev) "" then None
           else Some (ev_externalPaymentId ev)
       | MercadoPago => None
       end |}.

(** The order a stamp leaves: three payment fields set, the rest as it was. *)
Definition stamped (prov : Provider) (ev : PaymentEvent) (o : Order) : Order :=
  {| order_id := order_id o;
     customerName := customerName o;
     orderStatus := orderStatus o;
     total := total o;
     paymentMethod := paymentMethod o;
     paymentStatus := Some (ev_status ev);
     paymentProvider := Some (providerName prov);
     paymentSessionId :=
       match prov with
       | Stripe =>
           if String.eqb (ev_externalPaymentId ev) "" then paymentSessionId o
           else Some (ev_externalPaymentId ev)
       | MercadoPago => paymentSessionId o
       end;
     installments := installments o;
     installmentDetails := installmentDetails o |}.

(** A failed asynchronous payment reported for installment 1 of [o1]. *)
Definition failedEvent : PaymentEvent :=
  {| ev_orderId := "o1"; ev_amount := 25%float; ev_status := Falhou;
     ev_externalPaymentId := "cs_test_7";
     ev_timestamp := "2026-01-05T12:00:00.000Z"; ev_installmentNumber := Some 1 |}.

(** The gateway answers the payment lookup with 404 and a message. *)
Definition notFound : GatewayResponse :=
  {| gw_status := 404;
     gw_json := Some {| mp_message := Some "Payment not found"; mp_error := Some "not_found";
                        mp_external_reference := None; mp_status := None;
                        mp_installmentNumber := None; mp_transaction_amount := AmountMissing;
                        mp_date_approved := None; mp_date_created := None;
                        mp_id := None |} |}.

(** Reads back the first character of a buffer. *)
Definition decodeChar (bs : list Byte.byte) : option (ascii * list Byte.byte) :=
  match bs with
  | [] => None
  | b :: r =>
      if (Byte.to_N b <? 128)%N then Some (ascii_of_byte b, r)
      else match r with
           | [] => None
           | b2 :: r' =>
               Some (ascii_of_N (N.lor (N.shiftl (N.land (Byte.to_N b) 3) 6)
                                       (N.land (Byte.to_N b2) 63)), r')
           end
  end.

(** What the verifier expects for the header's timestamp. *)
Definition expectedSignature (payload signatureHeader webhookSecret : string) : string :=
  createHmacSha256Hex webhookSecret
    (headerTimestamp signatureHeader +:+ "." +:+ payload).

Definition isByte (b : Z) : Prop := 0 <= b < 256.

(** A lowercase hexadecimal digit. *)
Definition isHexChar (c : ascii) : bool :=
  let n := Z.of_N (N_of_ascii c) in
  ((48 <=? n) && (n <=? 57)) || ((97 <=? n) && (n <=? 102)).

Fixpoint allChars (P : ascii -> bool) (s : string) : bool :=
  match s with
  | EmptyString => true
  | String c r => P c && allChars P r
  end.

(** Neither white space nor a comma. *)
Definition plainChar (c : ascii) : bool :=
  negb (Str.isWhiteSpace c) && negb (Ascii.eqb c ",").

(** A signed delivery: the header carries the digest of [1700000000.{id:1}]
    under the secret [whsec_test]. *)
Definition sampleSecret : string := "whsec_test".
Definition sampleBody : string := "{id:1}".
Definition tamperedBody : string := "{id:2}".
Definition sampleHeader : string :=
  "t=1700000000,v1=d7d83605946fd856ef4f9f3d847d1155d0fc5fc9cf3ad39d6622bb053dc25a3e".
Definition recomputedHeader : string :=
  "t=1700000000,v1=" +:+ createHmacSha256Hex sampleSecret ("1700000000." +:+ tamperedBody).

(** A candidate of 64 characters whose last one takes two bytes in UTF-8. *)
Definition wideCandidate : string :=
  "d7d83605946fd856ef4f9f3d847d1155d0fc5fc9cf3ad39d6622bb053dc25a3" +:+ e_acute.

(** ** Sample data for the further properties *)

(** The session of a paid installment checkout. *)
Definition paidInstallmentSession : StripeSession :=
  {| cs_id := Some "cs_test_1"; cs_metadata_orderId := Some "o1";
     cs_client_reference_id := Some "o1"; cs_payment_status := Some "paid";
     cs_installmentNumber := Some 1; cs_amount_total := AmountNumber 2500;
     cs_created := Some 1767614400%float |}.

(** The double quote, and a JSON string. *)
Definition quote : string := String (ascii_of_N 34) EmptyString.
Definition jsonString (s : string) : string := quote +:+ s +:+ quote.

(** The body of the event that reports the asynchronous payment of that
    session as failed, and its signature header under [sampleSecret]. *)
Definition failedEventBody : string :=
  "{" +:+ jsonString "type" +:+ ":" +:+ jsonString "checkout.session.async_payment_failed"
  +:+ "," +:+ jsonString "data" +:+ ":{" +:+ jsonString "object" +:+ ":{"
  +:+ jsonString "id" +:+ ":" +:+ jsonString "cs_test_1"
  +:+ "," +:+ jsonString "client_reference_id" +:+ ":" +:+ jsonString "o1"
  +:+ "," +:+ jsonString "payment_status" +:+ ":" +:+ jsonString "paid"
  +:+ "," +:+ jsonString "amount_total" +:+ ":2500"
  +:+ "," +:+ jsonString "created" +:+ ":1767614400"
  +:+ "," +:+ jsonString "metadata" +:+ ":{" +:+ jsonString "orderId" +:+ ":" +:+ jsonString "o1"
  +:+ "," +:+ jsonString "installmentNumber" +:+ ":" +:+ jsonString "1" +:+ "}}}}".

Definition failedEventHeader : string :=
  "t=1700000000,v1=" +:+ createHmacSha256Hex sampleSecret ("1700000000." +:+ failedEventBody).

(** A parser for the samples: it knows [failedEventBody] and takes every
    other text for no JSON. *)
Definition sampleParse (body : string) : option (string * option StripeSession) :=
  if String.eqb body failedEventBody
  then Some ("checkout.session.async_payment_failed", Some paidInstallmentSession)
  else None.

(** A date printer for the samples: it knows the instant of the sample
    session and refuses every other one. *)
Definition sampleDateISO (ms : float) : option string :=
  if (ms =? 1767614400000)%float then Some "2026-01-05T12:00:00.000Z" else None.

(** The gateway reports a refunded payment of installment 1 of [o1]. *)
Definition refundedPayment : GatewayResponse :=
  {| gw_status := 200;
     gw_json := Some {| mp_message := None; mp_error := None;
                        mp_external_reference := Some "o1"; mp_status := Some "refunded";
                        mp_installmentNumber := Some 1;
                        mp_transaction_amount := AmountNumber 25;
                        mp_date_approved := Some "2026-01-05T12:00:00.000Z";
                        mp_date_created := None; mp_id := Some "123" |} |}.

(** A third manual payment of 10.00, for an order that already holds [pay-1]
    and [pay-2]. *)
Definition thirdPayment : PaymentData :=
  {| pd_id := "pay-3"; pd_amount := 10%float; pd_date := "2026-01-07T10:00:00.000Z";
     pd_method := "Pix" |}.

(** An order of two items financed in the single paid installment of [o1]. *)
Definition financedOrder : FinancedOrder :=
  {| fo_id := "o1"; fo_date := "2026-01-10T00:00:00.000Z";
     fo_items := [ {| item_id := "p1"; item_price := 30%float; item_quantity := 2%float |} ];
     fo_discount := Some 0%float; fo_downPayment := Some 10%float;
     fo_installments := 1;
     fo_installmentDetails := Some [paidInstallment] |}.

(** The admin zeroes the down payment and changes nothing else. *)
Definition resetChange : OrderDetailsChange :=
  {| ch_items := None; ch_installments := None; ch_discount := None;
     ch_downPayment := None; ch_resetDownPayment := true |}.

(** Month arithmetic is left abstract in the schedule; the samples use a
    function that only tags the date and takes the empty string for an
    invalid date. *)
Definition tagMonths (d : string) (i : Z) : option string :=
  if String.eqb d "" then None else Some (d +:+ "+" +:+ JS.String_of_Z i).

(** The retrieve-session answer for a paid session of [o1]. *)
Definition retrievedPaidSession : ApiResult RetrievedSession :=
  {| api_ok := true;
     api_data := Some {| rs_metadata_orderId := Some "o1"; rs_client_reference_id := None;
                         rs_payment_status := Some "paid"; rs_id := Some "cs_test_1" |} |}.

(** A retrieve-payment answer that is not read on the Stripe path. *)
Definition unusedPaymentAnswer : ApiResult RetrievedPayment :=
  {| api_ok := false; api_data := None |}.

(** Stripe does not know the session. *)
Definition sessionNotFound : StripeGatewayResponse :=
  {| sgw_status := 404;
     sgw_json := Some {| sa_error_message := Some "No such checkout.session";
                         sa_id := None; sa_payment_status := None;
                         sa_client_reference_id := None; sa_metadata_orderId := None |} |}.

(** Stripe reports the session [cs_test_1] of [o1] as paid. *)
Definition sessionPaid : StripeGatewayResponse :=
  {| sgw_status := 200;
     sgw_json := Some {| sa_error_message := None; sa_id := Some "cs_test_1";
                         sa_payment_status := Some "paid";
                         sa_client_reference_id := Some "o1";
                         sa_metadata_orderId := Some "o1" |} |}.

(** An order of seller [u7] with two units of product [p1], and a catalog
    that pays 4.00 a unit for it. *)
Definition soldOrder : SoldOrder :=
  {| so_isCommissionManual := false; so_commission := None; so_sellerId := Some "u7";
     so_items := [ {| item_id := "p1"; item_price := 30%float; item_quantity := 2%float |} ] |}.

Definition fixedCatalog : list Product :=
  [ {| prod_id := "p1"; prod_commissionType := Some "fixed";
       prod_commissionValue := Some 4%float |} ].

(** * Known answers *)

Example sha256_constants :
  (length SHA256.K, head SHA256.K, last SHA256.K, SHA256.ha SHA256.H0, SHA256.hh SHA256.H0)
  = (64%nat, Some 0x428a2f98, Some 0xc67178f2, 0x6a09e667, 0x5be0cd19).
Proof. vm_compute. reflexivity. Qed.

Example sha256_empty :
  Str.hex (SHA256.digest []) = "e3b0c44298fc1c149afbf4c8996fb92427ae41e4649b934ca495991b7852b855".
Proof. vm_compute. reflexivity. Qed.

Example sha256_abc :
  Str.hex (SHA256.digest (map byteZ (Str.utf8 "abc")))
  = "ba7816bf8f01cfea414140de5dae2223b00361a396177a9cb410ff61f20015ad".
Proof. vm_compute. reflexivity. Qed.

Example sha256_two_blocks :
  Str.hex (SHA256.digest (map byteZ (Str.utf8
    "abcdbcdecdefdefgefghfghighijhijkijkljklmklmnlmnomnopnopq")))
  = "248d6a61d20638b8e5c026930c3e6039a33ce45964ff2167f6ecedd419db06c1".
Proof. vm_compute. reflexivity. Qed.

Example hmac_rfc4231_case2 :
  createHmacSha256Hex "Jefe" "what do ya want for nothing?"
  = "5bdcc146bf60754e6a042426089575c75a003f089d2739839dec58b964ec3843".
Proof. vm_compute. reflexivity. Qed.

(** Numbers: the nearest number of an integer, [Math.floor], [%], [String]
    and [Number.parseInt], checked against the values a JavaScript engine
    gives. *)
Example number_known_answers :
  (JS.of_Z (2 ^ 53 + 1), JS.of_Z (2 ^ 53 + 3), JS.of_Z (-7))
  = (9007199254740992, 9007199254740996, -7)%float
  /\ (JS.Math_floor (1e17 / 3), JS.Math_floor (-0.5), JS.Math_floor 0.5, JS.Math_floor (-0))
     = (33333333333333332, -1, 0, -0)%float
  /\ (JS.rem 1e17 3, JS.rem 5.5 2, JS.rem (-5.5) 2, JS.rem 0.3 0.1, JS.rem 3 infinity)
     = (1, 1.5, -1.5, 0.09999999999999998, 3)%float
  /\ JS.isNaN (JS.rem 3 0) = true
  /\ JS.Math_round 2.5 = Some 3 /\ JS.Math_round (-2.5) = Some (-2)
  /\ JS.Math_round 33.335 = Some 33.
Proof. vm_compute. repeat split; reflexivity. Qed.

Example String_known_answers :
  JS.String_of_Z 1700000000000 = "1700000000000"
  /\ JS.String_of_Z (-42) = "-42"
  /\ JS.String_of_Z (2 ^ 53) = "9007199254740992"
  /\ JS.String_of_Z (2 ^ 64) = "18446744073709552000"
  /\ JS.String_of_Z (2 ^ 60) = "1152921504606847000"
  /\ JS.String_of_Z (10 ^ 20) = "100000000000000000000"
  /\ JS.String_of_Z (10 ^ 21) = "1e+21"
  /\ JS.String_of_Z (2 ^ 70) = "1.1805916207174113e+21"
  /\ JS.String_of_Z (10 ^ 23) = "1e+23"
  /\ JS.String_of_Z (- 2 ^ 80) = "-1.2089258196146292e+24"
  /\ parseInt10 " 12px" = Some 12
  /\ parseInt10 "-3.9" = Some (-3)
  /\ parseInt10 "abc" = None
  /\ parseInt10 "" = None
  /\ parseInt10 "1e+21" = Some 1
  /\ parseInt10 "9007199254740993" = Some 9007199254740992.
Proof. vm_compute. repeat split; reflexivity. Qed.

(** * The schedule builder *)

Section ScheduleFacts.

Lemma installmentCents_length base remainder count :
  length (installmentCents base remainder count) = count.
Proof.
  revert remainder; induction count as [|k IH]; intros r; simpl; [reflexivity|].
  destruct (0 <? r); simpl; rewrite IH; reflexivity.
Qed.

(** The first [remainder] positions carry the extra cent. *)
Lemma installmentCents_lookup base count : forall remainder (i : nat),
  0 <= remainder -> (i < count)%nat ->
  installmentCents base remainder count !! i
  = Some (base + (if Z.of_nat i <? remainder then 1 else 0)).
Proof.
  induction count as [|k IH]; intros r i Hr Hi; [lia|].
  simpl. destruct (Z.ltb_spec 0 r) as [Hpos|Hzero]; destruct i as [|i]; simpl;
    try rewrite IH by lia; do 2 f_equal;
    repeat match goal with
           | |- context [?a <? ?b] => destruct (Z.ltb_spec a b)
           end; lia.
Qed.

Lemma installmentCents_sum base count : forall remainder,
  0 <= remainder <= Z.of_nat count ->
  sumZ (installmentCents base remainder count) = Z.of_nat count * base + remainder.
Proof.
  induction count as [|k IH]; intros r Hr; simpl.
  - lia.
  - destruct (Z.ltb_spec 0 r); simpl; rewrite IH by lia; lia.
Qed.

Lemma installmentCents_range base remainder count c :
  0 <= remainder ->
  In c (installmentCents base remainder count) -> base <= c <= base + 1.
Proof.
  intros Hr Hin. apply list_elem_of_In, list_elem_of_lookup in Hin as [i Hi].
  assert (i < count)%nat as Hlt.
  { apply lookup_lt_Some in Hi. rewrite installmentCents_length in Hi. exact Hi. }
  rewrite installmentCents_lookup in Hi by assumption.
  injection Hi as <-. destruct (Z.of_nat i <? remainder); lia.
Qed.

(** A product of a number that is at least zero with 100 is not negative:
    its [Math.round], when finite, is a natural number of cents. *)
Lemma Math_round_cents_nonneg (total : float) (cents : Z) :
  (0 <=? total)%float = true ->
  JS.Math_round (total * 100)%float = Some cents ->
  0 <= cents.
Proof.
  intros Hle Hround. unfold JS.Math_round in Hround.
  rewrite FloatAxioms.leb_spec in Hle. rewrite FloatAxioms.mul_spec in Hround.
  change (Prim2SF 0) with (S754_zero false) in Hle.
  change (Prim2SF 100) with (S754_finite false 7036874417766400 (-46)) in Hround.
  assert (forall m e, 0 <= (if 0 <=? e then Z.pos m * 2 ^ e
                            else (2 * Z.pos m + 2 ^ (- e)) / 2 ^ (1 - e))) as Hpos.
  { intros m e. destruct (Z.leb_spec 0 e).
    - apply Z.mul_nonneg_nonneg; [lia|]. apply Z.pow_nonneg; lia.
    - apply Z.div_pos.
      + assert (0 <= 2 ^ (- e)) by (apply Z.pow_nonneg; lia). lia.
      + apply Z.pow_pos_nonneg; lia. }
  destruct (Prim2SF total) as [s| s | |s m e]; simpl in Hle, Hround;
    try discriminate.
  - injection Hround as <-. lia.
  - destruct s; [discriminate|].
    unfold SF64mul, SFmul in Hround. simpl xorb in Hround.
    unfold binary_round_aux in Hround.
    destruct (shr_fexp prec emax (Z.pos (m * 7036874417766400)) (e + -46) loc_Exact)
      as [mrs' e'].
    destruct (shr_fexp prec emax (round_nearest_even (shr_m mrs') (loc_of_shr_record mrs'))
                e' loc_Exact) as [mrs'' e''].
    destruct (shr_m mrs'') as [|m2|m2]; try discriminate.
    + injection Hround as <-. lia.
    + destruct (e'' <=? emax - prec); [|discriminate].
      injection Hround as <-. apply Hpos.
Qed.

Lemma installmentValues_length base remainder count :
  length (installmentValues base remainder count) = count.
Proof.
  revert remainder; induction count as [|k IH]; intros r; simpl; [reflexivity|].
  destruct (0 <? r)%float; simpl; rewrite IH; reflexivity.
Qed.

Lemma installmentAmounts_length total count :
  length (installmentAmounts total count) = Z.to_nat count.
Proof.
  unfold installmentAmounts, amountsOfCents.
  destruct (JS.Math_round _) as [cents|]; [destruct (_ && _)|];
    rewrite length_map; auto using installmentCents_length, installmentValues_length.
Qed.

(** A total of 1 to 2^53 - 1 cents is split on integers. *)
Lemma installmentAmounts_exact total count cents :
  1 <= count ->
  JS.Math_round (total * 100)%float = Some cents ->
  0 < cents < 2 ^ 53 ->
  installmentAmounts total count
  = map (fun c => (JS.of_Z c / 100)%float)
        (installmentCents (cents / count) (cents mod count) (Z.to_nat count)).
Proof.
  intros Hcount Hround Hcents. unfold installmentAmounts. rewrite Hround.
  destruct (Z.ltb_spec 0 cents); [|lia].
  destruct (Z.ltb_spec cents (2 ^ 53)); [|lia].
  simpl. rewrite Z.rem_mod_nonneg by lia. reflexivity.
Qed.

(** The schedule of a zero of either sign, up to 36 installments: every
    amount is that zero. *)
Lemma amountsOfCents_zero (negative : bool) (count : Z) :
  1 <= count <= 36 ->
  amountsOfCents (if negative then (-0)%float else 0%float) count
  = replicate (Z.to_nat count) (if negative then (-0)%float else 0%float).
Proof.
  intros Hcount.
  assert (forallb (fun k =>
            forallb (fun neg : bool =>
              let z := if neg then (-0)%float else 0%float in
              Nat.eqb (length (amountsOfCents z (Z.of_nat k))) k
              && forallb (fun a => Leibniz.eqb a z) (amountsOfCents z (Z.of_nat k)))
              [true; false]) (seq 1 36) = true) as Hall by (vm_compute; reflexivity).
  rewrite forallb_forall in Hall. specialize (Hall (Z.to_nat count)).
  rewrite Z2Nat.id in Hall by lia.
  assert (In (Z.to_nat count) (seq 1 36)) as Hin by (apply in_seq; lia).
  apply Hall in Hin. rewrite forallb_forall in Hin.
  assert (In negative [true; false]) as Hneg by (destruct negative; simpl; auto).
  apply Hin in Hneg. cbv zeta in Hneg. apply andb_prop in Hneg as [Hlen Hzero].
  apply Nat.eqb_eq in Hlen. rewrite forallb_forall in Hzero.
  apply list_eq. intros i. destruct (amountsOfCents _ count !! i) as [a|] eqn:Hi.
  - assert (i < Z.to_nat count)%nat as Hlt by (apply lookup_lt_Some in Hi; lia).
    rewrite lookup_replicate_2 by assumption. f_equal.
    apply FloatAxioms.Leibniz.eqb_spec, Hzero, list_elem_of_In.
    apply list_elem_of_lookup. eauto.
  - apply lookup_ge_None in Hi. symmetry. apply lookup_replicate_None. lia.
Qed.

(** A product that [Math.round] takes to zero becomes a zero of its own
    sign when multiplied by zero. *)
Lemma product_zero (product : float) :
  JS.Math_round product = Some 0 ->
  (product * 0)%float = 0%float \/ (product * 0)%float = (-0)%float.
Proof.
  intros Hround. unfold JS.Math_round in Hround.
  assert (exists s, Prim2SF (product * 0)%float = S754_zero s) as [s Hs].
  { rewrite FloatAxioms.mul_spec. change (Prim2SF 0) with (S754_zero false).
    destruct (Prim2SF product) as [s0|s0| |s0 m e]; try discriminate;
      simpl; eauto. }
  destruct s; [right|left]; apply FloatAxioms.Prim2SF_inj; rewrite Hs; reflexivity.
Qed.

(** A total of zero cents, up to 36 installments. *)
Lemma installmentAmounts_zero total count :
  1 <= count <= 36 ->
  JS.Math_round (total * 100)%float = Some 0 ->
  installmentAmounts total count = replicate (Z.to_nat count) 0%float
  \/ installmentAmounts total count = replicate (Z.to_nat count) (-0)%float.
Proof.
  intros Hcount Hround. unfold installmentAmounts. rewrite Hround. simpl.
  destruct (product_zero _ Hround) as [-> | ->].
  - left. apply (amountsOfCents_zero false). assumption.
  - right. apply (amountsOfCents_zero true). assumption.
Qed.

Variable addMonthsISO : string -> Z -> option string.

(** The loop returns when every due date it computes is valid, and then
    holds one new installment per amount. *)
Lemma pushInstallments_Ok orderId firstDueDate amounts : forall i,
  (forall k : nat, (k < length amounts)%nat ->
     is_Some (addMonthsISO firstDueDate (i + Z.of_nat k))) ->
  exists sched,
    pushInstallments addMonthsISO orderId firstDueDate i amounts = JS.Ok sched
    /\ map inst_amount sched = amounts
    /\ map installmentNumber sched
       = map (fun k => i + Z.of_nat k + 1) (seq 0 (length amounts)).
Proof.
  induction amounts as [|a rest IH]; intros i Hdates; simpl.
  - exists []. auto.
  - destruct (Hdates 0%nat ltac:(simpl; lia)) as [due Hdue].
    rewrite Z.add_0_r in Hdue. rewrite Hdue.
    destruct (IH (i + 1)) as (sched & -> & Ham & Hnum).
    { intros k Hk. replace (i + 1 + Z.of_nat k) with (i + Z.of_nat (S k)) by lia.
      apply Hdates. simpl. lia. }
    eexists. split; [reflexivity|]. simpl. rewrite Ham, Hnum. split; [reflexivity|].
    f_equal; [lia|]. rewrite <- seq_shift, map_map. apply map_ext. intros k. lia.
Qed.

(** What the loop returns holds, at each position, the new installment of
    that iteration; what it throws is the [RangeError] of an invalid date. *)
Lemma pushInstallments_inv orderId firstDueDate amounts : forall i,
  match pushInstallments addMonthsISO orderId firstDueDate i amounts with
  | JS.Ok sched =>
      length sched = length amounts
      /\ forall (k : nat) inst, sched !! k = Some inst ->
           exists a due,
             amounts !! k = Some a
             /\ addMonthsISO firstDueDate (i + Z.of_nat k) = Some due
             /\ inst = newInstallment orderId due (i + Z.of_nat k) a
  | JS.Throw err =>
      err = "RangeError"
      /\ exists k : nat, (k < length amounts)%nat
                         /\ addMonthsISO firstDueDate (i + Z.of_nat k) = None
  end.
Proof.
  induction amounts as [|a rest IH]; intros i; simpl.
  - split; [reflexivity|]. intros k inst Hk. rewrite lookup_nil in Hk. discriminate.
  - destruct (addMonthsISO firstDueDate i) as [due|] eqn:Hdue.
    + specialize (IH (i + 1)).
      destruct (pushInstallments addMonthsISO orderId firstDueDate (i + 1) rest)
        as [pushed|err].
      * destruct IH as [Hlen Hin]. split; [simpl; lia|].
        intros [|k] inst Hk; simpl in Hk.
        -- injection Hk as <-. exists a, due. rewrite Z.add_0_r. auto.
        -- destruct (Hin k inst Hk) as (a' & due' & Ha & Hd & ->).
           exists a', due'. replace (i + Z.of_nat (S k)) with (i + 1 + Z.of_nat k) by lia.
           auto.
      * destruct IH as [-> (k & Hk & Hnone)]. split; [reflexivity|].
        exists (S k). split; [simpl; lia|].
        replace (i + Z.of_nat (S k)) with (i + 1 + Z.of_nat k) by lia. assumption.
    + split; [reflexivity|]. exists 0%nat. split; [simpl; lia|].
      rewrite Z.add_0_r. assumption.
Qed.

End ScheduleFacts.

(** The loop run in binary64 and the loop run on integers agree on totals
    below 2^53 cents: 100.00 over 3, 999999.99 over 7, and the largest such
    total over 36. *)
Example installmentAmounts_agreement :
  amountsOfCents 10000 3 = installmentAmounts 100 3
  /\ amountsOfCents 99999999 7 = installmentAmounts 999999.99 7
  /\ amountsOfCents 9007199254740991 36 = installmentAmounts 90071992547409.91 36.
Proof. vm_compute. repeat split; reflexivity. Qed.

(** C4 (counterexample) -- A total of 10^15 over 3 installments.  The total
    in cents is 10^17, which leaves the remainder 1, so the first installment
    should carry one cent more than the others; in binary64 the base value
    plus one cent is the base value again: the three amounts are equal, and
    their cents sum to four cents less than the total.  And a first due date
    that is no date gives no schedule at all: the loop throws. *)
Lemma recalculateInstallments_inexact_beyond_2_53 :
  (0 <=? 1e15)%float = true
  /\ JS.Math_round (1e15 * 100)%float = Some (10 ^ 17)
  /\ 10 ^ 17 mod 3 = 1
  /\ match recalculateInstallments (fun d _ => Some d) 1e15 3 "A1" "2026-01-10" with
     | JS.Ok sched =>
         map inst_amount sched
         = [333333333333333.31; 333333333333333.31; 333333333333333.31]%float
         /\ map (fun inst => JS.Math_round (inst_amount inst * 100)%float) sched
            = [Some 33333333333333332; Some 33333333333333332; Some 33333333333333332]
     | JS.Throw _ => False
     end
  /\ 3 * 33333333333333332 <> 10 ^ 17
  /\ recalculateInstallments (fun _ _ => None) 100 3 "A1" "no date" = JS.Throw "RangeError".
Proof. vm_compute. repeat split; try reflexivity. discriminate. Qed.

(** C4 -- Rounding exactness of the schedule builder.  For every total that
    is at least zero and whose amount in cents [Math.round(total * 100)] is
    below 2^53, every count from 1 to 36 and a first due date from which the
    due dates of the schedule can be formed, [recalculateInstallments]
    returns [count] installments numbered 1, 2, ... whose amounts are the
    cent values [cs] divided by 100 (for a total of zero cents the amounts
    are the zero of the total's sign), where the cent values sum to the
    total in cents, any two differ by at most one cent, and exactly the
    first [cents mod count] of them carry the extra cent over
    [cents / count].  A total of 100.00 over 3 installments gives 33.34,
    33.33, 33.33. *)
Theorem recalculateInstallments_rounding_exact
    (addMonthsISO : string -> Z -> option string) (total : float) (count cents : Z)
    (orderId firstDueDate : string) :
  (0 <=? total)%float = true ->
  1 <= count <= 36 ->
  JS.Math_round (total * 100)%float = Some cents ->
  cents < 2 ^ 53 ->
  (forall i, 0 <= i < count -> is_Some (addMonthsISO firstDueDate i)) ->
  let cs := installmentCents (cents / count) (cents mod count) (Z.to_nat count) in
  (exists sched,
     recalculateInstallments addMonthsISO total count orderId firstDueDate = JS.Ok sched
     /\ length sched = Z.to_nat count
     /\ (map inst_amount sched = map (fun c => (JS.of_Z c / 100)%float) cs
         \/ cents = 0 /\ map inst_amount sched = replicate (Z.to_nat count) (-0)%float)
     /\ map installmentNumber sched = map Z.of_nat (seq 1 (Z.to_nat count)))
  /\ sumZ cs = cents
  /\ (forall a b, In a cs -> In b cs -> Z.abs (a - b) <= 1)
  /\ (forall i : nat, (i < Z.to_nat count)%nat ->
        cs !! i = Some (cents / count + (if Z.of_nat i <? cents mod count then 1 else 0)))
  /\ ((forall i, 0 <= i < 3 -> is_Some (addMonthsISO firstDueDate i)) ->
      exists sched,
        recalculateInstallments addMonthsISO 100 3 orderId firstDueDate = JS.Ok sched
        /\ map inst_amount sched = [33.34; 33.33; 33.33]%float).
Proof.
  intros Hle Hcount Hround Hbound Hdates cs.
  pose proof (Math_round_cents_nonneg _ _ Hle Hround) as Hcents.
  assert (0 <= cents mod count < count) as Hrem by (apply Z.mod_pos_bound; lia).
  assert ((total <? 0)%float = false) as Hneg.
  { rewrite FloatAxioms.ltb_spec. rewrite FloatAxioms.leb_spec in Hle.
    change (Prim2SF 0) with (S754_zero false) in *.
    unfold SFleb, SFltb in *. destruct (Prim2SF total) as [?|[]| |[] ? ?];
      simpl in *; congruence. }
  assert (installmentAmounts total count = map (fun c => (JS.of_Z c / 100)%float) cs
          \/ cents = 0
             /\ installmentAmounts total count = replicate (Z.to_nat count) (-0)%float)
    as Hamounts.
  { destruct (Z.eq_dec cents 0) as [->|Hpos].
    - destruct (installmentAmounts_zero total count Hcount Hround) as [Hz|Hz].
      + left. rewrite Hz. subst cs. rewrite Z.div_0_l, Z.mod_0_l by lia.
        clear. induction (Z.to_nat count) as [|k IH]; simpl; [reflexivity|].
        f_equal. exact IH.
      + right. auto.
    - left. apply installmentAmounts_exact; [lia|assumption|lia]. }
  repeat match goal with |- _ /\ _ => split end.
  - unfold recalculateInstallments.
    destruct (Z.leb_spec count 0) as [|_]; [lia|]. rewrite Hneg. simpl.
    destruct (pushInstallments_Ok addMonthsISO orderId firstDueDate
                (installmentAmounts total count) 0) as (sched & Hsched & Ham & Hnum).
    { intros k Hk. rewrite installmentAmounts_length in Hk. apply Hdates. lia. }
    exists sched. split; [assumption|].
    rewrite installmentAmounts_length in Hnum.
    repeat match goal with |- _ /\ _ => split end.
    + rewrite <- (length_map inst_amount), Ham. apply installmentAmounts_length.
    + rewrite Ham. exact Hamounts.
    + rewrite Hnum, <- seq_shift, map_map. apply map_ext. intros k. lia.
  - unfold cs. rewrite installmentCents_sum by lia.
    rewrite Z2Nat.id by lia. pose proof (Z.div_mod cents count). lia.
  - intros a b Ha Hb.
    apply installmentCents_range in Ha; [|lia].
    apply installmentCents_range in Hb; [|lia]. lia.
  - intros i Hi. apply installmentCents_lookup; [lia|assumption].
  - intros Hthree. unfold recalculateInstallments. simpl.
    destruct (pushInstallments_Ok addMonthsISO orderId firstDueDate
                (installmentAmounts 100 3) 0) as (sched & Hsched & Ham & _).
    { intros k Hk. rewrite installmentAmounts_length in Hk. apply Hthree. lia. }
    exists sched. split; [assumption|]. rewrite Ham. vm_compute. reflexivity.
Qed.

Lemma recalculateInstallments_rounding_exact_witness :
  let cs := installmentCents (10000 / 3) (10000 mod 3) (Z.to_nat 3) in
  (exists sched,
     recalculateInstallments (fun d _ => Some d) 100 3 "A1" "2026-01-10" = JS.Ok sched
     /\ length sched = Z.to_nat 3
     /\ (map inst_amount sched = map (fun c => (JS.of_Z c / 100)%float) cs
         \/ 10000 = 0 /\ map inst_amount sched = replicate (Z.to_nat 3) (-0)%float)
     /\ map installmentNumber sched = map Z.of_nat (seq 1 (Z.to_nat 3)))
  /\ sumZ cs = 10000
  /\ (forall a b, In a cs -> In b cs -> Z.abs (a - b) <= 1)
  /\ (forall i : nat, (i < Z.to_nat 3)%nat ->
        cs !! i = Some (10000 / 3 + (if Z.of_nat i <? 10000 mod 3 then 1 else 0)))
  /\ ((forall i, 0 <= i < 3 -> is_Some (Some "2026-01-10")) ->
      exists sched,
        recalculateInstallments (fun d _ => Some d) 100 3 "A1" "2026-01-10" = JS.Ok sched
        /\ map inst_amount sched = [33.34; 33.33; 33.33]%float).
Proof.
  apply (recalculateInstallments_rounding_exact (fun d _ => Some d) 100 3 10000 "A1"
           "2026-01-10").
  - vm_compute. reflexivity.
  - lia.
  - vm_compute. reflexivity.
  - lia.
  - intros i _. eexists. reflexivity.
Defined.

(** * The webhook reconciler *)

Section ReconcileFacts.

Variable prov : Provider.









Lemma map_fst_false (l : list Installment) :
  map fst (map (fun i => (i, false)) l) = l.
Proof. induction l; simpl; congruence. Qed.

(** A delivery reads the order under the event's identifier, and replaces
    it when it writes. *)
Lemma deliver_written now ev db p :
  reconcile prov now ev db = Some (ev_orderId ev, p) ->
  forall o, db !! ev_orderId ev = Some o ->
  deliver prov now ev db = <[ev_orderId ev := applyPatch p o]> db.
Proof.
  intros Hrec o Ho. unfold deliver, commit, updateDoc. rewrite Hrec, Ho. reflexivity.
Qed.

Lemma reconcile_missing_order now ev db :
  isInstallmentPayment ev && Status_eqb (ev_status ev) Pago = true ->
  db !! ev_orderId ev = None ->
  reconcile prov now ev db = None.
Proof.
  intros Hbranch Hnone. unfold reconcile.
  destruct (String.eqb _ _); [reflexivity|]. rewrite Hbranch, Hnone. reflexivity.
Qed.

(** No-op on a recorded identifier: when every installment with the
    targeted number already carries the non-empty identifier, the handler
    makes no [updateDoc] call. *)
Lemma reconcile_duplicate_noop now ev db o n :
  ev_installmentNumber ev = Some n -> 0 < n -> ev_status ev = Pago ->
  db !! ev_orderId ev = Some o ->
  (forall inst, In inst (installmentDetails o) -> installmentNumber inst = n ->
     alreadyRecorded (ev_externalPaymentId ev) inst = true) ->
  reconcile prov now ev db = None.
Proof.
  intros Hn Hpos Hst Ho Hall. unfold reconcile.
  destruct (String.eqb _ _); [reflexivity|].
  unfold isInstallmentPayment. rewrite Hn, Hst, Ho. simpl.
  destruct (Z.ltb_spec 0 n); [simpl|lia].
  assert (existsb snd (map (creditInstallment prov now ev n) (installmentDetails o)) = false)
    as ->; [|reflexivity].
  induction (installmentDetails o) as [|inst l IH]; simpl; [reflexivity|].
  rewrite IH by (intros; apply Hall; simpl; auto).
  rewrite orb_false_r. unfold creditInstallment.
  destruct (Z.eqb_spec (installmentNumber inst) n) as [Heq|]; simpl; [|reflexivity].
  rewrite (Hall inst); simpl; auto.
Qed.


End ReconcileFacts.

Section DeliveryFacts.

Variable prov : Provider.






End DeliveryFacts.






(** Two partial payments of 25.00 with distinct identifiers settle the
    installment of 50.00; a third delivery carrying the second identifier
    leaves the store as it is. *)
Example two_partial_payments_then_duplicate :
  let db1 := deliver Stripe 1000 (sampleEvent "cs_a") sampleDb in
  let db2 := deliver Stripe 2000 (sampleEvent "cs_b") db1 in
  firstStatus db1 "o1" = Some Pendente
  /\ firstStatus db2 "o1" = Some Pago
  /\ (db2 !! "o1" ≫= fun o => paidAmount <$> head (installmentDetails o)) = Some 50%float
  /\ paymentStatus <$> db2 !! "o1" = Some (Some Pago)
  /\ reconcile Stripe 3000 (sampleEvent "cs_b") db2 = None
  /\ deliver Stripe 3000 (sampleEvent "cs_b") db2 = db2.
Proof.
  cbv zeta.
  repeat match goal with |- _ /\ _ => split end; vm_compute; reflexivity.
Qed.

(** * Order-level completion *)

Lemma allPaid_intro (l : list Installment) :
  l <> [] -> (forall inst, In inst l -> inst_status inst = Pago) -> allPaid l = true.
Proof.
  intros Hne Hall. unfold allPaid. apply andb_true_intro. split.
  - destruct l; [contradiction|]. reflexivity.
  - apply forallb_forall. intros inst Hin. rewrite (Hall inst Hin). reflexivity.
Qed.

(** The manual path writes [installmentDetails] and nothing else. *)
Lemma recordInstallmentPayment_patch orders orderId n paymentData user id p :
  recordInstallmentPayment orders orderId n paymentData user = Some (id, p) ->
  id = orderId
  /\ patch_paymentStatus p = None
  /\ patch_paymentProvider p = None
  /\ patch_paymentSessionId p = None
  /\ exists order paymentWithUser,
       find (fun o => String.eqb (order_id o) orderId) orders = Some order
       /\ patch_installmentDetails p
          = Some (map (recordOnInstallment n paymentWithUser) (installmentDetails order)).
Proof.
  unfold recordInstallmentPayment.
  destruct (find _ orders) as [order|]; [|discriminate].
  intros [= <- <-]. simpl. repeat apply conj; try reflexivity.
  eexists _, _. split; reflexivity.
Qed.

(** C2, as stated, fails on the manual path: the payment that settles the
    only installment of [o1] leaves the order's [paymentStatus] at Pendente. *)
Lemma manual_payment_leaves_order_pending :
  exists p,
    recordInstallmentPayment [sampleOrder] "o1" 1 (samplePaymentData 50) (Some "Ana")
    = Some ("o1", p)
    /\ map inst_status (installmentDetails (applyPatch p sampleOrder)) = [Pago]
    /\ paymentStatus (applyPatch p sampleOrder) = Some Pendente
    /\ paymentStatus (applyPatch p sampleOrder) <> Some Pago.
Proof.
  eexists. split; [reflexivity|]. vm_compute.
  repeat apply conj; try reflexivity. discriminate.
Qed.

(** C2 (amended) -- Order-level completion.  After a webhook reconciliation
    that credits a payment (the handler writes on the installment branch) and
    leaves a non-empty schedule with every installment Pago, the stored order
    has [paymentStatus] Pago.  The manual [recordInstallmentPayment] writes
    [installmentDetails] only: whatever the installments become, the order's
    [paymentStatus] stays as it was. *)
Theorem webhook_completion_sets_order_paid (prov : Provider) (now : Z)
    (ev : PaymentEvent) (db : gmap string Order) (o : Order) (id : string) (p : Patch) :
  isInstallmentPayment ev = true ->
  ev_status ev = Pago ->
  db !! ev_orderId ev = Some o ->
  reconcile prov now ev db = Some (id, p) ->
  installmentDetails (applyPatch p o) <> [] ->
  (forall inst, In inst (installmentDetails (applyPatch p o)) -> inst_status inst = Pago) ->
  (id = ev_orderId ev
   /\ deliver prov now ev db !! ev_orderId ev = Some (applyPatch p o)
   /\ paymentStatus (applyPatch p o) = Some Pago)
  /\ (forall orders orderId n paymentData user id' p' o',
        recordInstallmentPayment orders orderId n paymentData user = Some (id', p') ->
        paymentStatus (applyPatch p' o') = paymentStatus o').
Proof.
  intros Hinst Hst Ho Hrec Hne Hall. split.
  - assert (id = ev_orderId ev) as ->.
    { revert Hrec. unfold reconcile. destruct (String.eqb _ _); [discriminate|].
      destruct (_ && _); [destruct (existsb _ _)|]; congruence. }
    repeat apply conj; [reflexivity| |].
    + rewrite (deliver_written prov now ev db p Hrec o Ho). apply lookup_insert_eq.
    + revert Hrec Hne Hall. unfold reconcile.
      destruct (String.eqb _ _); [discriminate|].
      rewrite Hinst, Hst, Ho. simpl.
      destruct (existsb _ _); [|discriminate].
      intros [= <-]. simpl. intros Hne Hall.
      rewrite (allPaid_intro _ Hne Hall). reflexivity.
  - intros orders orderId n paymentData user id' p' o' Hp.
    apply recordInstallmentPayment_patch in Hp as (_ & Hps & _).
    unfold applyPatch. simpl. rewrite Hps. reflexivity.
Qed.

Lemma webhook_completion_sets_order_paid_witness :
  ("o1" = ev_orderId settlingEvent
   /\ deliver Stripe 1000 settlingEvent sampleDb !! ev_orderId settlingEvent
      = Some (applyPatch settlingPatch sampleOrder)
   /\ paymentStatus (applyPatch settlingPatch sampleOrder) = Some Pago)
  /\ (forall orders orderId n paymentData user id' p' o',
        recordInstallmentPayment orders orderId n paymentData user = Some (id', p') ->
        paymentStatus (applyPatch p' o') = paymentStatus o').
Proof.
  apply (webhook_completion_sets_order_paid Stripe 1000 settlingEvent sampleDb sampleOrder
           "o1" settlingPatch).
  - reflexivity.
  - reflexivity.
  - vm_compute. reflexivity.
  - vm_compute. reflexivity.
  - vm_compute. discriminate.
  - vm_compute. intros inst [<-|[]]. reflexivity.
Defined.

(** * The paid threshold *)

(** On the webhook path the status follows the one-sided tolerance: Pago
    exactly when [newPaidAmount + 0.01 >= Number(inst.amount || 0)]. *)
Lemma creditInstallment_status prov now ev n inst :
  (creditInstallment prov now ev n inst).2 = true ->
  let newPaidAmount := (JS.or0 (paidAmount inst) + ev_amount ev)%float in
  let credited := (creditInstallment prov now ev n inst).1 in
  paidAmount credited = newPaidAmount
  /\ (inst_status credited = Pago
      <-> JS.geb (newPaidAmount + 0.01)%float (JS.or0 (inst_amount inst)) = true)
  /\ (inst_status credited = Pendente
      <-> JS.geb (newPaidAmount + 0.01)%float (JS.or0 (inst_amount inst)) = false).
Proof.
  unfold creditInstallment.
  destruct (negb _); [discriminate|]. destruct (alreadyRecorded _ _); [discriminate|].
  intros _. simpl.
  destruct (JS.geb _ _); repeat apply conj; intros; congruence.
Qed.

(** [amount || 0] compares as [amount] does, unless [amount] is [NaN]. *)
Lemma or0_leb (a x : float) :
  JS.isNaN a = false -> (JS.or0 a <=? x)%float = (a <=? x)%float.
Proof.
  intros Hnan. unfold JS.or0, JS.truthy. rewrite Hnan. simpl.
  destruct (a =? 0)%float eqn:Hz; [|reflexivity]. simpl.
  rewrite FloatAxioms.eqb_spec in Hz. rewrite !FloatAxioms.leb_spec.
  change (Prim2SF 0) with (S754_zero false) in *.
  destruct (Prim2SF a) as [s|s| |s m e]; try discriminate.
  - reflexivity.
  - destruct s; discriminate.
  - destruct s; discriminate.
Qed.

(** For an installment whose amount is a number, the webhook path marks it
    Pago exactly when [newPaidAmount + 0.01 >= amount]. *)
Lemma creditInstallment_status_amount prov now ev n inst :
  JS.isNaN (inst_amount inst) = false ->
  (creditInstallment prov now ev n inst).2 = true ->
  let newPaidAmount := (JS.or0 (paidAmount inst) + ev_amount ev)%float in
  inst_status (creditInstallment prov now ev n inst).1 = Pago
  <-> JS.geb (newPaidAmount + 0.01)%float (inst_amount inst) = true.
Proof.
  intros Hnan Hupd newPaidAmount.
  destruct (creditInstallment_status prov now ev n inst Hupd) as (_ & Hpago & _).
  unfold JS.geb in *. rewrite or0_leb in Hpago by assumption. exact Hpago.
Qed.

(** On the manual path the status follows the two-sided test
    [Math.abs(newPaidAmount - inst.amount) < 0.01]. *)
Lemma recordOnInstallment_status n paymentWithUser inst :
  installmentNumber inst = n ->
  let newPaidAmount := (JS.or0 (paidAmount inst) + JS.or0 (pay_amount paymentWithUser))%float in
  let recorded := recordOnInstallment n paymentWithUser inst in
  paidAmount recorded = newPaidAmount
  /\ (inst_status recorded = Pago
      <-> (abs (newPaidAmount - inst_amount inst) <? 0.01)%float = true).
Proof.
  intros Hn. unfold recordOnInstallment. rewrite Hn, Z.eqb_refl. simpl.
  destruct (_ <? _)%float; repeat apply conj; intros; congruence.
Qed.

(** C3 -- The paid threshold on the manual path, at an overpayment.  A
    payment of 60.00 recorded by hand on the pending installment of 50.00
    gives [paidAmount] 60.00, so [paidAmount + 0.01 >= amount] holds, and yet
    the installment stays Pendente; the webhook path marks the same
    overpayment Pago, and [reversePayment] marks the same [paidAmount] of
    60.00 Pago once a later payment of 10.00 is reversed. *)
Theorem manual_overpayment_stays_pending :
  let recorded := recordOnInstallment 1 (manualPayment "pay-1" 60) sampleInstallment in
  let credited := (creditInstallment Stripe 1000 overpayingEvent 1 sampleInstallment).1 in
  let thirty2 :=
    recordOnInstallment 1 (manualPayment "pay-b" 30)
      (recordOnInstallment 1 (manualPayment "pay-a" 30) sampleInstallment) in
  let reversed :=
    reverseOnInstallment 1 "pay-c" (recordOnInstallment 1 (manualPayment "pay-c" 10) thirty2) in
  paidAmount recorded = 60%float
  /\ JS.geb (paidAmount recorded + 0.01)%float (inst_amount sampleInstallment) = true
  /\ inst_status recorded = Pendente
  /\ paidAmount credited = 60%float
  /\ inst_status credited = Pago
  /\ paidAmount thirty2 = 60%float /\ inst_status thirty2 = Pendente
  /\ paidAmount reversed = 60%float /\ inst_status reversed = Pago.
Proof.
  vm_compute. repeat apply conj; reflexivity.
Qed.

(** * Reversal *)

Section ReversalFacts.

Variable paymentId : string.

Lemma find_unique (l1 l2 : list Payment) (p : Payment) :
  pay_id p = paymentId ->
  (forall q, In q (l1 ++ l2) -> pay_id q <> paymentId) ->
  find (fun q => String.eqb (pay_id q) paymentId) (l1 ++ p :: l2) = Some p.
Proof.
  intros Hp Hother. induction l1 as [|q l1 IH]; simpl.
  - rewrite Hp, String.eqb_refl. reflexivity.
  - destruct (String.eqb_spec (pay_id q) paymentId) as [Heq|_].
    + exfalso. apply (Hother q); simpl; auto.
    + apply IH. intros r Hr. apply Hother. simpl. auto.
Qed.

Lemma filter_keeps (l : list Payment) :
  (forall q, In q l -> pay_id q <> paymentId) ->
  filter (fun q => pay_id q <> paymentId) l = l.
Proof.
  intros Hother. induction l as [|q l IH]; [reflexivity|].
  rewrite filter_cons_True by (apply Hother; simpl; auto).
  f_equal. apply IH. intros r Hr. apply Hother. simpl. auto.
Qed.

(** With a single payment under the identifier, the filter removes that
    record and keeps the others in order. *)
Lemma filter_unique (l1 l2 : list Payment) (p : Payment) :
  pay_id p = paymentId ->
  (forall q, In q (l1 ++ l2) -> pay_id q <> paymentId) ->
  filter (fun q => pay_id q <> paymentId) (l1 ++ p :: l2) = l1 ++ l2.
Proof.
  intros Hp Hother. rewrite filter_app, filter_cons_False by (intros Hne; contradiction).
  rewrite !filter_keeps; [reflexivity| |]; intros q Hq; apply Hother, in_or_app; auto.
Qed.

Lemma reverseOnInstallment_other n inst :
  installmentNumber inst <> n -> reverseOnInstallment n paymentId inst = inst.
Proof.
  intros Hne. unfold reverseOnInstallment.
  destruct (Z.eqb_spec (installmentNumber inst) n); [contradiction|reflexivity].
Qed.

Lemma reverseOnInstallment_target n inst l1 p l2 :
  installmentNumber inst = n ->
  payments inst = l1 ++ p :: l2 ->
  pay_id p = paymentId ->
  (forall q, In q (l1 ++ l2) -> pay_id q <> paymentId) ->
  reverseOnInstallment n paymentId inst
  = {| inst_id := inst_id inst;
       installmentNumber := installmentNumber inst;
       inst_amount := inst_amount inst;
       dueDate := dueDate inst;
       inst_status :=
         if JS.geb (JS.or0 (paidAmount inst) - pay_amount p)%float (inst_amount inst)
         then Pago else Pendente;
       paidAmount := (JS.or0 (paidAmount inst) - pay_amount p)%float;
       paymentDate := paymentDate inst;
       payments := l1 ++ l2 |}.
Proof.
  intros Hn Hpay Hp Hother. unfold reverseOnInstallment.
  rewrite Hn, Z.eqb_refl, Hpay, (find_unique l1 l2 p Hp Hother).
  rewrite (filter_unique l1 l2 p Hp Hother). reflexivity.
Qed.

(** Whatever the payments are, a reversal keeps the payments under other
    identifiers and lowers [paidAmount] by the amount of the first payment
    under the identifier. *)
Lemma reverseOnInstallment_found n inst p :
  installmentNumber inst = n ->
  find (fun q => String.eqb (pay_id q) paymentId) (payments inst) = Some p ->
  payments (reverseOnInstallment n paymentId inst)
  = filter (fun q => pay_id q <> paymentId) (payments inst)
  /\ paidAmount (reverseOnInstallment n paymentId inst)
     = (JS.or0 (paidAmount inst) - pay_amount p)%float.
Proof.
  intros Hn Hfind. unfold reverseOnInstallment.
  rewrite Hn, Z.eqb_refl, Hfind. split; reflexivity.
Qed.



End ReversalFacts.

(** Reversal of a payment whose identifier no other payment of the
    installment carries.  For every order of the list, every installment of it
    with the given number and every payment identifier that names one
    payment [p] of that installment, [reversePayment] writes a schedule in
    which that installment has lost exactly [p], its [paidAmount] is lowered
    by the amount of [p], and its status is Pago when the new [paidAmount] is
    at least the amount and Pendente otherwise; installments with another
    number are unchanged, and so are [paymentStatus] and the other
    order-level fields.  Reversing one payment of 25.00 of the fully paid
    installment of 50.00 leaves [paidAmount] 25.00 and status Pendente. *)
Lemma reversePayment_single_identifier (orders : list Order) (orderId : string) (n : Z)
    (paymentId : string) (order : Order) (k : nat) (inst : Installment)
    (l1 l2 : list Payment) (p : Payment) :
  find (fun o => String.eqb (order_id o) orderId) orders = Some order ->
  installmentDetails order !! k = Some inst ->
  installmentNumber inst = n ->
  payments inst = l1 ++ p :: l2 ->
  pay_id p = paymentId ->
  (forall q, In q (l1 ++ l2) -> pay_id q <> paymentId) ->
  let newPaidAmount := (JS.or0 (paidAmount inst) - pay_amount p)%float in
  (exists patch order',
     reversePayment orders orderId n paymentId = Some (orderId, patch)
     /\ order' = applyPatch patch order
     /\ installmentDetails order' !! k
        = Some {| inst_id := inst_id inst;
                  installmentNumber := installmentNumber inst;
                  inst_amount := inst_amount inst;
                  dueDate := dueDate inst;
                  inst_status :=
                    if JS.geb newPaidAmount (inst_amount inst) then Pago else Pendente;
                  paidAmount := newPaidAmount;
                  paymentDate := paymentDate inst;
                  payments := l1 ++ l2 |}
     /\ (forall j other, installmentDetails order !! j = Some other ->
           installmentNumber other <> n -> installmentDetails order' !! j = Some other)
     /\ length (installmentDetails order') = length (installmentDetails order)
     /\ paymentStatus order' = paymentStatus order
     /\ paymentProvider order' = paymentProvider order
     /\ paymentSessionId order' = paymentSessionId order
     /\ total order' = total order
     /\ installments order' = installments order)
  /\ (exists patch,
        reversePayment [paidOrder] "o1" 1 "pay-2" = Some ("o1", patch)
        /\ map paidAmount (installmentDetails (applyPatch patch paidOrder)) = [25%float]
        /\ map inst_status (installmentDetails (applyPatch patch paidOrder)) = [Pendente]
        /\ map payments (installmentDetails (applyPatch patch paidOrder))
           = [[manualPayment "pay-1" 25]]
        /\ paymentStatus (applyPatch patch paidOrder) = Some Pago).
Proof.
  intros Hfind Hk Hn Hpay Hp Hother newPaidAmount. split.
  - unfold reversePayment. rewrite Hfind. eexists _, _.
    split; [reflexivity|]. split; [reflexivity|]. simpl.
    repeat apply conj; try reflexivity.
    + change (map ?f ?l) with (f <$> l). rewrite list_lookup_fmap, Hk. simpl.
      rewrite (reverseOnInstallment_target paymentId n inst l1 p l2); auto.
    + intros j other Hj Hne.
      change (map ?f ?l) with (f <$> l). rewrite list_lookup_fmap, Hj. simpl.
      rewrite reverseOnInstallment_other by assumption. reflexivity.
    + apply length_map.
  - eexists. split; [reflexivity|]. vm_compute. repeat apply conj; reflexivity.
Qed.



(** * The order-level stamp *)

(** C7 -- Order-level stamp frame.  For every event that has no
    installment target, or whose status is not Pago, the handler makes no
    call when the order identifier is missing, and otherwise one [updateDoc]
    call whose patch holds [paymentProvider] and [paymentStatus] (the event's
    status), plus [paymentSessionId] for Stripe when the session identifier
    is not empty, and no [installmentDetails]; the stored order, whatever its
    current [paymentStatus], keeps every other field, and no other order
    changes. *)
Theorem order_level_stamp_frame (prov : Provider) (now : Z) (ev : PaymentEvent)
    (db : gmap string Order) :
  isInstallmentPayment ev = false \/ ev_status ev <> Pago ->
  (ev_orderId ev = "" -> reconcile prov now ev db = None)
  /\ (ev_orderId ev <> "" ->
      reconcile prov now ev db = Some (ev_orderId ev, stampPatch prov ev)
      /\ (forall o, db !! ev_orderId ev = Some o ->
            deliver prov now ev db !! ev_orderId ev = Some (stamped prov ev o)
            /\ installmentDetails (stamped prov ev o) = installmentDetails o)
      /\ (db !! ev_orderId ev = None -> deliver prov now ev db = db)
      /\ (forall id, id <> ev_orderId ev -> deliver prov now ev db !! id = db !! id)).
Proof.
  intros Hbranch. split.
  { intros Hempty. unfold reconcile. rewrite Hempty. reflexivity. }
  intros Hoid.
  assert (isInstallmentPayment ev && Status_eqb (ev_status ev) Pago = false) as Hb.
  { destruct Hbranch as [->|Hst]; [reflexivity|].
    destruct (ev_status ev); try contradiction; apply andb_false_r. }
  assert (reconcile prov now ev db = Some (ev_orderId ev, stampPatch prov ev)) as Hrec.
  { unfold reconcile. destruct (String.eqb_spec (ev_orderId ev) ""); [contradiction|].
    rewrite Hb. reflexivity. }
  repeat apply conj.
  - exact Hrec.
  - intros o Ho. split; [|reflexivity].
    rewrite (deliver_written prov now ev db _ Hrec o Ho), lookup_insert_eq.
    f_equal. unfold applyPatch, stamped, stampPatch. simpl.
    destruct prov; [destruct (String.eqb _ _)|]; reflexivity.
  - intros Hnone. unfold deliver, commit, updateDoc. rewrite Hrec, Hnone. reflexivity.
  - intros id Hid. unfold deliver, commit, updateDoc. rewrite Hrec.
    destruct (db !! ev_orderId ev); [|reflexivity].
    apply lookup_insert_ne. congruence.
Qed.

Lemma order_level_stamp_frame_witness :
  (ev_orderId failedEvent = "" -> reconcile Stripe 1000 failedEvent sampleDb = None)
  /\ (ev_orderId failedEvent <> "" ->
      reconcile Stripe 1000 failedEvent sampleDb
      = Some (ev_orderId failedEvent, stampPatch Stripe failedEvent)
      /\ (forall o, sampleDb !! ev_orderId failedEvent = Some o ->
            deliver Stripe 1000 failedEvent sampleDb !! ev_orderId failedEvent
            = Some (stamped Stripe failedEvent o)
            /\ installmentDetails (stamped Stripe failedEvent o) = installmentDetails o)
      /\ (sampleDb !! ev_orderId failedEvent = None ->
          deliver Stripe 1000 failedEvent sampleDb = sampleDb)
      /\ (forall id, id <> ev_orderId failedEvent ->
            deliver Stripe 1000 failedEvent sampleDb !! id = sampleDb !! id)).
Proof.
  apply (order_level_stamp_frame Stripe 1000 failedEvent sampleDb).
  right. simpl. discriminate.
Defined.

Example stamp_failed_event :
  stampPatch Stripe failedEvent
  = {| patch_installmentDetails := None;
       patch_paymentStatus := Some Falhou;
       patch_paymentProvider := Some "Stripe";
       patch_paymentSessionId := Some "cs_test_7" |}
  /\ paymentStatus <$> (deliver Stripe 1000 failedEvent sampleDb !! "o1") = Some (Some Falhou)
  /\ installmentDetails <$> (deliver Stripe 1000 failedEvent sampleDb !! "o1")
     = Some [sampleInstallment].
Proof. vm_compute. repeat apply conj; reflexivity. Qed.

(** * Gateway failure *)

(** C8, as stated, fails on the status code: the gateway answers 404 and the
    webhook answers 500. *)
Lemma webhook_does_not_relay_gateway_status :
  gw_ok notFound = false
  /\ res_status (mercadopagoPOST (Some "APP_USR-1") "123" notFound 1000
                   "2026-01-05T12:00:00.000Z" sampleDb).1 = 500
  /\ res_status (mercadopagoPOST (Some "APP_USR-1") "123" notFound 1000
                   "2026-01-05T12:00:00.000Z" sampleDb).1 <> gw_status notFound.
Proof.
  repeat apply conj; try reflexivity. vm_compute. discriminate.
Qed.

(** C8 (amended) -- Gateway failure.  When the gateway's payment lookup
    fails, the webhook answers with status 500 and an error that is the
    gateway's message when it has one and a fixed message otherwise, and
    makes no [updateDoc] call, so that no order changes; the retrieve-payment
    endpoint is the one that answers with the gateway's own status code. *)
Theorem gateway_failure_response (accessToken : option string) (paymentId : string)
    (mpRes : GatewayResponse) (now : Z) (nowISO : string) (db : gmap string Order) :
  JS.orOpt accessToken "" <> "" ->
  paymentId <> "" ->
  gw_ok mpRes = false ->
  mercadopagoPOST accessToken paymentId mpRes now nowISO db
  = (mkResponse 500 (Error (JS.orOpt (gw_json mpRes ≫= mp_message) msgLookupFailed)), None)
  /\ commit db (mercadopagoPOST accessToken paymentId mpRes now nowISO db).2 = db
  /\ (forall payment_id, Str.trim (JS.orOpt payment_id "") <> "" ->
        retrievePaymentGET accessToken payment_id mpRes
        = JS.Ok (mkResponse (gw_status mpRes)
                   (Error (JS.orS (JS.orOpt (gw_json mpRes ≫= mp_message)
                                            (JS.orOpt (gw_json mpRes ≫= mp_error) ""))
                                  msgLookupFailed)))).
Proof.
  intros Htoken Hid Hfail.
  assert (mercadopagoPOST accessToken paymentId mpRes now nowISO db
          = (mkResponse 500 (Error (JS.orOpt (gw_json mpRes ≫= mp_message) msgLookupFailed)),
             None)) as Hpost.
  { unfold mercadopagoPOST.
    destruct (String.eqb_spec (JS.orOpt accessToken "") ""); [contradiction|].
    destruct (String.eqb_spec paymentId ""); [contradiction|].
    rewrite Hfail. reflexivity. }
  repeat apply conj.
  - exact Hpost.
  - rewrite Hpost. reflexivity.
  - intros payment_id Hpid. unfold retrievePaymentGET.
    destruct (String.eqb_spec (JS.orOpt accessToken "") ""); [contradiction|].
    destruct (String.eqb_spec (Str.trim (JS.orOpt payment_id "")) ""); [contradiction|].
    rewrite Hfail. reflexivity.
Qed.

Lemma gateway_failure_response_witness :
  mercadopagoPOST (Some "APP_USR-1") "123" notFound 1000 "2026-01-05T12:00:00.000Z" sampleDb
  = (mkResponse 500 (Error (JS.orOpt (gw_json notFound ≫= mp_message) msgLookupFailed)), None)
  /\ commit sampleDb
       (mercadopagoPOST (Some "APP_USR-1") "123" notFound 1000 "2026-01-05T12:00:00.000Z"
          sampleDb).2 = sampleDb
  /\ (forall payment_id, Str.trim (JS.orOpt payment_id "") <> "" ->
        retrievePaymentGET (Some "APP_USR-1") payment_id notFound
        = JS.Ok (mkResponse (gw_status notFound)
                   (Error (JS.orS (JS.orOpt (gw_json notFound ≫= mp_message)
                                            (JS.orOpt (gw_json notFound ≫= mp_error) ""))
                                  msgLookupFailed)))).
Proof.
  apply (gateway_failure_response (Some "APP_USR-1") "123" notFound 1000
           "2026-01-05T12:00:00.000Z" sampleDb).
  - simpl. discriminate.
  - discriminate.
  - reflexivity.
Defined.

(** * The signature verifier *)

Section BufferFacts.

Lemma decodeChar_utf8Char (c : ascii) (r : list Byte.byte) :
  decodeChar (Str.utf8Char c ++ r) = Some (c, r).
Proof.
  destruct c as [[] [] [] [] [] [] [] []]; reflexivity.
Qed.

Lemma utf8_inj (a b : string) : Str.utf8 a = Str.utf8 b -> a = b.
Proof.
  revert b. induction a as [|c a IH]; intros [|d b] Heq; simpl in Heq.
  - reflexivity.
  - apply (f_equal decodeChar) in Heq. rewrite decodeChar_utf8Char in Heq. discriminate.
  - apply (f_equal decodeChar) in Heq. rewrite decodeChar_utf8Char in Heq. discriminate.
  - apply (f_equal decodeChar) in Heq. rewrite !decodeChar_utf8Char in Heq.
    injection Heq as -> Hrest. f_equal. apply IH. exact Hrest.
Qed.

Lemma byte_eqb_eq (x y : Byte.byte) : Byte.eqb x y = true <-> x = y.
Proof.
  split.
  - intros H. apply Byte.byte_dec_bl. exact H.
  - intros ->. apply Byte.byte_dec_lb. reflexivity.
Qed.

Lemma bytes_eqb_eq (a b : list Byte.byte) : Str.bytes_eqb a b = true <-> a = b.
Proof.
  revert b. induction a as [|x a IH]; intros [|y b]; simpl; split; intros H;
    try reflexivity; try discriminate.
  - apply andb_prop in H as [Hxy Hab]. apply byte_eqb_eq in Hxy. apply IH in Hab.
    congruence.
  - injection H as -> ->. apply andb_true_intro. split.
    + apply byte_eqb_eq. reflexivity.
    + apply IH. reflexivity.
Qed.

(** [timingSafeEqual] throws exactly on buffers of different lengths. *)
Lemma timingSafeEqual_throws (a b : list Byte.byte) :
  (exists e, timingSafeEqual a b = JS.Throw e) <-> length a <> length b.
Proof.
  unfold timingSafeEqual. destruct (Nat.eqb_spec (length a) (length b)); split.
  - intros [err Herr]. discriminate.
  - contradiction.
  - intros _. assumption.
  - intros _. eexists. reflexivity.
Qed.

(** The length check comes first: [safeEqualsHex] answers [false] without
    calling [timingSafeEqual] on buffers of different lengths, and calls it
    on buffers of equal lengths only, where it returns. *)
Lemma safeEqualsHex_cases (a b : string) :
  (length (Str.utf8 a) <> length (Str.utf8 b) /\ safeEqualsHex a b = JS.Ok false)
  \/ (length (Str.utf8 a) = length (Str.utf8 b)
      /\ safeEqualsHex a b = timingSafeEqual (Str.utf8 a) (Str.utf8 b)
      /\ timingSafeEqual (Str.utf8 a) (Str.utf8 b)
         = JS.Ok (Str.bytes_eqb (Str.utf8 a) (Str.utf8 b))).
Proof.
  unfold safeEqualsHex, timingSafeEqual.
  destruct (Nat.eqb_spec (length (Str.utf8 a)) (length (Str.utf8 b))); simpl.
  - right. repeat apply conj; reflexivity || assumption.
  - left. split; [assumption|reflexivity].
Qed.

Lemma safeEqualsHex_total (a b : string) :
  safeEqualsHex a b = JS.Ok (bool_decide (a = b)).
Proof.
  destruct (safeEqualsHex_cases a b) as [[Hlen ->]|(Hlen & -> & ->)].
  - rewrite bool_decide_eq_false_2; [reflexivity|]. intros ->. contradiction.
  - f_equal. destruct (Str.bytes_eqb _ _) eqn:Heq.
    + apply bytes_eqb_eq, utf8_inj in Heq. rewrite bool_decide_eq_true_2; auto.
    + rewrite bool_decide_eq_false_2; [reflexivity|]. intros ->.
      assert (Str.bytes_eqb (Str.utf8 b) (Str.utf8 b) = true) by (apply bytes_eqb_eq; reflexivity).
      congruence.
Qed.

(** [some] over a callback that always returns. *)
Lemma some_total {A : Type} (f : A -> JS.result bool) (g : A -> bool) (l : list A) :
  (forall x, f x = JS.Ok (g x)) -> some f l = JS.Ok (existsb g l).
Proof.
  intros Hf. induction l as [|x l IH]; simpl; [reflexivity|].
  rewrite Hf. destruct (g x); simpl; [reflexivity|exact IH].
Qed.

End BufferFacts.

Section VerifierFacts.

Variables (payload signatureHeader webhookSecret : string).

(** The verifier never throws: its result is the boolean below. *)
Lemma verifyStripeSignature_value :
  verifyStripeSignature payload signatureHeader webhookSecret
  = JS.Ok (negb (String.eqb (headerTimestamp signatureHeader) "")
           && existsb (fun sig => bool_decide (sig = (expectedSignature payload signatureHeader webhookSecret)))
                      (headerSignatures signatureHeader)).
Proof.
  unfold verifyStripeSignature. cbv zeta.
  change (createHmacSha256Hex webhookSecret
            (headerTimestamp signatureHeader +:+ "." +:+ payload))
    with (expectedSignature payload signatureHeader webhookSecret).
  rewrite (some_total (fun sig => safeEqualsHex sig (expectedSignature payload signatureHeader webhookSecret))
             (fun sig => bool_decide (sig = (expectedSignature payload signatureHeader webhookSecret))))
    by (intros sig; apply safeEqualsHex_total).
  destruct (String.eqb (headerTimestamp signatureHeader) ""); [reflexivity|].
  destruct (headerSignatures signatureHeader); reflexivity.
Qed.

Lemma verifyStripeSignature_accepts :
  verifyStripeSignature payload signatureHeader webhookSecret = JS.Ok true
  <-> headerTimestamp signatureHeader <> ""
      /\ In (expectedSignature payload signatureHeader webhookSecret) (headerSignatures signatureHeader).
Proof.
  rewrite verifyStripeSignature_value. split.
  - intros [= H]. apply andb_prop in H as [Hts Hex]. split.
    + destruct (String.eqb_spec (headerTimestamp signatureHeader) ""); [discriminate|assumption].
    + apply existsb_exists in Hex as [sig [Hin Hsig]].
      apply bool_decide_eq_true_1 in Hsig. subst sig. exact Hin.
  - intros [Hts Hin]. f_equal. apply andb_true_intro. split.
    + destruct (String.eqb_spec (headerTimestamp signatureHeader) ""); [contradiction|reflexivity].
    + apply existsb_exists. exists (expectedSignature payload signatureHeader webhookSecret). split; [assumption|].
      apply bool_decide_eq_true_2. reflexivity.
Qed.

Lemma verifyStripeSignature_rejects :
  verifyStripeSignature payload signatureHeader webhookSecret = JS.Ok false
  <-> ~ (headerTimestamp signatureHeader <> ""
         /\ In (expectedSignature payload signatureHeader webhookSecret) (headerSignatures signatureHeader)).
Proof.
  rewrite <- verifyStripeSignature_accepts, verifyStripeSignature_value.
  destruct (_ && _); split; intros H; try reflexivity; try congruence.
Qed.

End VerifierFacts.

(** A request whose signature is not accepted answers 400 and never reaches
    the reconciler. *)
Lemma stripePOST_invalid_signature JSON_parse dateISO secret rawBody signature nowISO now db :
  secret <> "" ->
  verifyStripeSignature rawBody (JS.orOpt signature "") secret = JS.Ok false ->
  stripePOST JSON_parse dateISO (Some secret) rawBody signature nowISO now db
  = JS.Ok (mkResponse 400 (Error msgInvalidSignature), None).
Proof.
  intros Hsecret Hverify. unfold stripePOST. rewrite Hverify.
  destruct secret; [contradiction|reflexivity].
Qed.

Section DigestFacts.

Lemma bigEndian_length n x : length (SHA256.bigEndian n x) = n.
Proof. induction n as [|k IH]; simpl; [reflexivity|]. rewrite IH. reflexivity. Qed.

Lemma bigEndian_bytes n x : Forall isByte (SHA256.bigEndian n x).
Proof.
  induction n as [|k IH]; simpl; constructor; [|exact IH].
  unfold isByte. change 255 with (Z.ones 8). rewrite Z.land_ones by lia.
  apply Z.mod_pos_bound. lia.
Qed.

Lemma concat_bigEndian_length n (ws : list Z) :
  length (concat (map (SHA256.bigEndian n) ws)) = (n * length ws)%nat.
Proof.
  induction ws as [|w ws IH]; simpl; [lia|].
  rewrite length_app, bigEndian_length, IH. lia.
Qed.

Lemma concat_bigEndian_bytes n (ws : list Z) :
  Forall isByte (concat (map (SHA256.bigEndian n) ws)).
Proof.
  induction ws as [|w ws IH]; simpl; [constructor|].
  apply Forall_app. split; [apply bigEndian_bytes|exact IH].
Qed.

Lemma digest_length msg : length (SHA256.digest msg) = 32%nat.
Proof. unfold SHA256.digest. cbv zeta. rewrite concat_bigEndian_length. reflexivity. Qed.

Lemma digest_bytes msg : Forall isByte (SHA256.digest msg).
Proof. unfold SHA256.digest. cbv zeta. apply concat_bigEndian_bytes. Qed.

Lemma hexDigit_isHexChar n : 0 <= n < 16 -> isHexChar (Str.hexDigit n) = true.
Proof.
  intros Hn.
  assert (forallb (fun k => isHexChar (Str.hexDigit (Z.of_nat k))) (seq 0 16) = true)
    as Hall by reflexivity.
  rewrite forallb_forall in Hall. specialize (Hall (Z.to_nat n)).
  rewrite Z2Nat.id in Hall by lia. apply Hall, in_seq. lia.
Qed.

Lemma hex_chars bs : Forall isByte bs -> allChars isHexChar (Str.hex bs) = true.
Proof.
  induction 1 as [|b bs Hb _ IH]; simpl; [reflexivity|]. unfold isByte in Hb.
  rewrite !hexDigit_isHexChar, IH; [reflexivity| |].
  - apply Z.mod_pos_bound. lia.
  - split; [apply Z.div_pos; lia|apply Z.div_lt_upper_bound; lia].
Qed.

Lemma hex_length bs : String.length (Str.hex bs) = (2 * length bs)%nat.
Proof. induction bs as [|b bs IH]; simpl; [reflexivity|]. rewrite IH. lia. Qed.

(** A character below 128 takes one byte. *)
Lemma utf8_length_ascii (P : ascii -> bool) (s : string) :
  (forall c, P c = true -> (N_of_ascii c < 128)%N) ->
  allChars P s = true -> length (Str.utf8 s) = String.length s.
Proof.
  intros HP. induction s as [|c s IH]; simpl; [reflexivity|].
  intros H. apply andb_prop in H as [Hc Hs].
  rewrite length_app, IH by assumption. unfold Str.utf8Char.
  destruct (N.ltb_spec (N_of_ascii c) 128) as [_|Hge]; [reflexivity|].
  apply HP in Hc. lia.
Qed.

Lemma isHexChar_ascii c : isHexChar c = true -> (N_of_ascii c < 128)%N.
Proof. unfold isHexChar. lia. Qed.

(** The expected signature is 64 lowercase hexadecimal digits, 64 bytes in
    UTF-8. *)
Lemma createHmacSha256Hex_shape key data :
  allChars isHexChar (createHmacSha256Hex key data) = true
  /\ String.length (createHmacSha256Hex key data) = 64%nat
  /\ length (Str.utf8 (createHmacSha256Hex key data)) = 64%nat.
Proof.
  unfold createHmacSha256Hex, SHA256.hmac. cbv zeta.
  assert (forall m, allChars isHexChar (Str.hex (SHA256.digest m)) = true) as Hchars.
  { intros m. apply hex_chars, digest_bytes. }
  assert (forall m, String.length (Str.hex (SHA256.digest m)) = 64%nat) as Hlen.
  { intros m. rewrite hex_length, digest_length. reflexivity. }
  repeat apply conj; [apply Hchars|apply Hlen|].
  rewrite (utf8_length_ascii isHexChar); [apply Hlen|apply isHexChar_ascii|apply Hchars].
Qed.

End DigestFacts.

Section HeaderFacts.

Lemma isHexChar_plain c : isHexChar c = true -> plainChar c = true.
Proof.
  unfold isHexChar, plainChar, Str.isWhiteSpace. intros H.
  assert (Ascii.eqb c "," = false) as ->.
  { apply Ascii.eqb_neq. intros ->. simpl in H. discriminate. }
  lia.
Qed.

Lemma allChars_impl (P Q : ascii -> bool) s :
  (forall c, P c = true -> Q c = true) -> allChars P s = true -> allChars Q s = true.
Proof.
  intros HPQ. induction s as [|c s IH]; simpl; [reflexivity|].
  intros H. apply andb_prop in H as [Hc Hs]. rewrite (HPQ c Hc), IH; auto.
Qed.

Lemma append_cons c (s1 s2 : string) : String c s1 +:+ s2 = String c (s1 +:+ s2).
Proof. reflexivity. Qed.

Lemma append_nil (s : string) : "" +:+ s = s.
Proof. reflexivity. Qed.

Lemma allChars_app P s1 s2 :
  allChars P (s1 +:+ s2) = allChars P s1 && allChars P s2.
Proof.
  induction s1 as [|c s1 IH]; [reflexivity|].
  rewrite append_cons. simpl. rewrite IH. apply andb_assoc.
Qed.

Lemma append_assoc (s1 s2 s3 : string) : (s1 +:+ s2) +:+ s3 = s1 +:+ (s2 +:+ s3).
Proof.
  induction s1 as [|c s1 IH]; [reflexivity|].
  rewrite !append_cons. f_equal. exact IH.
Qed.

Lemma split_plain s : allChars plainChar s = true -> Str.split "," s = [s].
Proof.
  induction s as [|c s IH]; simpl; [reflexivity|].
  intros H. apply andb_prop in H as [Hc Hs]. unfold plainChar in Hc.
  apply andb_prop in Hc as [_ Hc]. apply negb_true_iff in Hc. rewrite Hc, IH by assumption.
  reflexivity.
Qed.

Lemma split_plain_app s1 s2 :
  allChars plainChar s1 = true ->
  Str.split "," (s1 +:+ String "," s2) = s1 :: Str.split "," s2.
Proof.
  induction s1 as [|c s1 IH]; [reflexivity|].
  rewrite append_cons. simpl.
  intros H. apply andb_prop in H as [Hc Hs]. unfold plainChar in Hc.
  apply andb_prop in Hc as [_ Hc]. apply negb_true_iff in Hc. rewrite Hc, IH by assumption.
  reflexivity.
Qed.

Lemma trimEnd_plain s : allChars plainChar s = true -> Str.trimEnd s = s.
Proof.
  induction s as [|c s IH]; simpl; [reflexivity|].
  intros H. apply andb_prop in H as [Hc Hs]. rewrite IH by assumption.
  unfold plainChar in Hc. apply andb_prop in Hc as [Hc _]. apply negb_true_iff in Hc.
  rewrite Hc. destruct s; reflexivity.
Qed.

Lemma trim_plain s : allChars plainChar s = true -> Str.trim s = s.
Proof.
  intros H. unfold Str.trim.
  assert (Str.trimStart s = s) as ->; [|apply trimEnd_plain; assumption].
  destruct s as [|c s]; [reflexivity|]. simpl in *.
  apply andb_prop in H as [Hc _]. unfold plainChar in Hc.
  apply andb_prop in Hc as [Hc _]. apply negb_true_iff in Hc. rewrite Hc. reflexivity.
Qed.

Lemma startsWith_nil s : Str.startsWith "" s = true.
Proof. destruct s; reflexivity. Qed.

(** The header [t=<t>,v1=<sig>] for a timestamp and a signature without
    white space or comma parses into that timestamp and that signature. *)
Lemma header_parse (t sig : string) :
  allChars plainChar t = true -> allChars plainChar sig = true ->
  headerTimestamp ("t=" +:+ t +:+ ",v1=" +:+ sig) = t
  /\ headerSignatures ("t=" +:+ t +:+ ",v1=" +:+ sig) = [sig].
Proof.
  intros Ht Hsig.
  assert (headerParts ("t=" +:+ t +:+ ",v1=" +:+ sig) = ["t=" +:+ t; "v1=" +:+ sig]) as Hparts.
  { unfold headerParts.
    replace ("t=" +:+ t +:+ ",v1=" +:+ sig) with (("t=" +:+ t) +:+ String "," ("v1=" +:+ sig))
      by (rewrite append_assoc; reflexivity).
    rewrite split_plain_app by (simpl; exact Ht).
    rewrite split_plain by (simpl; exact Hsig).
    simpl map. rewrite !trim_plain by (simpl; assumption). reflexivity. }
  unfold headerTimestamp, headerSignatures. rewrite Hparts.
  change ("t=" +:+ t) with (String "t" (String "=" t)).
  change ("v1=" +:+ sig) with (String "v" (String "1" (String "=" sig))).
  simpl. rewrite !startsWith_nil. simpl. split; [|reflexivity]. unfold JS.orS. destruct (String.eqb_spec t ""); congruence.
Qed.

End HeaderFacts.

(** C5 -- Signature verification.  The verifier accepts exactly when the
    header yields a non-empty timestamp [t] and one of its [v1] values is the
    lowercase hexadecimal HMAC-SHA256 of [t.payload] under the secret; it
    rejects otherwise, in particular on an empty header, on a header without
    timestamp and on a header without [v1] value.  Hence a tampered body
    whose digest is not among the header's values is rejected under the
    unmodified header, and is accepted under a header that carries the
    digest recomputed for it. *)
Theorem verifyStripeSignature_correct (payload signatureHeader webhookSecret : string) :
  let t := headerTimestamp signatureHeader in
  let candidates := headerSignatures signatureHeader in
  let expected := createHmacSha256Hex webhookSecret (t +:+ "." +:+ payload) in
  (verifyStripeSignature payload signatureHeader webhookSecret = JS.Ok true
   <-> t <> "" /\ In expected candidates)
  /\ (verifyStripeSignature payload signatureHeader webhookSecret = JS.Ok false
      <-> ~ (t <> "" /\ In expected candidates))
  /\ verifyStripeSignature payload "" webhookSecret = JS.Ok false
  /\ (t = "" -> verifyStripeSignature payload signatureHeader webhookSecret = JS.Ok false)
  /\ (candidates = [] ->
      verifyStripeSignature payload signatureHeader webhookSecret = JS.Ok false)
  /\ (forall tampered,
        ~ In (createHmacSha256Hex webhookSecret (t +:+ "." +:+ tampered)) candidates ->
        verifyStripeSignature tampered signatureHeader webhookSecret = JS.Ok false)
  /\ (forall tampered t',
        t' <> "" -> allChars plainChar t' = true ->
        verifyStripeSignature tampered
          ("t=" +:+ t' +:+ ",v1=" +:+ createHmacSha256Hex webhookSecret (t' +:+ "." +:+ tampered))
          webhookSecret = JS.Ok true)
  /\ verifyStripeSignature sampleBody sampleHeader sampleSecret = JS.Ok true
  /\ verifyStripeSignature tamperedBody sampleHeader sampleSecret = JS.Ok false
  /\ verifyStripeSignature tamperedBody recomputedHeader sampleSecret = JS.Ok true.
Proof.
  intros t candidates expected. subst t candidates expected.
  repeat match goal with |- _ /\ _ => split end.
  - exact (verifyStripeSignature_accepts payload signatureHeader webhookSecret).
  - exact (verifyStripeSignature_rejects payload signatureHeader webhookSecret).
  - reflexivity.
  - intros Ht.
    apply (proj2 (verifyStripeSignature_rejects payload signatureHeader webhookSecret)).
    intros [Hne _]. contradiction.
  - intros Hnone.
    apply (proj2 (verifyStripeSignature_rejects payload signatureHeader webhookSecret)).
    intros [_ Hin]. rewrite Hnone in Hin. contradiction.
  - intros tampered Hnot.
    apply (proj2 (verifyStripeSignature_rejects tampered signatureHeader webhookSecret)).
    intros [_ Hin]. contradiction.
  - intros tampered t' Hne Hplain.
    pose proof (createHmacSha256Hex_shape webhookSecret (t' +:+ "." +:+ tampered))
      as (Hhex & _ & _).
    apply (allChars_impl _ plainChar _ isHexChar_plain) in Hhex.
    destruct (header_parse t' _ Hplain Hhex) as [Hts Hsigs].
    apply (proj2 (verifyStripeSignature_accepts tampered _ webhookSecret)).
    unfold expectedSignature. rewrite Hts, Hsigs. split; [assumption|]. left. reflexivity.
  - vm_compute. reflexivity.
  - vm_compute. reflexivity.
  - vm_compute. reflexivity.
Qed.

(** C10 -- Totality of the verifier.  For every payload, header and secret
    the verifier returns a boolean and does not throw.  The expected digest
    is 64 bytes long; a candidate of another UTF-8 byte length is answered
    [false] by the length check of [safeEqualsHex], and [timingSafeEqual],
    which throws exactly on buffers of different lengths, is called on
    buffers of equal lengths only.  The candidate of 64 characters and 65
    bytes is rejected, where [timingSafeEqual] alone would throw. *)
Theorem verifyStripeSignature_total (payload signatureHeader webhookSecret : string) :
  (exists b, verifyStripeSignature payload signatureHeader webhookSecret = JS.Ok b)
  /\ (forall key data, length (Str.utf8 (createHmacSha256Hex key data)) = 64%nat)
  /\ (forall sig key data,
        length (Str.utf8 sig) <> 64%nat ->
        safeEqualsHex sig (createHmacSha256Hex key data) = JS.Ok false)
  /\ (forall a b,
        (length (Str.utf8 a) <> length (Str.utf8 b) /\ safeEqualsHex a b = JS.Ok false)
        \/ (length (Str.utf8 a) = length (Str.utf8 b)
            /\ safeEqualsHex a b = timingSafeEqual (Str.utf8 a) (Str.utf8 b)
            /\ timingSafeEqual (Str.utf8 a) (Str.utf8 b)
               = JS.Ok (Str.bytes_eqb (Str.utf8 a) (Str.utf8 b))))
  /\ (forall x y, (exists e, timingSafeEqual x y = JS.Throw e) <-> length x <> length y)
  /\ String.length wideCandidate = 64%nat
  /\ length (Str.utf8 wideCandidate) = 65%nat
  /\ safeEqualsHex wideCandidate (createHmacSha256Hex sampleSecret "1700000000.{id:1}")
     = JS.Ok false
  /\ timingSafeEqual (Str.utf8 wideCandidate)
       (Str.utf8 (createHmacSha256Hex sampleSecret "1700000000.{id:1}"))
     = JS.Throw "ERR_CRYPTO_TIMING_SAFE_EQUAL_LENGTH".
Proof.
  repeat match goal with |- _ /\ _ => split end.
  - rewrite verifyStripeSignature_value. eexists. reflexivity.
  - intros key data. destruct (createHmacSha256Hex_shape key data) as (_ & _ & H). exact H.
  - intros sig key data Hlen.
    destruct (safeEqualsHex_cases sig (createHmacSha256Hex key data)) as [[_ H]|[Heq _]].
    + exact H.
    + exfalso. apply Hlen. rewrite Heq.
      destruct (createHmacSha256Hex_shape key data) as (_ & _ & H). exact H.
  - apply safeEqualsHex_cases.
  - apply timingSafeEqual_throws.
  - vm_compute. reflexivity.
  - vm_compute. reflexivity.
  - vm_compute. reflexivity.
  - vm_compute. reflexivity.
Qed.

(** * Further properties of the reconciler *)

Section StoreFacts.

Variable prov : Provider.

Lemma reconcile_target now ev db id p :
  reconcile prov now ev db = Some (id, p) -> id = ev_orderId ev /\ id <> "".
Proof.
  unfold reconcile. destruct (String.eqb_spec (ev_orderId ev) ""); [discriminate|].
  destruct (_ && _); [destruct (existsb _ _)|]; intros H; try discriminate;
    injection H as <- _; split; auto.
Qed.

(** The two shapes of a write: the order-level stamp, or the credited
    schedule of the stored order with at most [paymentStatus] Pago beside. *)
Lemma reconcile_shapes now ev db id p :
  reconcile prov now ev db = Some (id, p) ->
  p = stampPatch prov ev
  \/ (exists o n,
        db !! ev_orderId ev = Some o
        /\ patch_installmentDetails p
           = Some (map (fun inst => (creditInstallment prov now ev n inst).1)
                       (installmentDetails o))
        /\ (patch_paymentStatus p = None \/ patch_paymentStatus p = Some Pago)
        /\ patch_paymentProvider p = None
        /\ patch_paymentSessionId p = None).
Proof.
  unfold reconcile. destruct (String.eqb _ _); [discriminate|].
  destruct (_ && _).
  - destruct (db !! ev_orderId ev) as [o|]; [|discriminate].
    destruct (existsb _ _); [|discriminate].
    intros [= _ <-]. right. exists o, (default 0 (ev_installmentNumber ev)). simpl.
    rewrite map_map. repeat match goal with |- _ /\ _ => split end; try reflexivity.
    destruct (allPaid _); auto.
  - intros [= _ <-]. left. reflexivity.
Qed.

Lemma updateDoc_dom (db : gmap string Order) id p : dom (updateDoc db id p) = dom db.
Proof.
  unfold updateDoc. destruct (db !! id) as [o|] eqn:Ho; [|reflexivity].
  rewrite dom_insert_L. apply subseteq_union_1_L, singleton_subseteq_l.
  apply elem_of_dom_2 in Ho. exact Ho.
Qed.

Lemma updateDoc_other (db : gmap string Order) id p id' :
  id' <> id -> updateDoc db id p !! id' = db !! id'.
Proof.
  intros Hne. unfold updateDoc. destruct (db !! id); [|reflexivity].
  apply lookup_insert_ne. congruence.
Qed.

(** The fields a credit leaves alone, and the payments it keeps. *)
Lemma creditInstallment_frame now ev n inst :
  let credited := (creditInstallment prov now ev n inst).1 in
  inst_id credited = inst_id inst
  /\ installmentNumber credited = installmentNumber inst
  /\ inst_amount credited = inst_amount inst
  /\ dueDate credited = dueDate inst
  /\ (payments credited = payments inst
      \/ exists p, payments credited = payments inst ++ [p] /\ pay_amount p = ev_amount ev).
Proof.
  unfold creditInstallment.
  destruct (negb _); [simpl; auto 10|].
  destruct (alreadyRecorded _ _); simpl; [auto 10|].
  repeat match goal with |- _ /\ _ => split end; try reflexivity.
  right. eexists. split; reflexivity.
Qed.

End StoreFacts.

(** X1 -- Store frame of a delivery.  Whatever the event and the branch it
    takes, a delivery neither creates nor deletes an order document, and
    every order other than the one the event names is left as it is; the
    same holds for the store after the Mercado Pago webhook. *)
Theorem deliver_store_frame (prov : Provider) (now : Z) (ev : PaymentEvent)
    (db : gmap string Order) :
  dom (deliver prov now ev db) = dom db
  /\ (forall id, id <> ev_orderId ev -> deliver prov now ev db !! id = db !! id)
  /\ (forall accessToken paymentId mpRes nowISO,
        let after := commit db (mercadopagoPOST accessToken paymentId mpRes now nowISO db).2 in
        dom after = dom db
        /\ forall id, id <> JS.orOpt (gw_json mpRes ≫= mp_external_reference) "" ->
             after !! id = db !! id).
Proof.
  assert (forall prov' ev',
            dom (deliver prov' now ev' db) = dom db
            /\ (forall id, id <> ev_orderId ev' -> deliver prov' now ev' db !! id = db !! id))
    as Hdeliver.
  { intros prov' ev'. unfold deliver, commit.
    destruct (reconcile prov' now ev' db) as [[id p]|] eqn:Hrec; [|auto].
    apply reconcile_target in Hrec as [-> _]. split.
    - apply updateDoc_dom.
    - intros id Hid. apply updateDoc_other. assumption. }
  split; [apply Hdeliver|]. split; [apply Hdeliver|].
  intros accessToken paymentId mpRes nowISO. unfold mercadopagoPOST.
  destruct (String.eqb _ _); [simpl; auto|].
  destruct (String.eqb _ _); [simpl; auto|].
  destruct (negb _); [simpl; auto|].
  cbn [snd]. apply (Hdeliver MercadoPago (mercadopagoEvent (gw_json mpRes) nowISO)).
Qed.

(** X2 -- Schedule frame of a delivery.  For every stored order, the order
    after a delivery has a schedule of the same length in which every
    installment keeps its identifier, number, amount and due date and its
    recorded payments, with at most one payment of the event's amount
    appended; the order keeps its identifier, total, payment method and
    installment count. *)
Theorem deliver_schedule_frame (prov : Provider) (now : Z) (ev : PaymentEvent)
    (db : gmap string Order) (id : string) (o : Order) :
  db !! id = Some o ->
  exists o',
    deliver prov now ev db !! id = Some o'
    /\ order_id o' = order_id o /\ total o' = total o
    /\ paymentMethod o' = paymentMethod o /\ installments o' = installments o
    /\ length (installmentDetails o') = length (installmentDetails o)
    /\ (forall k inst, installmentDetails o !! k = Some inst ->
          exists inst',
            installmentDetails o' !! k = Some inst'
            /\ inst_id inst' = inst_id inst
            /\ installmentNumber inst' = installmentNumber inst
            /\ inst_amount inst' = inst_amount inst
            /\ dueDate inst' = dueDate inst
            /\ (payments inst' = payments inst
                \/ exists p, payments inst' = payments inst ++ [p]
                             /\ pay_amount p = ev_amount ev)).
Proof.
  intros Ho.
  assert (forall o0, o0 = o ->
            order_id o0 = order_id o /\ total o0 = total o
            /\ paymentMethod o0 = paymentMethod o /\ installments o0 = installments o
            /\ length (installmentDetails o0) = length (installmentDetails o)
            /\ (forall k inst, installmentDetails o !! k = Some inst ->
                  exists inst',
                    installmentDetails o0 !! k = Some inst'
                    /\ inst_id inst' = inst_id inst
                    /\ installmentNumber inst' = installmentNumber inst
                    /\ inst_amount inst' = inst_amount inst
                    /\ dueDate inst' = dueDate inst
                    /\ (payments inst' = payments inst
                        \/ exists p, payments inst' = payments inst ++ [p]
                                     /\ pay_amount p = ev_amount ev))) as Hsame.
  { intros o0 ->. repeat match goal with |- _ /\ _ => split end; try reflexivity.
    intros k inst Hk. exists inst. auto 10. }
  unfold deliver, commit.
  destruct (reconcile prov now ev db) as [[id' p]|] eqn:Hrec.
  2:{ exists o. split; [assumption|]. apply Hsame. reflexivity. }
  pose proof (reconcile_target prov now ev db id' p Hrec) as [-> _].
  destruct (decide (id = ev_orderId ev)) as [->|Hne].
  2:{ exists o. split; [rewrite updateDoc_other by assumption; assumption|].
      apply Hsame. reflexivity. }
  unfold updateDoc. rewrite Ho, lookup_insert_eq. eexists. split; [reflexivity|].
  destruct (reconcile_shapes prov now ev db _ p Hrec)
    as [->|(o1 & n & Ho1 & Hdet & _ & _ & _)].
  - unfold applyPatch, stampPatch. simpl.
    repeat match goal with |- _ /\ _ => split end; try reflexivity.
    intros k inst Hk. exists inst. auto 10.
  - rewrite Ho in Ho1. injection Ho1 as <-.
    unfold applyPatch. simpl. rewrite Hdet. simpl.
    repeat match goal with |- _ /\ _ => split end; try reflexivity.
    + apply length_map.
    + intros k inst Hk. eexists. split.
      * change (map ?f ?l) with (f <$> l). rewrite list_lookup_fmap, Hk. reflexivity.
      * apply creditInstallment_frame.
Qed.

Lemma deliver_schedule_frame_witness :
  exists o',
    deliver Stripe 1000 (sampleEvent "cs_a") sampleDb !! "o1" = Some o'
    /\ order_id o' = order_id sampleOrder /\ total o' = total sampleOrder
    /\ paymentMethod o' = paymentMethod sampleOrder
    /\ installments o' = installments sampleOrder
    /\ length (installmentDetails o') = length (installmentDetails sampleOrder)
    /\ (forall k inst, installmentDetails sampleOrder !! k = Some inst ->
          exists inst',
            installmentDetails o' !! k = Some inst'
            /\ inst_id inst' = inst_id inst
            /\ installmentNumber inst' = installmentNumber inst
            /\ inst_amount inst' = inst_amount inst
            /\ dueDate inst' = dueDate inst
            /\ (payments inst' = payments inst
                \/ exists p, payments inst' = payments inst ++ [p]
                             /\ pay_amount p = ev_amount (sampleEvent "cs_a"))).
Proof.
  apply (deliver_schedule_frame Stripe 1000 (sampleEvent "cs_a") sampleDb "o1" sampleOrder).
  vm_compute. reflexivity.
Defined.

(** X3 -- A payment without target is dropped.  When an installment-targeted
    Pago event names an order that is not stored, or an installment number
    that no installment of the stored order carries, the handler makes no
    [updateDoc] call and the store is unchanged: the payment is recorded
    nowhere. *)
Theorem reconcile_untargeted_dropped (prov : Provider) (now : Z) (ev : PaymentEvent)
    (db : gmap string Order) (n : Z) :
  ev_installmentNumber ev = Some n -> 0 < n ->
  ev_status ev = Pago ->
  (forall o inst, db !! ev_orderId ev = Some o -> In inst (installmentDetails o) ->
     installmentNumber inst <> n) ->
  reconcile prov now ev db = None /\ deliver prov now ev db = db.
Proof.
  intros Hn Hpos Hst Hnone.
  assert (reconcile prov now ev db = None) as Hrec.
  { destruct (db !! ev_orderId ev) as [o|] eqn:Ho.
    - apply (reconcile_duplicate_noop prov now ev db o n); try assumption.
      intros inst Hin Hnum. exfalso. exact (Hnone o inst eq_refl Hin Hnum).
    - apply reconcile_missing_order; [|assumption].
      unfold isInstallmentPayment. rewrite Hn, Hst.
      destruct (Z.ltb_spec 0 n); [reflexivity|lia]. }
  split; [assumption|]. unfold deliver. rewrite Hrec. reflexivity.
Qed.

Lemma reconcile_untargeted_dropped_witness :
  reconcile Stripe 1000
    {| ev_orderId := "o1"; ev_amount := 25%float; ev_status := Pago;
       ev_externalPaymentId := "cs_x"; ev_timestamp := "2026-01-05T12:00:00.000Z";
       ev_installmentNumber := Some 7 |} sampleDb = None
  /\ deliver Stripe 1000
       {| ev_orderId := "o1"; ev_amount := 25%float; ev_status := Pago;
          ev_externalPaymentId := "cs_x"; ev_timestamp := "2026-01-05T12:00:00.000Z";
          ev_installmentNumber := Some 7 |} sampleDb = sampleDb.
Proof.
  apply (reconcile_untargeted_dropped Stripe 1000
           {| ev_orderId := "o1"; ev_amount := 25%float; ev_status := Pago;
              ev_externalPaymentId := "cs_x"; ev_timestamp := "2026-01-05T12:00:00.000Z";
              ev_installmentNumber := Some 7 |} sampleDb 7).
  - reflexivity.
  - lia.
  - reflexivity.
  - intros o inst Ho Hin. vm_compute in Ho. injection Ho as <-.
    simpl in Hin. destruct Hin as [<-|[]]. simpl. lia.
Defined.

Section CreditFacts.

Variable prov : Provider.


Lemma reconcile_stamp now ev db :
  ev_orderId ev <> "" ->
  isInstallmentPayment ev && Status_eqb (ev_status ev) Pago = false ->
  reconcile prov now ev db = Some (ev_orderId ev, stampPatch prov ev).
Proof.
  intros Hoid Hb. unfold reconcile.
  destruct (String.eqb_spec (ev_orderId ev) ""); [contradiction|].
  rewrite Hb. reflexivity.
Qed.

End CreditFacts.



(** X5 -- A failed asynchronous payment never reaches the schedule.  For the
    event type [checkout.session.async_payment_failed] with an accepted
    signature, the Stripe webhook answers 200 and, whatever the session's
    [payment_status] and installment metadata, its only write is the
    order-level stamp with status Falhou, which carries no
    [installmentDetails]; without order identifier it writes nothing. *)
Theorem stripe_failed_event_stamps_order
    (JSON_parse : string -> option (string * option StripeSession))
    (dateISO : float -> option string)
    (secret rawBody : string) (signature : option string)
    (session : option StripeSession) (nowISO : string) (now : Z)
    (db : gmap string Order) :
  secret <> "" ->
  verifyStripeSignature rawBody (JS.orOpt signature "") secret = JS.Ok true ->
  JSON_parse rawBody = Some ("checkout.session.async_payment_failed", session) ->
  let ev := stripeEvent "checkout.session.async_payment_failed" session nowISO in
  ev_status ev = Falhou
  /\ stripePOST JSON_parse dateISO (Some secret) rawBody signature nowISO now db
     = JS.Ok (mkResponse 200 Received,
              if String.eqb (ev_orderId ev) "" then None
              else Some (ev_orderId ev, stampPatch Stripe ev))
  /\ patch_installmentDetails (stampPatch Stripe ev) = None
  /\ patch_paymentStatus (stampPatch Stripe ev) = Some Falhou.
Proof.
  intros Hsecret Hverify Hparse ev.
  assert (ev_status ev = Falhou) as Hst by reflexivity.
  split; [assumption|]. split; [|split; reflexivity].
  unfold stripePOST. rewrite Hverify, Hparse. destruct secret; [contradiction|].
  change (shouldUpdate "checkout.session.async_payment_failed") with true.
  cbn [negb]. fold ev. rewrite Hst. cbn [Status_eqb]. rewrite !andb_false_r.
  do 2 f_equal.
  destruct (String.eqb_spec (ev_orderId ev) "") as [Hempty|Hoid].
  - unfold reconcile. rewrite Hempty. reflexivity.
  - apply reconcile_stamp; [assumption|]. rewrite Hst. apply andb_false_r.
Qed.

Lemma stripe_failed_event_stamps_order_witness :
  let ev := stripeEvent "checkout.session.async_payment_failed" (Some paidInstallmentSession)
              "2026-01-05T12:00:00.000Z" in
  ev_status ev = Falhou
  /\ stripePOST sampleParse sampleDateISO (Some sampleSecret) failedEventBody
       (Some failedEventHeader) "2026-01-05T12:00:00.000Z" 1000 sampleDb
     = JS.Ok (mkResponse 200 Received,
              if String.eqb (ev_orderId ev) "" then None
              else Some (ev_orderId ev, stampPatch Stripe ev))
  /\ patch_installmentDetails (stampPatch Stripe ev) = None
  /\ patch_paymentStatus (stampPatch Stripe ev) = Some Falhou.
Proof.
  apply (stripe_failed_event_stamps_order sampleParse sampleDateISO sampleSecret
           failedEventBody (Some failedEventHeader) (Some paidInstallmentSession)
           "2026-01-05T12:00:00.000Z" 1000 sampleDb).
  - discriminate.
  - vm_compute. reflexivity.
  - vm_compute. reflexivity.
Defined.


Section AmountFacts.

Lemma or0_not_NaN (x : float) : JS.isNaN (JS.or0 x) = false.
Proof.
  unfold JS.or0, JS.truthy. destruct (JS.isNaN x) eqn:Hx; simpl; [reflexivity|].
  destruct (x =? 0)%float; simpl; [reflexivity|assumption].
Qed.

Lemma ltb_leb (x y : float) : (x <? y)%float = true -> (x <=? y)%float = true.
Proof.
  rewrite FloatAxioms.ltb_spec, FloatAxioms.leb_spec. unfold SFltb, SFleb.
  destruct (SFcompare _ _) as [[]|]; congruence.
Qed.

Lemma max0_nonneg (x : float) : JS.isNaN x = false -> (0 <=? JS.max0 x)%float = true.
Proof.
  intros Hx. unfold JS.max0. rewrite Hx.
  destruct (0 <? x)%float eqn:Hpos; [apply ltb_leb; assumption|reflexivity].
Qed.

Lemma max0_NaN (x : float) : JS.isNaN (JS.max0 x) = JS.isNaN x.
Proof.
  unfold JS.max0. destruct (JS.isNaN x) eqn:Hx; [assumption|].
  destruct (0 <? x)%float; [assumption|reflexivity].
Qed.

(** A number that compares as at least zero is not below zero. *)
Lemma leb_not_ltb (x : float) : (0 <=? x)%float = true -> (x <? 0)%float = false.
Proof.
  rewrite FloatAxioms.ltb_spec, FloatAxioms.leb_spec.
  change (Prim2SF 0) with (S754_zero false). unfold SFleb, SFltb.
  destruct (Prim2SF x) as [s|[]| |[] m e]; simpl; congruence.
Qed.

(** [NaN] is below nothing. *)
Lemma NaN_not_ltb (x y : float) : JS.isNaN x = true -> (x <? y)%float = false.
Proof.
  unfold JS.isNaN. rewrite FloatAxioms.eqb_spec, FloatAxioms.ltb_spec.
  unfold SFeqb, SFltb. destruct (Prim2SF x) as [s|[]| |s m e]; simpl;
    try discriminate; try reflexivity.
  rewrite Z.compare_refl, Pos.compare_cont_refl. destruct s; discriminate.
Qed.

Lemma max0_not_negative (x : float) : (JS.max0 x <? 0)%float = false.
Proof.
  destruct (JS.isNaN x) eqn:Hx.
  - apply NaN_not_ltb. rewrite max0_NaN. assumption.
  - apply leb_not_ltb, max0_nonneg. assumption.
Qed.

End AmountFacts.

(** X7 -- The amount of a webhook event is never below zero, but it can be
    [NaN].  Whatever the gateway's object holds, the amount either webhook
    credits is not below zero.  The amount of the Mercado Pago webhook is
    [NaN] exactly when [transaction_amount] is a truthy value that is not a
    number and that [Number] reads as [NaN] (a text such as ['abc']); in
    every other case (a missing, zero, negative or [NaN] number, a numeric
    text) it compares as at least zero. *)
Theorem webhook_amount_never_negative (payment : option MPPayment) (nowISO : string)
    (eventType : string) (session : option StripeSession) (paymentDate : string) :
  let amount := ev_amount (mercadopagoEvent payment nowISO) in
  (amount <? 0)%float = false
  /\ (ev_amount (stripeEvent eventType session paymentDate) <? 0)%float = false
  /\ (JS.isNaN amount = true
      <-> exists object numberOf,
            payment = Some object
            /\ mp_transaction_amount object = AmountOther numberOf
            /\ JS.isNaN numberOf = true)
  /\ (JS.isNaN amount = false -> (0 <=? amount)%float = true).
Proof.
  intros amount. subst amount. unfold mercadopagoEvent, stripeEvent. cbn [ev_amount].
  repeat match goal with |- _ /\ _ => split end; try apply max0_not_negative.
  - rewrite max0_NaN. split.
    + destruct payment as [object|]; [|discriminate]. unfold numberOrZero.
      destruct (mp_transaction_amount object) as [|x|numberOf] eqn:Hamount.
      * discriminate.
      * rewrite or0_not_NaN. discriminate.
      * intros Hnan. exists object, numberOf. auto.
    + intros (object & numberOf & -> & Hamount & Hnan). rewrite Hamount. exact Hnan.
  - rewrite max0_NaN. intros Hnan. apply max0_nonneg. assumption.
Qed.

Section StatusFacts.

Lemma paymentStatusFromMercadoPago_Pago (status : string) :
  paymentStatusFromMercadoPago status = Pago <-> status = "approved".
Proof.
  unfold paymentStatusFromMercadoPago.
  destruct (String.eqb_spec status "approved") as [->|Hne].
  - split; reflexivity.
  - split; [|contradiction].
    destruct (_ || _); [discriminate|]. destruct (_ || _); discriminate.
Qed.

End StatusFacts.

(** X8 -- Only an approved Mercado Pago payment reaches the schedule.  When
    the gateway's payment status is anything but [approved] (a refund and a
    chargeback included), whatever the Mercado Pago webhook writes is the
    order-level stamp: it carries no [installmentDetails], so no installment
    is credited or reverted, and its [paymentStatus] is not Pago. *)
Theorem mercadopago_unapproved_stamps_order (accessToken : option string)
    (paymentId : string) (mpRes : GatewayResponse) (now : Z) (nowISO : string)
    (db : gmap string Order) (id : string) (p : Patch) :
  JS.orOpt (gw_json mpRes ≫= mp_status) "" <> "approved" ->
  (mercadopagoPOST accessToken paymentId mpRes now nowISO db).2 = Some (id, p) ->
  p = stampPatch MercadoPago (mercadopagoEvent (gw_json mpRes) nowISO)
  /\ patch_installmentDetails p = None
  /\ patch_paymentStatus p
     = Some (paymentStatusFromMercadoPago (JS.orOpt (gw_json mpRes ≫= mp_status) ""))
  /\ patch_paymentStatus p <> Some Pago
  /\ forall o, db !! id = Some o ->
       installmentDetails (applyPatch p o) = installmentDetails o.
Proof.
  intros Hstatus. unfold mercadopagoPOST.
  destruct (String.eqb _ _); [discriminate|].
  destruct (String.eqb _ _); [discriminate|].
  destruct (negb _); [discriminate|]. cbn [snd]. intros Hrec.
  pose proof (reconcile_target _ _ _ _ _ _ Hrec) as [-> Hne].
  assert (ev_status (mercadopagoEvent (gw_json mpRes) nowISO) <> Pago) as Hst.
  { simpl. intros H. apply paymentStatusFromMercadoPago_Pago in H. contradiction. }
  rewrite reconcile_stamp in Hrec; [|assumption|].
  2:{ destruct (ev_status _); try contradiction; apply andb_false_r. }
  injection Hrec as <-.
  repeat match goal with |- _ /\ _ => split end; try reflexivity.
  intros H. injection H as H. apply Hst. exact H.
Qed.

Lemma mercadopago_unapproved_stamps_order_witness :
  let p := stampPatch MercadoPago (mercadopagoEvent (gw_json refundedPayment) "now") in
  p = stampPatch MercadoPago (mercadopagoEvent (gw_json refundedPayment) "now")
  /\ patch_installmentDetails p = None
  /\ patch_paymentStatus p
     = Some (paymentStatusFromMercadoPago (JS.orOpt (gw_json refundedPayment ≫= mp_status) ""))
  /\ patch_paymentStatus p <> Some Pago
  /\ forall o, sampleDb !! "o1" = Some o ->
       installmentDetails (applyPatch p o) = installmentDetails o.
Proof.
  apply (mercadopago_unapproved_stamps_order (Some "APP_USR-1") "123" refundedPayment 1000
           "now" sampleDb "o1").
  - vm_compute. discriminate.
  - vm_compute. reflexivity.
Defined.

(** * Further properties of the signature verifier *)

Section HeaderListFacts.

Lemma split_nonempty sep s : Str.split sep s <> [].
Proof.
  destruct s as [|c s]; simpl; [discriminate|].
  destruct (Ascii.eqb c sep); [discriminate|].
  destruct (Str.split sep s); discriminate.
Qed.

(** Splitting distributes over a separator. *)
Lemma split_app_sep sep s1 s2 :
  Str.split sep (s1 +:+ String sep s2) = Str.split sep s1 ++ Str.split sep s2.
Proof.
  induction s1 as [|c s1 IH].
  - rewrite append_nil. simpl. rewrite Ascii.eqb_refl. reflexivity.
  - rewrite append_cons. simpl. rewrite IH.
    destruct (Ascii.eqb c sep); [reflexivity|].
    pose proof (split_nonempty sep s1) as Hne.
    destruct (Str.split sep s1); [contradiction|reflexivity].
Qed.

Lemma headerParts_app h extra :
  headerParts (h +:+ "," +:+ extra) = headerParts h ++ headerParts extra.
Proof.
  unfold headerParts. change ("," +:+ extra) with (String "," extra).
  rewrite split_app_sep, map_app, List.filter_app. reflexivity.
Qed.

Lemma find_app_Some {A : Type} (f : A -> bool) (l1 l2 : list A) (x : A) :
  find f l1 = Some x -> find f (l1 ++ l2) = Some x.
Proof.
  induction l1 as [|a l1 IH]; simpl; [discriminate|].
  destruct (f a); [auto|exact IH].
Qed.

Lemma headerTimestamp_app h extra :
  headerTimestamp h <> "" -> headerTimestamp (h +:+ "," +:+ extra) = headerTimestamp h.
Proof.
  unfold headerTimestamp. rewrite headerParts_app.
  destruct (find (Str.startsWith "t=") (headerParts h)) as [p|] eqn:Hfind.
  - intros _. rewrite (find_app_Some _ _ _ _ Hfind). reflexivity.
  - intros H. contradiction.
Qed.

Lemma headerSignatures_app h extra :
  headerSignatures (h +:+ "," +:+ extra) = headerSignatures h ++ headerSignatures extra.
Proof.
  unfold headerSignatures. rewrite headerParts_app, List.filter_app, map_app. reflexivity.
Qed.

Lemma trimStart_whitespace s : allChars Str.isWhiteSpace s = true -> Str.trimStart s = "".
Proof.
  induction s as [|c s IH]; simpl; [reflexivity|].
  intros H. apply andb_prop in H as [Hc Hs]. rewrite Hc. apply IH. assumption.
Qed.

Lemma trim_whitespace s : allChars Str.isWhiteSpace s = true -> Str.trim s = "".
Proof. intros H. unfold Str.trim. rewrite trimStart_whitespace by assumption. reflexivity. Qed.

End HeaderListFacts.

(** X9 -- More candidates never hurt.  A header that the verifier accepts is
    still accepted after any further entries are appended to it behind a
    comma (another [v1] value of a rolled secret, another scheme, a second
    timestamp): the first timestamp keeps deciding. *)
Theorem verifyStripeSignature_append (payload signatureHeader extra webhookSecret : string) :
  verifyStripeSignature payload signatureHeader webhookSecret = JS.Ok true ->
  verifyStripeSignature payload (signatureHeader +:+ "," +:+ extra) webhookSecret = JS.Ok true.
Proof.
  intros Hok.
  apply (proj1 (verifyStripeSignature_accepts payload signatureHeader webhookSecret)) in Hok
    as [Hts Hin].
  apply (proj2 (verifyStripeSignature_accepts payload _ webhookSecret)).
  unfold expectedSignature in *. rewrite headerTimestamp_app by assumption.
  split; [assumption|]. rewrite headerSignatures_app. apply in_or_app. left. exact Hin.
Qed.

Lemma verifyStripeSignature_append_witness :
  verifyStripeSignature sampleBody (sampleHeader +:+ "," +:+ "v0=abc, t=1") sampleSecret
  = JS.Ok true.
Proof.
  apply (verifyStripeSignature_append sampleBody sampleHeader "v0=abc, t=1" sampleSecret).
  vm_compute. reflexivity.
Defined.

(** X10 -- Only a full lowercase digest is accepted.  Whenever the verifier
    accepts, the header lists a [v1] value of exactly 64 lowercase
    hexadecimal digits; an uppercase, truncated or padded rendering of the
    right digest is never accepted. *)
Theorem verifyStripeSignature_accepts_only_hex (payload signatureHeader webhookSecret : string) :
  verifyStripeSignature payload signatureHeader webhookSecret = JS.Ok true ->
  exists sig,
    In sig (headerSignatures signatureHeader)
    /\ String.length sig = 64%nat
    /\ allChars isHexChar sig = true.
Proof.
  intros Hok.
  apply (proj1 (verifyStripeSignature_accepts payload signatureHeader webhookSecret)) in Hok
    as [_ Hin].
  exists (expectedSignature payload signatureHeader webhookSecret).
  split; [assumption|]. unfold expectedSignature.
  destruct (createHmacSha256Hex_shape webhookSecret
              (headerTimestamp signatureHeader +:+ "." +:+ payload)) as (Hhex & Hlen & _).
  split; assumption.
Qed.

Lemma verifyStripeSignature_accepts_only_hex_witness :
  exists sig,
    In sig (headerSignatures sampleHeader)
    /\ String.length sig = 64%nat
    /\ allChars isHexChar sig = true.
Proof.
  apply (verifyStripeSignature_accepts_only_hex sampleBody sampleHeader sampleSecret).
  vm_compute. reflexivity.
Defined.

(** X11 -- The first timestamp entry wins.  In a header that starts with an
    entry [t=<t1>] followed by a comma, the timestamp is [t1] whatever
    follows; in particular an empty first timestamp makes the verifier
    reject, even when a later [t=] entry and a matching [v1] value follow. *)
Theorem headerTimestamp_first_wins (payload t1 rest webhookSecret : string) :
  allChars plainChar t1 = true ->
  headerTimestamp ("t=" +:+ t1 +:+ "," +:+ rest) = t1
  /\ (t1 = "" ->
      verifyStripeSignature payload ("t=" +:+ t1 +:+ "," +:+ rest) webhookSecret = JS.Ok false).
Proof.
  intros Hplain.
  assert (headerTimestamp ("t=" +:+ t1 +:+ "," +:+ rest) = t1) as Hts.
  { unfold headerTimestamp.
    replace ("t=" +:+ t1 +:+ "," +:+ rest) with (("t=" +:+ t1) +:+ "," +:+ rest)
      by (rewrite append_assoc; reflexivity).
    rewrite headerParts_app.
    assert (headerParts ("t=" +:+ t1) = ["t=" +:+ t1]) as ->.
    { unfold headerParts. rewrite split_plain by (simpl; exact Hplain).
      simpl map. rewrite trim_plain by (simpl; exact Hplain). reflexivity. }
    change ("t=" +:+ t1) with (String "t" (String "=" t1)). simpl.
    rewrite startsWith_nil. simpl. unfold JS.orS.
    destruct (String.eqb_spec t1 ""); congruence. }
  split; [exact Hts|]. intros Hempty.
  apply (proj2 (verifyStripeSignature_rejects payload _ webhookSecret)).
  intros [Hne _]. rewrite Hts in Hne. contradiction.
Qed.

Lemma headerTimestamp_first_wins_witness :
  headerTimestamp ("t=" +:+ "" +:+ "," +:+ "t=1700000000,v1=d7d8") = ""
  /\ ("" = "" ->
      verifyStripeSignature sampleBody ("t=" +:+ "" +:+ "," +:+ "t=1700000000,v1=d7d8")
        sampleSecret = JS.Ok false).
Proof.
  apply (headerTimestamp_first_wins sampleBody "" "t=1700000000,v1=d7d8" sampleSecret).
  reflexivity.
Defined.

(** X12 -- [safeEqualsHex] is string equality.  It answers [true] exactly
    when the two strings are equal and [false] exactly when they differ,
    whatever their lengths, and it never throws. *)
Theorem safeEqualsHex_is_equality (a b : string) :
  (safeEqualsHex a b = JS.Ok true <-> a = b)
  /\ (safeEqualsHex a b = JS.Ok false <-> a <> b).
Proof.
  rewrite safeEqualsHex_total. split; split.
  - intros [= H]. apply bool_decide_eq_true_1 in H. exact H.
  - intros ->. rewrite bool_decide_eq_true_2; reflexivity.
  - intros [= H]. apply bool_decide_eq_false_1 in H. exact H.
  - intros H. rewrite bool_decide_eq_false_2; [reflexivity|exact H].
Qed.

(** X13 -- Validation of the retrieve-payment request.  Without access token
    the endpoint answers 500 whatever else the request holds; with a token
    and a [payment_id] that is missing or made of white space only it
    answers 400, whatever the gateway would have answered. *)
Theorem retrievePaymentGET_validation (accessToken payment_id : option string)
    (mpRes : GatewayResponse) :
  (JS.orOpt accessToken "" = "" ->
   retrievePaymentGET accessToken payment_id mpRes
   = JS.Ok (mkResponse 500 (Error msgAccessTokenMissing)))
  /\ (JS.orOpt accessToken "" <> "" ->
      allChars Str.isWhiteSpace (JS.orOpt payment_id "") = true ->
      retrievePaymentGET accessToken payment_id mpRes
      = JS.Ok (mkResponse 400 (Error msgPaymentIdRequired))).
Proof.
  unfold retrievePaymentGET. split.
  - intros ->. reflexivity.
  - intros Htoken Hblank.
    destruct (String.eqb_spec (JS.orOpt accessToken "") ""); [contradiction|].
    rewrite trim_whitespace by assumption. reflexivity.
Qed.

(** * Further properties of the admin operations *)

Section FreshScheduleFacts.

(** Every installment of a rebuilt schedule is a new one. *)
Lemma recalculateInstallments_element (addMonthsISO : string -> Z -> option string)
    total count orderId firstDueDate sched (k : nat) inst :
  recalculateInstallments addMonthsISO total count orderId firstDueDate = JS.Ok sched ->
  sched !! k = Some inst ->
  exists a due,
    addMonthsISO firstDueDate (Z.of_nat k) = Some due
    /\ inst = newInstallment orderId due (Z.of_nat k) a.
Proof.
  unfold recalculateInstallments.
  destruct (_ || _); [intros [= <-]; rewrite lookup_nil; discriminate|].
  pose proof (pushInstallments_inv addMonthsISO orderId firstDueDate
                (installmentAmounts total count) 0) as Hinv.
  intros Hok Hk. rewrite Hok in Hinv. destruct Hinv as [_ Hinv].
  destruct (Hinv k inst Hk) as (a & due & _ & Hdue & ->).
  rewrite Z.add_0_l in *. eauto.
Qed.

End FreshScheduleFacts.


Section RoundTripFacts.

Lemma recordOnInstallment_other n pay inst :
  installmentNumber inst <> n -> recordOnInstallment n pay inst = inst.
Proof.
  intros Hne. unfold recordOnInstallment.
  destruct (Z.eqb_spec (installmentNumber inst) n); [contradiction|reflexivity].
Qed.

Lemma recordOnInstallment_target n pay inst :
  installmentNumber inst = n ->
  recordOnInstallment n pay inst
  = {| inst_id := inst_id inst;
       installmentNumber := installmentNumber inst;
       inst_amount := inst_amount inst;
       dueDate := dueDate inst;
       inst_status :=
         if (abs (JS.or0 (paidAmount inst) + JS.or0 (pay_amount pay) - inst_amount inst)
             <? 0.01)%float
         then Pago else Pendente;
       paidAmount := (JS.or0 (paidAmount inst) + JS.or0 (pay_amount pay))%float;
       paymentDate := paymentDate inst;
       payments := payments inst ++ [pay] |}.
Proof.
  intros Hn. unfold recordOnInstallment. rewrite Hn, Z.eqb_refl. reflexivity.
Qed.

Lemma find_self (o : Order) :
  find (fun o' => String.eqb (order_id o') (order_id o)) [o] = Some o.
Proof. simpl. rewrite String.eqb_refl. reflexivity. Qed.

(** Recording a payment under a new identifier and reversing it gives the
    installment its payments back. *)
Lemma record_reverse_installment n pay inst :
  (installmentNumber inst = n ->
   forall q, In q (payments inst) -> pay_id q <> pay_id pay) ->
  let back := reverseOnInstallment n (pay_id pay) (recordOnInstallment n pay inst) in
  payments back = payments inst
  /\ installmentNumber back = installmentNumber inst
  /\ inst_amount back = inst_amount inst
  /\ dueDate back = dueDate inst
  /\ (installmentNumber inst = n ->
      paidAmount back
      = (JS.or0 (JS.or0 (paidAmount inst) + JS.or0 (pay_amount pay)) - pay_amount pay)%float)
  /\ (installmentNumber inst <> n -> back = inst).
Proof.
  intros Hfresh. destruct (Z.eq_dec (installmentNumber inst) n) as [Hn|Hne].
  - cbv zeta. rewrite (recordOnInstallment_target n pay inst Hn).
    rewrite (reverseOnInstallment_target (pay_id pay) n _ (payments inst) pay []);
      try reflexivity; try assumption.
    + simpl. rewrite app_nil_r.
      repeat match goal with |- _ /\ _ => split end; try reflexivity.
      intros Hne. contradiction.
    + rewrite app_nil_r. apply Hfresh. assumption.
  - cbv zeta. rewrite (recordOnInstallment_other n pay inst Hne).
    rewrite (reverseOnInstallment_other (pay_id pay) n inst Hne).
    repeat match goal with |- _ /\ _ => split end; try reflexivity.
    intros Hn. contradiction.
Qed.

End RoundTripFacts.

(** X15 -- Record, then reverse.  When a payment is recorded on an order
    under an identifier that no payment of the targeted installments carries
    and that payment is then reversed, every installment has its former list
    of payments, number, amount and due date again; the [paidAmount] of a
    targeted installment is the recorded sum minus the payment's amount, as
    binary64 arithmetic gives it. *)
Theorem record_then_reverse (o : Order) (n : Z) (paymentData : PaymentData)
    (user : option string) :
  (forall inst, In inst (installmentDetails o) -> installmentNumber inst = n ->
     forall q, In q (payments inst) -> pay_id q <> pd_id paymentData) ->
  exists p1 p2,
    recordInstallmentPayment [o] (order_id o) n paymentData user = Some (order_id o, p1)
    /\ reversePayment [applyPatch p1 o] (order_id o) n (pd_id paymentData)
       = Some (order_id o, p2)
    /\ map payments (installmentDetails (applyPatch p2 (applyPatch p1 o)))
       = map payments (installmentDetails o)
    /\ map installmentNumber (installmentDetails (applyPatch p2 (applyPatch p1 o)))
       = map installmentNumber (installmentDetails o)
    /\ map inst_amount (installmentDetails (applyPatch p2 (applyPatch p1 o)))
       = map inst_amount (installmentDetails o)
    /\ map dueDate (installmentDetails (applyPatch p2 (applyPatch p1 o)))
       = map dueDate (installmentDetails o)
    /\ (forall k inst, installmentDetails o !! k = Some inst -> installmentNumber inst = n ->
          paidAmount <$> installmentDetails (applyPatch p2 (applyPatch p1 o)) !! k
          = Some (JS.or0 (JS.or0 (paidAmount inst) + JS.or0 (pd_amount paymentData))
                  - pd_amount paymentData)%float).
Proof.
  intros Hfresh. unfold recordInstallmentPayment. rewrite find_self.
  eexists _, _. split; [reflexivity|].
  unfold reversePayment. simpl. rewrite String.eqb_refl.
  split; [reflexivity|]. simpl.
  set (pay := {| pay_id := pd_id paymentData; pay_amount := pd_amount paymentData;
                 pay_date := pd_date paymentData; pay_method := pd_method paymentData;
                 pay_receivedBy := JS.orOpt user "Sistema" |}).
  assert (forall inst, In inst (installmentDetails o) ->
            installmentNumber inst = n ->
            forall q, In q (payments inst) -> pay_id q <> pay_id pay) as Hfresh'
    by exact Hfresh.
  change (pd_id paymentData) with (pay_id pay).
  change (pd_amount paymentData) with (pay_amount pay).
  clearbody pay. clear Hfresh.
  repeat match goal with |- _ /\ _ => split end.
  - rewrite !map_map. apply map_ext_in. intros inst Hin.
    pose proof (record_reverse_installment n pay inst (Hfresh' inst Hin)) as Hback.
    cbv zeta in Hback. tauto.
  - rewrite !map_map. apply map_ext_in. intros inst Hin.
    pose proof (record_reverse_installment n pay inst (Hfresh' inst Hin)) as Hback.
    cbv zeta in Hback. tauto.
  - rewrite !map_map. apply map_ext_in. intros inst Hin.
    pose proof (record_reverse_installment n pay inst (Hfresh' inst Hin)) as Hback.
    cbv zeta in Hback. tauto.
  - rewrite !map_map. apply map_ext_in. intros inst Hin.
    pose proof (record_reverse_installment n pay inst (Hfresh' inst Hin)) as Hback.
    cbv zeta in Hback. tauto.
  - intros k inst Hk Hn.
    change (map ?f ?l) with (f <$> l). rewrite !list_lookup_fmap, Hk. simpl. f_equal.
    assert (In inst (installmentDetails o)) as Hin
      by (apply list_elem_of_In, list_elem_of_lookup; eauto).
    pose proof (record_reverse_installment n pay inst (Hfresh' inst Hin)) as Hback.
    cbv zeta in Hback. apply Hback. assumption.
Qed.

Lemma record_then_reverse_witness :
  exists p1 p2,
    recordInstallmentPayment [paidOrder] (order_id paidOrder) 1 thirdPayment
      (Some "Ana") = Some (order_id paidOrder, p1)
    /\ reversePayment [applyPatch p1 paidOrder] (order_id paidOrder) 1
         (pd_id thirdPayment) = Some (order_id paidOrder, p2)
    /\ map payments (installmentDetails (applyPatch p2 (applyPatch p1 paidOrder)))
       = map payments (installmentDetails paidOrder)
    /\ map installmentNumber (installmentDetails (applyPatch p2 (applyPatch p1 paidOrder)))
       = map installmentNumber (installmentDetails paidOrder)
    /\ map inst_amount (installmentDetails (applyPatch p2 (applyPatch p1 paidOrder)))
       = map inst_amount (installmentDetails paidOrder)
    /\ map dueDate (installmentDetails (applyPatch p2 (applyPatch p1 paidOrder)))
       = map dueDate (installmentDetails paidOrder)
    /\ (forall k inst, installmentDetails paidOrder !! k = Some inst ->
          installmentNumber inst = 1 ->
          paidAmount <$> installmentDetails (applyPatch p2 (applyPatch p1 paidOrder)) !! k
          = Some (JS.or0 (JS.or0 (paidAmount inst) + JS.or0 (pd_amount thirdPayment))
                  - pd_amount thirdPayment)%float).
Proof.
  apply (record_then_reverse paidOrder 1 thirdPayment (Some "Ana")).
  simpl. intros inst [<-|[]] _ q [<-|[<-|[]]]; simpl; discriminate.
Defined.

Section AdminFacts.

Lemma reverseOnInstallment_unknown n paymentId inst :
  (installmentNumber inst = n ->
   forall q, In q (payments inst) -> pay_id q <> paymentId) ->
  reverseOnInstallment n paymentId inst = inst.
Proof.
  intros Hfresh. unfold reverseOnInstallment.
  destruct (Z.eqb_spec (installmentNumber inst) n) as [Hn|]; [|reflexivity].
  destruct (find _ _) as [p|] eqn:Hfind; [|reflexivity].
  apply find_some in Hfind as [Hin Heq]. apply String.eqb_eq in Heq.
  exfalso. exact (Hfresh Hn p Hin Heq).
Qed.

Lemma map_id_on {A} (f : A -> A) (l : list A) :
  (forall x, In x l -> f x = x) -> map f l = l.
Proof.
  intros Hf. rewrite <- (map_id l) at 2. apply map_ext_in. exact Hf.
Qed.

End AdminFacts.

(** X16 -- Reversing what is not there.  When no payment of the installments
    with the given number carries the given identifier (also when no
    installment has that number), [reversePayment] still issues its write,
    and the write carries the schedule exactly as it was and no order-level
    field. *)
Theorem reversePayment_unknown_payment (orders : list Order) (order : Order)
    (orderId : string) (n : Z) (paymentId : string) :
  find (fun o => String.eqb (order_id o) orderId) orders = Some order ->
  (forall inst, In inst (installmentDetails order) -> installmentNumber inst = n ->
     forall q, In q (payments inst) -> pay_id q <> paymentId) ->
  reversePayment orders orderId n paymentId
  = Some (orderId,
          {| patch_installmentDetails := Some (installmentDetails order);
             patch_paymentStatus := None;
             patch_paymentProvider := None;
             patch_paymentSessionId := None |}).
Proof.
  intros Hfind Hfresh. unfold reversePayment. rewrite Hfind.
  rewrite map_id_on; [reflexivity|].
  intros inst Hin. apply reverseOnInstallment_unknown. exact (Hfresh inst Hin).
Qed.

Lemma reversePayment_unknown_payment_witness :
  reversePayment [paidOrder] "o1" 1 "pay-9"
  = Some ("o1",
          {| patch_installmentDetails := Some (installmentDetails paidOrder);
             patch_paymentStatus := None;
             patch_paymentProvider := None;
             patch_paymentSessionId := None |}).
Proof.
  apply (reversePayment_unknown_payment [paidOrder] paidOrder "o1" 1 "pay-9").
  - reflexivity.
  - simpl. intros inst [<-|[]] _ q [<-|[<-|[]]]; simpl; discriminate.
Defined.

(** X17 -- What a recorded payment changes.  For an order of the list,
    [recordInstallmentPayment] writes a schedule of the same length and no
    order-level field; an installment with another number is written back
    unchanged; an installment with the given number keeps its identifier,
    amount, due date and payment date and gets exactly one payment appended,
    which carries the given identifier, amount, date and method and is
    received by the user's name, or by Sistema when there is no user or the
    name is empty.  When no installment has the number the payment is
    dropped: the schedule is written back as it was. *)
Theorem recordInstallmentPayment_frame (orders : list Order) (order : Order)
    (orderId : string) (n : Z) (paymentData : PaymentData) (user : option string) :
  find (fun o => String.eqb (order_id o) orderId) orders = Some order ->
  exists sched,
    recordInstallmentPayment orders orderId n paymentData user
    = Some (orderId,
            {| patch_installmentDetails := Some sched;
               patch_paymentStatus := None;
               patch_paymentProvider := None;
               patch_paymentSessionId := None |})
    /\ length sched = length (installmentDetails order)
    /\ (forall k inst, installmentDetails order !! k = Some inst ->
          installmentNumber inst <> n -> sched !! k = Some inst)
    /\ (forall k inst, installmentDetails order !! k = Some inst ->
          installmentNumber inst = n ->
          exists inst',
            sched !! k = Some inst'
            /\ inst_id inst' = inst_id inst
            /\ installmentNumber inst' = n
            /\ inst_amount inst' = inst_amount inst
            /\ dueDate inst' = dueDate inst
            /\ paymentDate inst' = paymentDate inst
            /\ payments inst'
               = payments inst
                 ++ [ {| pay_id := pd_id paymentData;
                         pay_amount := pd_amount paymentData;
                         pay_date := pd_date paymentData;
                         pay_method := pd_method paymentData;
                         pay_receivedBy :=
                           match user with
                           | Some name => if String.eqb name "" then "Sistema" else name
                           | None => "Sistema"
                           end |} ])
    /\ ((forall inst, In inst (installmentDetails order) -> installmentNumber inst <> n) ->
        sched = installmentDetails order).
Proof.
  intros Hfind. unfold recordInstallmentPayment. rewrite Hfind.
  eexists. split; [reflexivity|].
  repeat match goal with |- _ /\ _ => split end.
  - apply length_map.
  - intros k inst Hk Hne. change (map ?f ?l) with (f <$> l).
    rewrite list_lookup_fmap, Hk. simpl.
    rewrite recordOnInstallment_other by assumption. reflexivity.
  - intros k inst Hk Hn. change (map ?f ?l) with (f <$> l).
    rewrite list_lookup_fmap, Hk. simpl.
    rewrite recordOnInstallment_target by assumption.
    eexists. split; [reflexivity|]. simpl.
    repeat match goal with |- _ /\ _ => split end; try reflexivity; try assumption.
  - intros Hnone. apply map_id_on. intros inst Hin.
    apply recordOnInstallment_other. exact (Hnone inst Hin).
Qed.

Lemma recordInstallmentPayment_frame_witness :
  exists sched,
    recordInstallmentPayment [paidOrder] "o1" 1 thirdPayment None
    = Some ("o1",
            {| patch_installmentDetails := Some sched;
               patch_paymentStatus := None;
               patch_paymentProvider := None;
               patch_paymentSessionId := None |})
    /\ length sched = length (installmentDetails paidOrder)
    /\ (forall k inst, installmentDetails paidOrder !! k = Some inst ->
          installmentNumber inst <> 1 -> sched !! k = Some inst)
    /\ (forall k inst, installmentDetails paidOrder !! k = Some inst ->
          installmentNumber inst = 1 ->
          exists inst',
            sched !! k = Some inst'
            /\ inst_id inst' = inst_id inst
            /\ installmentNumber inst' = 1
            /\ inst_amount inst' = inst_amount inst
            /\ dueDate inst' = dueDate inst
            /\ paymentDate inst' = paymentDate inst
            /\ payments inst'
               = payments inst
                 ++ [ {| pay_id := pd_id thirdPayment;
                         pay_amount := pd_amount thirdPayment;
                         pay_date := pd_date thirdPayment;
                         pay_method := pd_method thirdPayment;
                         pay_receivedBy := "Sistema" |} ])
    /\ ((forall inst, In inst (installmentDetails paidOrder) -> installmentNumber inst <> 1) ->
        sched = installmentDetails paidOrder).
Proof.
  apply (recordInstallmentPayment_frame [paidOrder] paidOrder "o1" 1 thirdPayment None).
  reflexivity.
Defined.

(** X18 -- Moving a due date never touches the money.  The per-installment
    step of [updateInstallmentDueDate] keeps the number, amount, status, paid
    amount, payment date and payments of every installment, sets the due date
    of the installments with the given number and of no other, and commutes
    with the per-installment steps of the webhook credit, of
    [recordInstallmentPayment] and of [reversePayment]: the result is the
    same whichever of the two is applied first. *)
Theorem dueDateOnInstallment_commutes (m : Z) (newDueDate : string) (inst : Installment) :
  let moved := dueDateOnInstallment m newDueDate inst in
  (installmentNumber moved = installmentNumber inst
   /\ inst_id moved = inst_id inst
   /\ inst_amount moved = inst_amount inst
   /\ inst_status moved = inst_status inst
   /\ paidAmount moved = paidAmount inst
   /\ paymentDate moved = paymentDate inst
   /\ payments moved = payments inst
   /\ dueDate moved = if installmentNumber inst =? m then newDueDate else dueDate inst)
  /\ (forall prov now ev n,
        creditInstallment prov now ev n moved
        = (dueDateOnInstallment m newDueDate (creditInstallment prov now ev n inst).1,
           (creditInstallment prov now ev n inst).2))
  /\ (forall n pay,
        recordOnInstallment n pay moved
        = dueDateOnInstallment m newDueDate (recordOnInstallment n pay inst))
  /\ (forall n paymentId,
        reverseOnInstallment n paymentId moved
        = dueDateOnInstallment m newDueDate (reverseOnInstallment n paymentId inst)).
Proof.
  cbv zeta. unfold dueDateOnInstallment.
  repeat match goal with |- _ /\ _ => split end;
    try (destruct (installmentNumber inst =? m); reflexivity).
  - intros prov now ev n. unfold creditInstallment, alreadyRecorded.
    destruct (installmentNumber inst =? m) eqn:Hm;
      destruct (installmentNumber inst =? n) eqn:Hn;
      repeat (progress (simpl; rewrite ?Hm, ?Hn)); try reflexivity;
      destruct (_ && _); repeat (progress (simpl; rewrite ?Hm, ?Hn)); reflexivity.
  - intros n pay. unfold recordOnInstallment.
    destruct (installmentNumber inst =? m) eqn:Hm;
      destruct (installmentNumber inst =? n) eqn:Hn;
      repeat (progress (simpl; rewrite ?Hm, ?Hn)); reflexivity.
  - intros n paymentId. unfold reverseOnInstallment.
    destruct (installmentNumber inst =? m) eqn:Hm;
      destruct (installmentNumber inst =? n) eqn:Hn;
      repeat (progress (simpl; rewrite ?Hm, ?Hn)); try reflexivity;
      destruct (find _ _); repeat (progress (simpl; rewrite ?Hm, ?Hn)); reflexivity.
Qed.

(** X19 -- A new amount leaves the payment state stale.  For an order of the
    list that has a schedule, [updateInstallmentAmount] writes a schedule in
    which every installment keeps its status, paid amount, payments, number
    and due date, so no status is recomputed against the new amount; the
    amount of an installment is the new one exactly when its number is the
    given one; the written total is the left-to-right sum of the written
    amounts from 0, and the written discount is the items' subtotal minus
    that total plus the down payment. *)
Theorem updateInstallmentAmount_frame (orders : list FinancedOrder) (order : FinancedOrder)
    (details : list Installment) (orderId : string) (n : Z) (newAmount : float) :
  find (fun o => String.eqb (fo_id o) orderId) orders = Some order ->
  fo_installmentDetails order = Some details ->
  exists u,
    updateInstallmentAmount orders orderId n newAmount = Some (orderId, u)
    /\ map inst_status (au_installmentDetails u) = map inst_status details
    /\ map paidAmount (au_installmentDetails u) = map paidAmount details
    /\ map payments (au_installmentDetails u) = map payments details
    /\ map installmentNumber (au_installmentDetails u) = map installmentNumber details
    /\ map dueDate (au_installmentDetails u) = map dueDate details
    /\ map inst_amount (au_installmentDetails u)
       = map (fun inst => if installmentNumber inst =? n then newAmount else inst_amount inst)
             details
    /\ au_total u
       = fold_left (fun sum a => (sum + a)%float) (map inst_amount (au_installmentDetails u))
                   0%float
    /\ au_discount u
       = (subtotalOf (fo_items order) - (au_total u + optOr0 (fo_downPayment order)))%float.
Proof.
  intros Hfind Hdetails. unfold updateInstallmentAmount. rewrite Hfind, Hdetails.
  eexists. split; [reflexivity|]. simpl.
  repeat match goal with |- _ /\ _ => split end;
    try (rewrite map_map; apply map_ext; intros inst; unfold amountOnInstallment;
         destruct (installmentNumber inst =? n); reflexivity).
  - generalize 0%float.
    induction (map (amountOnInstallment n newAmount) details) as [|inst l IH];
      intros acc; simpl; [reflexivity|apply IH].
  - reflexivity.
Qed.

Lemma updateInstallmentAmount_frame_witness :
  exists u,
    updateInstallmentAmount [financedOrder] "o1" 1 80 = Some ("o1", u)
    /\ map inst_status (au_installmentDetails u) = map inst_status [paidInstallment]
    /\ map paidAmount (au_installmentDetails u) = map paidAmount [paidInstallment]
    /\ map payments (au_installmentDetails u) = map payments [paidInstallment]
    /\ map installmentNumber (au_installmentDetails u) = map installmentNumber [paidInstallment]
    /\ map dueDate (au_installmentDetails u) = map dueDate [paidInstallment]
    /\ map inst_amount (au_installmentDetails u)
       = map (fun inst => if installmentNumber inst =? 1 then 80%float else inst_amount inst)
             [paidInstallment]
    /\ au_total u
       = fold_left (fun sum a => (sum + a)%float) (map inst_amount (au_installmentDetails u))
                   0%float
    /\ au_discount u
       = (subtotalOf (fo_items financedOrder)
          - (au_total u + optOr0 (fo_downPayment financedOrder)))%float.
Proof.
  apply (updateInstallmentAmount_frame [financedOrder] financedOrder [paidInstallment]
           "o1" 1 80); reflexivity.
Defined.

(** X20 -- Editing the terms of an order discards its payment history.
    Whenever the schedule block of [updateOrderDetails] runs, the schedule it
    writes is the one [recalculateInstallments] builds for the written total
    and count: every installment in it is Pendente with nothing paid and no
    payment, whatever the order's installments held before; the written total
    is the subtotal minus the written discount minus the written down
    payment.  The block runs whenever the down payment is reset, and then
    writes a down payment of 0. *)
Theorem updateOrderDetails_resets_schedule (addMonthsISO : string -> Z -> option string)
    (order : FinancedOrder) (details : OrderDetailsChange) (su : ScheduleUpdate) :
  updateOrderDetailsSchedule addMonthsISO order details = JS.Ok (Some su) ->
  recalculateInstallments addMonthsISO (su_total su) (su_installments su)
    (fo_id order) (fo_date order)
  = JS.Ok (su_installmentDetails su)
  /\ (forall inst, In inst (su_installmentDetails su) ->
        inst_status inst = Pendente /\ paidAmount inst = 0%float
        /\ payments inst = [] /\ paymentDate inst = None)
  /\ su_total su
     = (subtotalOf (default (fo_items order) (ch_items details))
        - su_discount su - su_downPayment su)%float
  /\ (ch_resetDownPayment details = true -> su_downPayment su = 0%float)
  /\ (ch_installments details = None -> su_installments su = fo_installments order).
Proof.
  unfold updateOrderDetailsSchedule.
  destruct (_ || _ || _ || _); [|discriminate].
  destruct (recalculateInstallments _ _ _ _ _) as [sched|err] eqn:Hsched; [|discriminate].
  intros [= <-]. cbn [su_installmentDetails su_total su_installments su_discount
                      su_downPayment].
  repeat match goal with |- _ /\ _ => split end.
  - exact Hsched.
  - intros inst Hin. apply list_elem_of_In, list_elem_of_lookup in Hin as [k Hk].
    destruct (recalculateInstallments_element _ _ _ _ _ _ _ _ Hsched Hk)
      as (a & due & _ & ->). auto.
  - reflexivity.
  - intros ->. reflexivity.
  - intros ->. reflexivity.
Qed.

Lemma updateOrderDetails_resets_schedule_witness :
  exists su,
    updateOrderDetailsSchedule tagMonths financedOrder resetChange = JS.Ok (Some su)
    /\ recalculateInstallments tagMonths (su_total su) (su_installments su)
         (fo_id financedOrder) (fo_date financedOrder)
       = JS.Ok (su_installmentDetails su)
    /\ (forall inst, In inst (su_installmentDetails su) ->
          inst_status inst = Pendente /\ paidAmount inst = 0%float
          /\ payments inst = [] /\ paymentDate inst = None)
    /\ su_total su
       = (subtotalOf (default (fo_items financedOrder) (ch_items resetChange))
          - su_discount su - su_downPayment su)%float
    /\ (ch_resetDownPayment resetChange = true -> su_downPayment su = 0%float)
    /\ (ch_installments resetChange = None -> su_installments su = fo_installments financedOrder).
Proof.
  eexists. split; [vm_compute; reflexivity|].
  apply (updateOrderDetails_resets_schedule tagMonths financedOrder resetChange).
  vm_compute. reflexivity.
Defined.

(** * The payment check of the order confirmation page *)

(** X21 -- Page and webhooks read a gateway status alike, with one
    exception.  For every status string the page maps a Stripe payment status
    to the status the Stripe webhook maps it to; it maps a Mercado Pago
    status to the status the Mercado Pago webhook maps it to, except for
    refunded and charged_back, and only for these: the webhook maps them to
    Falhou, the page to Pendente. *)
Theorem poll_status_agreement (status : string) :
  pollStatusFromStripe status = paymentStatusFromStripe status
  /\ (pollStatusFromMercadoPago status <> paymentStatusFromMercadoPago status
      <-> status = "refunded" \/ status = "charged_back")
  /\ (status = "refunded" \/ status = "charged_back" ->
      pollStatusFromMercadoPago status = Pendente
      /\ paymentStatusFromMercadoPago status = Falhou).
Proof.
  unfold pollStatusFromStripe, paymentStatusFromStripe, pollStatusFromMercadoPago,
    paymentStatusFromMercadoPago.
  repeat match goal with |- _ /\ _ => split end.
  - destruct (String.eqb_spec status "paid"); [reflexivity|].
    destruct (String.eqb status "unpaid"); reflexivity.
  - split.
    + destruct (String.eqb_spec status "refunded"); [left; assumption|].
      destruct (String.eqb_spec status "charged_back"); [right; assumption|].
      intros H; exfalso; apply H.
      destruct (String.eqb status "approved"); [reflexivity|].
      destruct (String.eqb status "rejected" || String.eqb status "cancelled"); reflexivity.
    + intros [->| ->]; simpl; discriminate.
  - intros [->| ->]; split; reflexivity.
Qed.

Section PollFacts.

Lemma pollWrite_write db allowed id patch st target patch' :
  pollWrite db allowed id patch = (st, Some (target, patch')) ->
  st = CheckDone /\ target = id /\ patch' = patch
  /\ allowed = true /\ is_Some (db !! id).
Proof.
  unfold pollWrite. destruct allowed; simpl; [|discriminate].
  destruct (bool_decide (is_Some (db !! id))) eqn:Hstored; [|discriminate].
  apply bool_decide_eq_true_1 in Hstored. intros [= <- <- <-]. auto.
Qed.

Lemma pollWrite_accepted db allowed id patch :
  allowed = true -> is_Some (db !! id) ->
  pollWrite db allowed id patch = (CheckDone, Some (id, patch)).
Proof.
  intros -> Hstored. unfold pollWrite. rewrite bool_decide_eq_true_2 by assumption.
  reflexivity.
Qed.

Lemma pollWrite_rejected db allowed id patch :
  allowed = false \/ db !! id = None ->
  pollWrite db allowed id patch = (CheckError, None).
Proof.
  unfold pollWrite. intros [-> | Hnone]; [reflexivity|].
  rewrite bool_decide_eq_false_2, andb_false_r; [reflexivity|].
  rewrite Hnone. intros [o Ho]. discriminate.
Qed.

End PollFacts.

(** X22 -- What the page's check may write.  Whenever the check writes, the
    order it read was not Pago and no check was running; the write goes to
    the order on view, which the store holds and lets be written, carries no
    schedule, and ends the check in the done state; the order named by the
    gateway's answer is empty or the order on view; a Stripe write stamps
    provider Stripe with the page's reading of the session status and a
    non-empty session identifier, a Mercado Pago write stamps provider
    MercadoPago and no session identifier. *)
Theorem pollPayment_write (provider stripeSessionId mpPaymentId : string) (order : Order)
    (paymentCheckState : CheckState)
    (stripeRes : ApiResult RetrievedSession) (mpRes : ApiResult RetrievedPayment)
    (db : gmap string Order) (allowed : bool)
    (st : CheckState) (target : string) (patch : Patch) :
  pollPayment provider stripeSessionId mpPaymentId order paymentCheckState stripeRes mpRes
    db allowed
  = Some (st, Some (target, patch)) ->
  paymentStatus order <> Some Pago
  /\ paymentCheckState <> CheckChecking
  /\ target = order_id order
  /\ target <> ""
  /\ st = CheckDone
  /\ patch_installmentDetails patch = None
  /\ allowed = true
  /\ is_Some (db !! target)
  /\ ((provider = "stripe" /\ api_ok stripeRes = true
       /\ (let named := JS.orS (JS.orOpt (api_data stripeRes ≫= rs_metadata_orderId) "")
                               (JS.orOpt (api_data stripeRes ≫= rs_client_reference_id) "") in
           named = "" \/ named = order_id order)
       /\ patch_paymentProvider patch = Some "Stripe"
       /\ patch_paymentStatus patch
          = Some (pollStatusFromStripe (JS.orOpt (api_data stripeRes ≫= rs_payment_status) ""))
       /\ exists sid, patch_paymentSessionId patch = Some sid /\ sid <> "")
      \/ (provider = "mercadopago" /\ api_ok mpRes = true
          /\ (let named := JS.orOpt (api_data mpRes ≫= rp_external_reference) "" in
              named = "" \/ named = order_id order)
          /\ patch_paymentProvider patch = Some "MercadoPago"
          /\ patch_paymentStatus patch
             = Some (pollStatusFromMercadoPago (JS.orOpt (api_data mpRes ≫= rp_status) ""))
          /\ patch_paymentSessionId patch = None)).
Proof.
  unfold pollPayment.
  destruct (String.eqb_spec (order_id order) "") as [|Hid]; [discriminate|].
  destruct (String.eqb provider ""); [discriminate|].
  assert (paymentStatus order <> Some Pago
          \/ paymentStatus order = Some Pago) as [Hps|Hps]
    by (destruct (paymentStatus order) as [[]|]; auto; left; discriminate).
  2: { rewrite Hps. discriminate. }
  destruct (match paymentStatus order with Some Pago => true | _ => false end) eqn:Hm;
    [destruct (paymentStatus order) as [[]|]; try discriminate; congruence|].
  clear Hm.
  assert (paymentCheckState <> CheckChecking
          \/ paymentCheckState = CheckChecking) as [Hcs|Hcs]
    by (destruct paymentCheckState; auto; left; discriminate).
  2: { rewrite Hcs. discriminate. }
  destruct (match paymentCheckState with CheckChecking => true | _ => false end) eqn:Hm;
    [destruct paymentCheckState; try discriminate; congruence|].
  clear Hm.
  destruct (String.eqb_spec provider "stripe") as [Hprov|Hprov];
    [destruct (String.eqb_spec stripeSessionId "") as [|Hsid]|]; simpl.
  - subst provider. simpl. destruct (String.eqb_spec mpPaymentId ""); discriminate.
  - destruct (api_ok stripeRes) eqn:Hok; simpl; [|discriminate].
    set (named := JS.orS _ _).
    destruct (String.eqb_spec named "") as [Hn|Hn];
      destruct (String.eqb_spec named (order_id order)) as [Hn'|Hn']; simpl;
      try discriminate;
      intros [= Hwrite]; apply pollWrite_write in Hwrite as (-> & -> & -> & -> & Hstored);
      simpl;
      (repeat match goal with |- _ /\ _ => split end; try assumption; try reflexivity);
      left;
      (repeat match goal with |- _ /\ _ => split end; try assumption; try reflexivity);
      auto;
      try (eexists; split; [reflexivity|];
           destruct (api_data stripeRes ≫= rs_id) as [sid|]; simpl; try assumption;
           unfold JS.orS; destruct (String.eqb_spec sid ""); assumption).
  - destruct (String.eqb_spec provider "mercadopago") as [Hmp|];
      [destruct (String.eqb_spec mpPaymentId "")|]; simpl; try discriminate.
    destruct (api_ok mpRes) eqn:Hok; simpl; [|discriminate].
    set (named := JS.orOpt _ _).
    destruct (String.eqb_spec named "") as [Hn|Hn];
      destruct (String.eqb_spec named (order_id order)) as [Hn'|Hn']; simpl;
      try discriminate;
      intros [= Hwrite]; apply pollWrite_write in Hwrite as (-> & -> & -> & -> & Hstored);
      simpl;
      (repeat match goal with |- _ /\ _ => split end; try assumption; try reflexivity);
      right;
      (repeat match goal with |- _ /\ _ => split end; try assumption; try reflexivity);
      auto.
Qed.

Lemma pollPayment_write_witness :
  exists patch,
    pollPayment "stripe" "cs_test_1" "" sampleOrder CheckIdle retrievedPaidSession
      unusedPaymentAnswer sampleDb true = Some (CheckDone, Some ("o1", patch))
    /\ paymentStatus sampleOrder <> Some Pago
    /\ CheckIdle <> CheckChecking
    /\ "o1" = order_id sampleOrder
    /\ "o1" <> ""
    /\ CheckDone = CheckDone
    /\ patch_installmentDetails patch = None
    /\ true = true
    /\ is_Some (sampleDb !! "o1")
    /\ (("stripe" = "stripe" /\ api_ok retrievedPaidSession = true
         /\ (let named :=
               JS.orS (JS.orOpt (api_data retrievedPaidSession ≫= rs_metadata_orderId) "")
                      (JS.orOpt (api_data retrievedPaidSession ≫= rs_client_reference_id) "") in
             named = "" \/ named = order_id sampleOrder)
         /\ patch_paymentProvider patch = Some "Stripe"
         /\ patch_paymentStatus patch
            = Some (pollStatusFromStripe
                      (JS.orOpt (api_data retrievedPaidSession ≫= rs_payment_status) ""))
         /\ exists sid, patch_paymentSessionId patch = Some sid /\ sid <> "")
        \/ ("stripe" = "mercadopago" /\ api_ok unusedPaymentAnswer = true
            /\ (let named := JS.orOpt (api_data unusedPaymentAnswer ≫= rp_external_reference) "" in
                named = "" \/ named = order_id sampleOrder)
            /\ patch_paymentProvider patch = Some "MercadoPago"
            /\ patch_paymentStatus patch
               = Some (pollStatusFromMercadoPago
                         (JS.orOpt (api_data unusedPaymentAnswer ≫= rp_status) ""))
            /\ patch_paymentSessionId patch = None)).
Proof.
  eexists. split; [vm_compute; reflexivity|].
  apply (pollPayment_write "stripe" "cs_test_1" "" sampleOrder CheckIdle
           retrievedPaidSession unusedPaymentAnswer sampleDb true).
  vm_compute. reflexivity.
Defined.

(** * Customer records *)

Section SanitizeFacts.

Lemma sanitize_filter_lookup (customer : gmap string JSValue) (k : string) :
  filter (fun kv : string * JSValue => isUndefined kv.2 = false) customer !! k
  = match customer !! k with
    | Some VUndefined | None => None
    | Some v => Some v
    end.
Proof.
  destruct (customer !! k) as [v|] eqn:Hk.
  - destruct v;
      first [ apply map_lookup_filter_None; right; intros v' Hv'; simpl;
              rewrite Hk in Hv'; injection Hv' as <-; discriminate
            | apply map_lookup_filter_Some; split; [assumption|reflexivity] ].
  - apply map_lookup_filter_None. left. assumption.
Qed.

End SanitizeFacts.

(** X23 -- What a sanitized customer record holds.  In the result of
    [sanitizeCustomerForFirestore] no key is bound to undefined and password
    is never bound to the empty string; every other key is bound exactly as
    in the input unless the input binds it to undefined, in which case it is
    absent; password is kept exactly when the input binds it to a value that
    is neither undefined nor the empty string; and sanitizing twice is
    sanitizing once. *)
Theorem sanitizeCustomerForFirestore_spec (customer : gmap string JSValue) (k : string) :
  sanitizeCustomerForFirestore customer !! k <> Some VUndefined
  /\ sanitizeCustomerForFirestore customer !! "password" <> Some (VString "")
  /\ sanitizeCustomerForFirestore customer !! k
     = match customer !! k with
       | Some VUndefined | None => None
       | Some (VString s) =>
           if String.eqb k "password" && String.eqb s "" then None else Some (VString s)
       | Some v => Some v
       end
  /\ sanitizeCustomerForFirestore (sanitizeCustomerForFirestore customer)
     = sanitizeCustomerForFirestore customer.
Proof.
  assert (forall c j, sanitizeCustomerForFirestore c !! j
            = match c !! j with
              | Some VUndefined | None => None
              | Some (VString s) =>
                  if String.eqb j "password" && String.eqb s "" then None
                  else Some (VString s)
              | Some v => Some v
              end) as Hlookup.
  { intros c j. unfold sanitizeCustomerForFirestore.
    pose proof (sanitize_filter_lookup c "password") as Hpw.
    destruct (String.eqb_spec j "password") as [->|Hj].
    - destruct (c !! "password") as [[| |[|a s]| |]|]; rewrite Hpw; simpl;
        rewrite ?lookup_delete_eq; try reflexivity; exact Hpw.
    - assert (forall m : gmap string JSValue,
                match filter (fun kv : string * JSValue => isUndefined kv.2 = false) c
                        !! "password" with
                | None | Some (VString EmptyString) =>
                    delete "password"
                      (filter (fun kv : string * JSValue => isUndefined kv.2 = false) c)
                | Some _ => filter (fun kv : string * JSValue => isUndefined kv.2 = false) c
                end !! j
                = filter (fun kv : string * JSValue => isUndefined kv.2 = false) c !! j) as Heq.
      { intros _. destruct (_ !! "password") as [[| |[|a s]| |]|];
          rewrite ?lookup_delete_ne by congruence; reflexivity. }
      rewrite (Heq ∅), sanitize_filter_lookup.
      destruct (c !! j) as [[| |s| |]|]; reflexivity. }
  repeat match goal with |- _ /\ _ => split end.
  - rewrite Hlookup. destruct (customer !! k) as [[| |s| |]|]; try discriminate.
    destruct (_ && _); discriminate.
  - rewrite Hlookup. destruct (customer !! "password") as [[| |[|a s]| |]|];
      simpl; discriminate.
  - apply Hlookup.
  - apply map_eq. intros j. rewrite (Hlookup (sanitizeCustomerForFirestore customer) j).
    rewrite (Hlookup customer j).
    destruct (customer !! j) as [[| |s| |]|]; try reflexivity.
    destruct (String.eqb j "password" && String.eqb s "") eqn:Hc; [reflexivity|].
    rewrite Hc. reflexivity.
Qed.

(** * The page's check through the retrieve endpoints *)

Section EndpointFacts.

Lemma retrieveSessionGET_failure secretKey session_id stripeRes :
  JS.orOpt secretKey "" = "" \/ sgw_ok stripeRes = false ->
  api_ok (sessionResult (retrieveSessionGET secretKey session_id stripeRes)) = false.
Proof.
  unfold retrieveSessionGET, sgw_ok. intros [Hkey|Hok].
  - rewrite Hkey. reflexivity.
  - destruct (String.eqb _ ""); [reflexivity|].
    destruct (String.eqb _ ""); [reflexivity|].
    rewrite Hok. simpl. exact Hok.
Qed.

Lemma retrievePaymentGET_failure accessToken payment_id mpRes :
  JS.orOpt accessToken "" = "" \/ gw_ok mpRes = false ->
  api_ok (paymentResult (retrievePaymentGET accessToken payment_id mpRes)) = false.
Proof.
  unfold retrievePaymentGET, gw_ok. intros [Hkey|Hok].
  - rewrite Hkey. reflexivity.
  - destruct (String.eqb _ ""); [reflexivity|].
    destruct (String.eqb _ ""); [reflexivity|].
    rewrite Hok. simpl. exact Hok.
Qed.

End EndpointFacts.

(** X24 -- A failed lookup never reaches the order.  The retrieve-session
    endpoint relays the status of a failed Stripe answer with Stripe's
    message, or its own default when there is none.  Behind the page's check:
    when the provider is stripe and the secret key is missing or Stripe's
    answer is not a success, or the provider is mercadopago and the access
    token is missing or the gateway's answer is not a success, the check
    writes nothing, and it ends in the error state whenever it had an
    identifier to look up. *)
Theorem poll_gateway_failure_no_write (provider stripeSessionId mpPaymentId : string)
    (order : Order) (paymentCheckState : CheckState)
    (secretKey accessToken : option string)
    (stripeRes : StripeGatewayResponse) (mpRes : GatewayResponse)
    (db : gmap string Order) (allowed : bool)
    (st : CheckState) (w : Write) :
  (provider = "stripe" /\ (JS.orOpt secretKey "" = "" \/ sgw_ok stripeRes = false))
  \/ (provider = "mercadopago" /\ (JS.orOpt accessToken "" = "" \/ gw_ok mpRes = false)) ->
  pollThroughEndpoints provider stripeSessionId mpPaymentId order paymentCheckState
    secretKey accessToken stripeRes mpRes db allowed = Some (st, w) ->
  w = None
  /\ (provider = "stripe" -> stripeSessionId <> "" -> st = CheckError)
  /\ (provider = "mercadopago" -> mpPaymentId <> "" -> st = CheckError)
  /\ (JS.orOpt secretKey "" <> "" -> Str.trim stripeSessionId <> "" ->
      sgw_ok stripeRes = false ->
      retrieveSessionGET secretKey (Some stripeSessionId) stripeRes
      = JS.Ok (mkSessionResponse (sgw_status stripeRes)
                 (SessionError (JS.orOpt (sgw_json stripeRes ≫= sa_error_message)
                                         msgSessionLookupFailed)))).
Proof.
  intros Hfail. unfold pollThroughEndpoints, pollPayment.
  destruct (String.eqb (order_id order) ""); [discriminate|].
  destruct (String.eqb provider ""); [discriminate|].
  destruct (match paymentStatus order with Some Pago => true | _ => false end);
    [discriminate|].
  destruct (match paymentCheckState with CheckChecking => true | _ => false end);
    [discriminate|].
  assert (JS.orOpt secretKey "" <> "" -> Str.trim stripeSessionId <> "" ->
          sgw_ok stripeRes = false ->
          retrieveSessionGET secretKey (Some stripeSessionId) stripeRes
          = JS.Ok (mkSessionResponse (sgw_status stripeRes)
                     (SessionError (JS.orOpt (sgw_json stripeRes ≫= sa_error_message)
                                             msgSessionLookupFailed)))) as Hrelay.
  { intros Hkey Hsid Hok. unfold retrieveSessionGET.
    destruct (String.eqb_spec (JS.orOpt secretKey "") ""); [contradiction|].
    destruct (String.eqb_spec (Str.trim (JS.orOpt (Some stripeSessionId) "")) "") as [He|].
    - exfalso. apply Hsid. simpl in He. unfold JS.orS in He.
      destruct (String.eqb_spec stripeSessionId "") as [->|]; [reflexivity|exact He].
    - rewrite Hok. reflexivity. }
  destruct Hfail as [[-> Hs]|[-> Hm]]; simpl.
  - destruct (String.eqb_spec stripeSessionId "") as [Hsid|Hsid]; simpl.
    + intros [= <- <-]. repeat match goal with |- _ /\ _ => split end;
        try reflexivity; try discriminate; try contradiction; exact Hrelay.
    + rewrite (retrieveSessionGET_failure secretKey (Some stripeSessionId) stripeRes Hs).
      simpl. intros [= <- <-]. repeat match goal with |- _ /\ _ => split end;
        try reflexivity; try discriminate; exact Hrelay.
  - destruct (String.eqb_spec mpPaymentId "") as [Hpid|Hpid]; simpl.
    + intros [= <- <-]. repeat match goal with |- _ /\ _ => split end;
        try reflexivity; try discriminate; try contradiction; exact Hrelay.
    + rewrite (retrievePaymentGET_failure accessToken (Some mpPaymentId) mpRes Hm).
      simpl. intros [= <- <-]. repeat match goal with |- _ /\ _ => split end;
        try reflexivity; try discriminate; exact Hrelay.
Qed.

Lemma poll_gateway_failure_no_write_witness :
  (None : Write) = None
  /\ ("stripe" = "stripe" -> "cs_test_1" <> "" -> CheckError = CheckError)
  /\ ("stripe" = "mercadopago" -> "" <> "" -> CheckError = CheckError)
  /\ (JS.orOpt (Some "sk_test") "" <> "" -> Str.trim "cs_test_1" <> "" ->
      sgw_ok sessionNotFound = false ->
      retrieveSessionGET (Some "sk_test") (Some "cs_test_1") sessionNotFound
      = JS.Ok (mkSessionResponse (sgw_status sessionNotFound)
                 (SessionError (JS.orOpt (sgw_json sessionNotFound ≫= sa_error_message)
                                         msgSessionLookupFailed)))).
Proof.
  apply (poll_gateway_failure_no_write "stripe" "cs_test_1" "" sampleOrder CheckIdle
           (Some "sk_test") None sessionNotFound notFound sampleDb true CheckError None).
  - left. split; [reflexivity|]. right. reflexivity.
  - reflexivity.
Defined.

(** X25 -- The page marks an order paid exactly when Stripe says so.  With
    the secret key configured, a session identifier that is not blank, an
    order on view that is not Pago and no check running, and Stripe
    answering with success: when the session names no order or the order on
    view, and the store holds that order and lets it be written, the check
    ends in the done state with one write, to that order; the write stamps
    provider Stripe, carries no schedule, and sets the payment status to
    Pago if Stripe's payment status is paid and to Pendente otherwise.  When
    the store does not hold the order or refuses the write, or when the
    session names another order, the check ends in the error state and
    nothing is written. *)
Theorem poll_stripe_end_to_end (stripeSessionId mpPaymentId : string)
    (order : Order) (paymentCheckState : CheckState)
    (secretKey accessToken : option string)
    (stripeRes : StripeGatewayResponse) (mpRes : GatewayResponse) (d : StripeAnswer)
    (db : gmap string Order) (allowed : bool) :
  JS.orOpt secretKey "" <> "" ->
  Str.trim stripeSessionId <> "" ->
  order_id order <> "" ->
  paymentStatus order <> Some Pago ->
  paymentCheckState <> CheckChecking ->
  sgw_ok stripeRes = true ->
  sgw_json stripeRes = Some d ->
  let named := JS.orS (JS.orOpt (sa_metadata_orderId d) "")
                      (JS.orOpt (sa_client_reference_id d) "") in
  let result := pollThroughEndpoints "stripe" stripeSessionId mpPaymentId order
                  paymentCheckState secretKey accessToken stripeRes mpRes db allowed in
  (named = "" \/ named = order_id order ->
   allowed = true -> is_Some (db !! order_id order) ->
   exists patch,
     result = Some (CheckDone, Some (order_id order, patch))
     /\ patch_installmentDetails patch = None
     /\ patch_paymentProvider patch = Some "Stripe"
     /\ patch_paymentSessionId patch = Some (JS.orOpt (sa_id d) stripeSessionId)
     /\ patch_paymentStatus patch
        = Some (match sa_payment_status d with
                | Some s => if String.eqb s "paid" then Pago else Pendente
                | None => Pendente
                end))
  /\ (named = "" \/ named = order_id order ->
      allowed = false \/ db !! order_id order = None ->
      result = Some (CheckError, None))
  /\ (named <> "" -> named <> order_id order -> result = Some (CheckError, None)).
Proof.
  intros Hkey Hsid Hid Hps Hcs Hok Hjson named result. subst result.
  unfold pollThroughEndpoints, pollPayment.
  destruct (String.eqb_spec (order_id order) ""); [contradiction|].
  change (String.eqb "stripe" "") with false. cbv iota.
  destruct (match paymentStatus order with Some Pago => true | _ => false end) eqn:Hm;
    [destruct (paymentStatus order) as [[]|]; try discriminate; congruence|].
  clear Hm.
  destruct (match paymentCheckState with CheckChecking => true | _ => false end) eqn:Hm;
    [destruct paymentCheckState; try discriminate; congruence|].
  clear Hm.
  assert (stripeSessionId <> "") as Hsid' by (intros ->; apply Hsid; reflexivity).
  destruct (String.eqb_spec stripeSessionId ""); [contradiction|].
  change (String.eqb "stripe" "stripe") with true. cbv iota. simpl andb. cbv iota.
  assert (retrieveSessionGET secretKey (Some stripeSessionId) stripeRes
          = JS.Ok (mkSessionResponse 200 (SessionInfo d))) as ->.
  { unfold retrieveSessionGET.
    destruct (String.eqb_spec (JS.orOpt secretKey "") ""); [contradiction|].
    assert (JS.orOpt (Some stripeSessionId) "" = stripeSessionId) as ->
      by (simpl; unfold JS.orS; destruct (String.eqb_spec stripeSessionId "");
          [contradiction|reflexivity]).
    destruct (String.eqb_spec (Str.trim stripeSessionId) ""); [contradiction|].
    rewrite Hok, Hjson. reflexivity. }
  simpl. fold named.
  assert (named = "" \/ named = order_id order ->
          negb (String.eqb named "") && negb (String.eqb named (order_id order)) = false)
    as Hmatch.
  { intros [-> | ->]; [reflexivity|]. rewrite String.eqb_refl. apply andb_false_r. }
  repeat match goal with |- _ /\ _ => split end.
  - intros Hnamed Hallowed Hstored. rewrite (Hmatch Hnamed).
    rewrite pollWrite_accepted by assumption.
    eexists. split; [reflexivity|]. simpl.
    repeat match goal with |- _ /\ _ => split end; try reflexivity.
    f_equal. unfold pollStatusFromStripe.
    destruct (sa_payment_status d) as [s|]; simpl; [|reflexivity].
    unfold JS.orS. destruct (String.eqb_spec s "") as [->|]; reflexivity.
  - intros Hnamed Hrejected. rewrite (Hmatch Hnamed).
    rewrite pollWrite_rejected by assumption. reflexivity.
  - intros Hne Hne'.
    destruct (String.eqb_spec named ""); [contradiction|].
    destruct (String.eqb_spec named (order_id order)); [contradiction|].
    reflexivity.
Qed.

Lemma poll_stripe_end_to_end_witness :
  exists patch,
    pollThroughEndpoints "stripe" "cs_test_1" "" sampleOrder CheckIdle (Some "sk_test") None
      sessionPaid notFound sampleDb true
    = Some (CheckDone, Some (order_id sampleOrder, patch))
    /\ patch_installmentDetails patch = None
    /\ patch_paymentProvider patch = Some "Stripe"
    /\ patch_paymentSessionId patch = Some "cs_test_1"
    /\ patch_paymentStatus patch = Some Pago.
Proof.
  apply (poll_stripe_end_to_end "cs_test_1" "" sampleOrder CheckIdle (Some "sk_test") None
           sessionPaid notFound
           {| sa_error_message := None; sa_id := Some "cs_test_1";
              sa_payment_status := Some "paid"; sa_client_reference_id := Some "o1";
              sa_metadata_orderId := Some "o1" |} sampleDb true);
    try reflexivity; try discriminate.
  - right. reflexivity.
  - eexists. reflexivity.
Defined.

(** * From the checkout to the webhook *)

Section DecimalFacts.

Lemma digitValue_pretty (d : N) :
  (d < 10)%N -> digitValue (pretty_N_char d) = Some (Z.of_N d).
Proof.
  intros Hd.
  assert (forallb (fun k => match digitValue (pretty_N_char (N.of_nat k)) with
                            | Some v => v =? Z.of_nat k
                            | None => false
                            end) (seq 0 10) = true) as Hall by reflexivity.
  rewrite forallb_forall in Hall. specialize (Hall (N.to_nat d)).
  rewrite N2Nat.id in Hall. rewrite in_seq in Hall.
  destruct (digitValue (pretty_N_char d)) as [v|].
  - assert ((v =? Z.of_nat (N.to_nat d)) = true) as Hv by (apply Hall; lia).
    apply Z.eqb_eq in Hv. f_equal. lia.
  - assert (false = true) by (apply Hall; lia). discriminate.
Qed.

Lemma plain_pretty (d : N) :
  (d < 10)%N -> plainChar (pretty_N_char d) = true.
Proof.
  intros Hd.
  assert (forallb (fun k => plainChar (pretty_N_char (N.of_nat k))) (seq 0 10) = true)
    as Hall by reflexivity.
  rewrite forallb_forall in Hall. specialize (Hall (N.to_nat d)).
  rewrite N2Nat.id in Hall. apply Hall. rewrite in_seq. lia.
Qed.

(** Reading back the digits that [pretty_N_go] puts in front of [s]. *)
Lemma parseDigits_pretty_N_go (x : N) : forall s,
  exists k : Z, 0 <= k /\ forall acc seen,
    parseDigits (pretty_N_go x s) acc seen
    = parseDigits s (acc * 10 ^ k + Z.of_N x) (seen || (0 <? x)%N).
Proof.
  induction (N.lt_wf_0 x) as [x _ IH]. intros s.
  destruct (N.eq_dec x 0%N) as [->|Hx].
  - exists 0. split; [lia|]. intros acc seen. rewrite pretty_N_go_0.
    rewrite orb_false_r. f_equal. lia.
  - assert (0 < x)%N as Hpos by lia.
    rewrite pretty_N_go_step by assumption.
    destruct (IH (x `div` 10)%N (N.div_lt x 10 Hpos eq_refl)
                (String (pretty_N_char (x `mod` 10)) s)) as (k & Hk & Hread).
    exists (k + 1). split; [lia|]. intros acc seen. rewrite Hread. simpl.
    rewrite digitValue_pretty by (apply N.mod_lt; lia).
    assert ((0 <? x)%N = true) as -> by (apply N.ltb_lt; assumption).
    rewrite orb_true_r. f_equal.
    rewrite Z.pow_add_r by lia.
    pose proof (N.div_mod x 10 ltac:(lia)) as Hdm.
    assert (Z.of_N x = 10 * Z.of_N (x `div` 10) + Z.of_N (x `mod` 10)) as -> by lia.
    lia.
Qed.

(** A number that is not zero is printed as digits. *)
Lemma pretty_N_go_plain (x : N) : forall s,
  allChars plainChar s = true -> allChars plainChar (pretty_N_go x s) = true.
Proof.
  induction (N.lt_wf_0 x) as [x _ IH]. intros s Hs.
  destruct (N.eq_dec x 0%N) as [->|Hx]; [rewrite pretty_N_go_0; assumption|].
  assert (0 < x)%N as Hpos by lia.
  rewrite pretty_N_go_step by assumption.
  apply (IH (x `div` 10)%N (N.div_lt x 10 Hpos eq_refl)). simpl.
  rewrite plain_pretty by (apply N.mod_lt; lia). assumption.
Qed.

Lemma pretty_N_go_head (x : N) : forall s,
  (0 < x)%N -> exists d r, (d < 10)%N /\ pretty_N_go x s = String (pretty_N_char d) r.
Proof.
  induction (N.lt_wf_0 x) as [x _ IH]. intros s Hpos.
  rewrite pretty_N_go_step by assumption.
  destruct (N.eq_dec (x `div` 10)%N 0%N) as [->|Hq].
  - rewrite pretty_N_go_0. exists (x `mod` 10)%N, s. split; [apply N.mod_lt; lia|reflexivity].
  - apply (IH (x `div` 10)%N (N.div_lt x 10 Hpos eq_refl)).
    apply N.neq_0_lt_0. assumption.
Qed.

Lemma parseInt10_digits (d : N) (r : string) :
  (d < 10)%N ->
  parseInt10 (String (pretty_N_char d) r)
  = parseDigits (String (pretty_N_char d) r) 0 false ≫= integerNumber.
Proof.
  intros Hd.
  assert (forallb (fun k => let c := pretty_N_char (N.of_nat k) in
                            negb (Str.isWhiteSpace c) && negb (Ascii.eqb c "-")
                            && negb (Ascii.eqb c "+")) (seq 0 10) = true) as Hall
    by reflexivity.
  rewrite forallb_forall in Hall. specialize (Hall (N.to_nat d)).
  rewrite N2Nat.id in Hall. rewrite in_seq in Hall.
  assert (0 <= N.to_nat d < 0 + 10)%nat as Hin by lia.
  apply Hall in Hin. cbv zeta in Hin.
  apply andb_prop in Hin as [Hin Hplus]. apply andb_prop in Hin as [Hws Hminus].
  apply negb_true_iff in Hws, Hminus, Hplus.
  unfold parseInt10. cbn [Str.trimStart]. rewrite Hws.
  apply Ascii.eqb_neq in Hminus, Hplus.
  destruct (pretty_N_char d) as [[] [] [] [] [] [] [] []]; try reflexivity; congruence.
Qed.

Lemma parseDigits_pretty_pos (p : positive) :
  parseDigits (pretty (N.pos p)) 0 false = Some (Z.pos p).
Proof.
  assert (pretty (N.pos p) = pretty_N_go (N.pos p) "") as -> by reflexivity.
  destruct (parseDigits_pretty_N_go (N.pos p) "") as (k & _ & Hread).
  rewrite Hread. reflexivity.
Qed.

(** Up to 2^53 in magnitude [String] prints the decimal numeral. *)
Lemma String_of_Z_small (z : Z) : Z.abs z <= 2 ^ 53 -> JS.String_of_Z z = pretty z.
Proof.
  intros Hz. unfold JS.String_of_Z. apply Z.leb_le in Hz. rewrite Hz. reflexivity.
Qed.

Lemma parseInt10_String_of_Z (z : Z) :
  Z.abs z <= 2 ^ 53 -> parseInt10 (JS.String_of_Z z) = Some z.
Proof.
  intros Hz. rewrite String_of_Z_small by assumption.
  assert (forall v, Z.abs v <= 2 ^ 53 -> integerNumber v = Some v) as Hexact.
  { intros v Hv. unfold integerNumber. apply Z.leb_le in Hv. rewrite Hv. reflexivity. }
  destruct z as [|p|p].
  - reflexivity.
  - change (pretty (Z.pos p)) with (pretty (N.pos p)).
    destruct (pretty_N_go_head (N.pos p) "" ltac:(lia)) as (d & r & Hd & Heq).
    assert (pretty (N.pos p) = pretty_N_go (N.pos p) "") as Hgo by reflexivity.
    rewrite Hgo, Heq, parseInt10_digits by assumption. rewrite <- Heq, <- Hgo.
    rewrite parseDigits_pretty_pos. simpl. apply Hexact. assumption.
  - change (pretty (Z.neg p)) with ("-" +:+ pretty (N.pos p)).
    rewrite append_cons, append_nil. unfold parseInt10. cbn [Str.trimStart].
    change (Str.isWhiteSpace "-") with false. cbv iota.
    rewrite parseDigits_pretty_pos. simpl. apply Hexact. assumption.
Qed.

Lemma String_of_Z_plain (z : Z) :
  Z.abs z <= 2 ^ 53 -> allChars plainChar (JS.String_of_Z z) = true.
Proof.
  intros Hz. rewrite String_of_Z_small by assumption. destruct z as [|p|p].
  - reflexivity.
  - apply (pretty_N_go_plain (N.pos p) ""). reflexivity.
  - change (pretty (Z.neg p)) with ("-" +:+ pretty (N.pos p)).
    rewrite append_cons, append_nil. simpl.
    apply (pretty_N_go_plain (N.pos p) ""). reflexivity.
Qed.

Lemma String_of_Z_nonempty (z : Z) : Z.abs z <= 2 ^ 53 -> JS.String_of_Z z <> "".
Proof.
  intros Hz H. pose proof (parseInt10_String_of_Z z Hz) as Hp. rewrite H in Hp.
  discriminate.
Qed.

End DecimalFacts.

(** X26 -- The installment named at checkout is the one the webhook credits.
    For an order identifier that is not empty and an integer installment
    number of magnitude up to 2^53 (the integers a number holds exactly,
    which [String] prints as plain decimal numerals), the Stripe webhook
    reads from the session of a checkout created by create-checkout-session
    the same order identifier and, through [String] and [Number.parseInt],
    the same installment number; without an installment number at checkout
    it reads none, so the payment is treated at order level.  The Mercado
    Pago webhook reads back the installment number of the preference's
    metadata in the same way. *)
Theorem checkout_webhook_round_trip (orderId : string) (installmentNumber : option Z)
    (eventType : string) (id payment_status : option string) (amount_total : AmountValue)
    (created : option float) (paymentDate : string) :
  orderId <> "" ->
  (forall n, installmentNumber = Some n -> Z.abs n <= 2 ^ 53) ->
  let ev := stripeEvent eventType
              (Some (sessionOfCheckout (checkoutParams orderId installmentNumber)
                       id payment_status amount_total created)) paymentDate in
  ev_orderId ev = orderId
  /\ ev_installmentNumber ev = installmentNumber
  /\ isInstallmentPayment ev
     = match installmentNumber with Some n => 0 <? n | None => false end
  /\ mercadopagoInstallmentNumber installmentNumber = installmentNumber.
Proof.
  intros Hid Hbound ev. subst ev.
  assert (stripeInstallmentNumber (JS.String_of_Z <$> installmentNumber) = installmentNumber)
    as Hstripe.
  { destruct installmentNumber as [n|]; [|reflexivity].
    apply parseInt10_String_of_Z, Hbound. reflexivity. }
  repeat match goal with |- _ /\ _ => split end.
  - simpl. unfold JS.orS. destruct (String.eqb_spec orderId ""); [contradiction|].
    destruct (String.eqb_spec orderId ""); [contradiction|reflexivity].
  - exact Hstripe.
  - unfold isInstallmentPayment. simpl. rewrite Hstripe. reflexivity.
  - unfold mercadopagoInstallmentNumber. destruct installmentNumber as [n|]; [|reflexivity].
    pose proof (Hbound n eq_refl) as Hn.
    simpl. unfold JS.orS.
    destruct (String.eqb_spec (JS.String_of_Z n) "") as [He|];
      [exfalso; exact (String_of_Z_nonempty n Hn He)|].
    rewrite trim_plain by (apply String_of_Z_plain; assumption).
    apply parseInt10_String_of_Z. assumption.
Qed.

Lemma checkout_webhook_round_trip_witness :
  let ev := stripeEvent "checkout.session.completed"
              (Some (sessionOfCheckout (checkoutParams "o1" (Some 2))
                       (Some "cs_test_1") (Some "paid") (AmountNumber 2500)
                       (Some 1767614400%float)))
              "2026-01-05T12:00:00.000Z" in
  ev_orderId ev = "o1"
  /\ ev_installmentNumber ev = Some 2
  /\ isInstallmentPayment ev = (0 <? 2)
  /\ mercadopagoInstallmentNumber (Some 2) = Some 2.
Proof.
  apply (checkout_webhook_round_trip "o1" (Some 2) "checkout.session.completed"
           (Some "cs_test_1") (Some "paid") (AmountNumber 2500) (Some 1767614400%float)
           "2026-01-05T12:00:00.000Z").
  - discriminate.
  - intros n [= <-]. vm_compute. discriminate.
Defined.

(** * Webhook and page on the same payment *)

(** X27 -- A refund seen by the webhook is undone by the page.  For a stored
    order and a Mercado Pago payment of it whose status is refunded or
    charged_back: the webhook stamps the order Falhou; when the confirmation
    page of that order then checks the same payment through the
    retrieve-payment endpoint and the store lets the page write, the check
    ends in the done state and writes Pendente over it. *)
Theorem refund_webhook_then_page (accessToken secretKey : option string)
    (paymentId stripeSessionId : string) (mpRes : GatewayResponse)
    (stripeRes : StripeGatewayResponse) (now : Z) (nowISO : string)
    (db : gmap string Order) (o : Order) (d : MPPayment) :
  JS.orOpt accessToken "" <> "" ->
  Str.trim paymentId <> "" ->
  gw_ok mpRes = true ->
  gw_json mpRes = Some d ->
  mp_status d = Some "refunded" \/ mp_status d = Some "charged_back" ->
  mp_external_reference d = Some (order_id o) ->
  order_id o <> "" ->
  db !! order_id o = Some o ->
  let db1 := commit db (mercadopagoPOST accessToken paymentId mpRes now nowISO db).2 in
  exists o1 patch,
    db1 !! order_id o = Some o1
    /\ paymentStatus o1 = Some Falhou
    /\ pollThroughEndpoints "mercadopago" stripeSessionId paymentId o1 CheckIdle
         secretKey accessToken stripeRes mpRes db1 true
       = Some (CheckDone, Some (order_id o, patch))
    /\ paymentStatus <$> (commit db1 (Some (order_id o, patch)) !! order_id o)
       = Some (Some Pendente).
Proof.
  intros Htoken Hpid Hok Hjson Hstatus Href Hid Hdb db1.
  assert (paymentId <> "") as Hpid' by (intros ->; apply Hpid; reflexivity).
  assert (JS.orOpt (mp_status d) "" = "refunded" \/ JS.orOpt (mp_status d) "" = "charged_back")
    as Hst by (destruct Hstatus as [-> | ->]; [left|right]; reflexivity).
  assert (JS.orOpt (mp_external_reference d) "" = order_id o) as Hnamed.
  { rewrite Href. simpl. unfold JS.orS.
    destruct (String.eqb_spec (order_id o) ""); [contradiction|reflexivity]. }
  assert ((mercadopagoPOST accessToken paymentId mpRes now nowISO db).2
          = Some (order_id o,
                  {| patch_installmentDetails := None;
                     patch_paymentStatus := Some Falhou;
                     patch_paymentProvider := Some "MercadoPago";
                     patch_paymentSessionId := None |})) as Hpost.
  { unfold mercadopagoPOST.
    destruct (String.eqb_spec (JS.orOpt accessToken "") ""); [contradiction|].
    destruct (String.eqb_spec paymentId ""); [contradiction|].
    rewrite Hok, Hjson. cbn [negb snd].
    rewrite reconcile_stamp.
    - unfold stampPatch. cbn [ev_orderId ev_status mercadopagoEvent providerName mbind
                               option_bind].
      rewrite Hnamed. do 3 f_equal.
      destruct Hst as [-> | ->]; reflexivity.
    - cbn [ev_orderId mercadopagoEvent mbind option_bind]. rewrite Hnamed. assumption.
    - cbn [ev_status mercadopagoEvent mbind option_bind].
      destruct Hst as [-> | ->]; apply andb_false_r. }
  subst db1. rewrite Hpost. cbn [commit]. unfold updateDoc at 1. rewrite Hdb.
  eexists _, _. split; [apply lookup_insert_eq|].
  split; [reflexivity|].
  assert (forall stored,
          is_Some (stored !! order_id o) ->
          pollThroughEndpoints "mercadopago" stripeSessionId paymentId
            (applyPatch {| patch_installmentDetails := None;
                           patch_paymentStatus := Some Falhou;
                           patch_paymentProvider := Some "MercadoPago";
                           patch_paymentSessionId := None |} o)
            CheckIdle secretKey accessToken stripeRes mpRes stored true
          = Some (CheckDone,
                  Some (order_id o,
                        {| patch_installmentDetails := None;
                           patch_paymentStatus := Some Pendente;
                           patch_paymentProvider := Some "MercadoPago";
                           patch_paymentSessionId := None |}))) as Hpoll.
  { intros stored Hstored.
    unfold pollThroughEndpoints, pollPayment. cbn [order_id applyPatch paymentStatus from_option].
    destruct (String.eqb_spec (order_id o) ""); [contradiction|].
    change (String.eqb "mercadopago" "") with false.
    change (String.eqb "mercadopago" "stripe") with false.
    change (String.eqb "mercadopago" "mercadopago") with true.
    cbv iota. cbn [andb].
    destruct (String.eqb_spec paymentId ""); [contradiction|]. cbn [negb].
    assert (retrievePaymentGET accessToken (Some paymentId) mpRes
            = JS.Ok (mkResponse 200 (PaymentInfo d))) as ->.
    { unfold retrievePaymentGET.
      destruct (String.eqb_spec (JS.orOpt accessToken "") ""); [contradiction|].
      assert (JS.orOpt (Some paymentId) "" = paymentId) as ->
        by (simpl; unfold JS.orS; destruct (String.eqb_spec paymentId "");
            [contradiction|reflexivity]).
      destruct (String.eqb_spec (Str.trim paymentId) ""); [contradiction|].
      rewrite Hok, Hjson. reflexivity. }
    cbn [paymentResult api_ok api_data res_status res_body statusOk negb mbind option_bind
         rp_external_reference rp_status].
    change (statusOk 200) with true. cbn [negb]. cbv iota.
    rewrite Hnamed. rewrite String.eqb_refl.
    destruct (String.eqb_spec (order_id o) ""); [contradiction|]. cbn [negb andb].
    rewrite pollWrite_accepted by (reflexivity || assumption).
    do 5 f_equal. unfold pollStatusFromMercadoPago.
    destruct Hst as [-> | ->]; reflexivity. }
  split.
  { apply Hpoll. unfold updateDoc. rewrite Hdb, lookup_insert_eq. eauto. }
  cbn [commit]. unfold updateDoc. rewrite Hdb, lookup_insert_eq. cbv iota.
  rewrite lookup_insert_eq. reflexivity.
Qed.

Lemma refund_webhook_then_page_witness :
  let db1 := commit sampleDb
               (mercadopagoPOST (Some "APP_USR-1") "123" refundedPayment 1000 "now" sampleDb).2 in
  exists o1 patch,
    db1 !! order_id sampleOrder = Some o1
    /\ paymentStatus o1 = Some Falhou
    /\ pollThroughEndpoints "mercadopago" "" "123" o1 CheckIdle
         None (Some "APP_USR-1") sessionNotFound refundedPayment db1 true
       = Some (CheckDone, Some (order_id sampleOrder, patch))
    /\ paymentStatus <$> (commit db1 (Some (order_id sampleOrder, patch))
                            !! order_id sampleOrder)
       = Some (Some Pendente).
Proof.
  apply (refund_webhook_then_page (Some "APP_USR-1") None "123" "" refundedPayment
           sessionNotFound 1000 "now" sampleDb sampleOrder
           {| mp_message := None; mp_error := None;
              mp_external_reference := Some "o1"; mp_status := Some "refunded";
              mp_installmentNumber := Some 1;
              mp_transaction_amount := AmountNumber 25;
              mp_date_approved := Some "2026-01-05T12:00:00.000Z";
              mp_date_created := None; mp_id := Some "123" |});
    try reflexivity; try discriminate.
  left. reflexivity.
Defined.

(** * Commission *)

Section CommissionFacts.

Lemma fold_left_ext_in {A B} (f g : A -> B -> A) (l : list B) :
  (forall a b, In b l -> f a b = g a b) ->
  forall a, fold_left f l a = fold_left g l a.
Proof.
  induction l as [|b l IH]; intros Hfg a; simpl; [reflexivity|].
  rewrite Hfg by (left; reflexivity). apply IH.
  intros a' b' Hin. apply Hfg. right. assumption.
Qed.

End CommissionFacts.

(** X28 -- Which catalog entries a commission depends on.  For every order,
    [calculateCommission] reads of the catalog only the first product that
    carries the identifier of an item of the order: two catalogs that agree
    on that product for every item give the same commission, so products of
    other identifiers, and later products that repeat an identifier with
    another rule, change nothing. *)
Theorem calculateCommission_first_product (order : SoldOrder)
    (catalog catalog' : list Product) :
  (forall item, In item (so_items order) ->
     find (fun p => String.eqb (prod_id p) (item_id item)) catalog
     = find (fun p => String.eqb (prod_id p) (item_id item)) catalog') ->
  calculateCommission order catalog = calculateCommission order catalog'.
Proof.
  intros Hitems. unfold calculateCommission.
  destruct (so_isCommissionManual order), (so_commission order); try reflexivity;
    (destruct (String.eqb _ ""); [reflexivity|]);
    apply fold_left_ext_in; intros acc item Hin; unfold commissionStep;
    rewrite (Hitems item Hin); reflexivity.
Qed.

Lemma calculateCommission_first_product_witness :
  calculateCommission soldOrder fixedCatalog
  = calculateCommission soldOrder
      (fixedCatalog
       ++ [ {| prod_id := "p1"; prod_commissionType := Some "percentage";
               prod_commissionValue := Some 50%float |};
            {| prod_id := "p2"; prod_commissionType := Some "fixed";
               prod_commissionValue := Some 9%float |} ]).
Proof.
  apply (calculateCommission_first_product soldOrder).
  simpl. intros item [<-|[]]. reflexivity.
Defined.
